(** * privateDex: hedge-position engine, risk gate and dual-leg execution

    A shallow embedding of the parts of the Lighter hedge trading system
    that its design document makes claims about:

    - [src/models.py]: the data model;
    - [src/config/config_manager.py]: look-ups in the loaded configuration
      and its validation;
    - [src/services/account_manager.py]: the account table;
    - [src/services/risk_manager.py]: the risk gate, the loss counters and
      the periodic balance check;
    - [src/services/order_manager.py]: the rate limiter, the precision
      tables, the price of a market order and the price validation of a
      limit order;
    - [src/core/hedge_trading_engine.py]: the N-strike anomaly trackers and
      the overlap check that guards a new open;
    - [src/strategies/balanced_hedge_strategy.py]: the open and close
      protocols, the reference price, the stop distance, the protective
      orders, the direction rotation and the monitoring of a hedge.

    Conventions of the embedding.

    - A [Decimal] is modelled by the rational number it denotes ([Q]);
      arithmetic is exact, the 28 significant digits of the decimal context
      are not modelled.  Statements about values use [==] ([Qeq]).
    - A division whose divisor is zero raises in Python; [Dec.div] returns
      [None] there and the caller follows the [except] branch.
    - [datetime.now()] is an explicit argument, in microseconds.
    - Calls to the venue (SDK, websocket, account API) are answers supplied
      by an environment record; everything the code computes from them is
      computed here too.
    - Logging is dropped. *)

From Stdlib Require Import QArith Qabs Qminmax Qround Lqa ZArith Lia.
From stdpp Require Import gmap strings list fin_maps pretty sorting.

Set Default Proof Using "Type".

(** ** Decimal arithmetic as used by the code *)

Module Dec.

Local Open Scope Q_scope.

Definition Decimal := Q.

(** [a < b], [a <= b], [a > b], [a >= b] and [a == b] on decimals. *)
Definition le (a b : Q) : bool := Qle_bool a b.
Definition lt (a b : Q) : bool := negb (Qle_bool b a).
Definition ge (a b : Q) : bool := le b a.
Definition gt (a b : Q) : bool := lt b a.
Definition eq (a b : Q) : bool := Qeq_bool a b.

(** Truth value of a decimal: zero is falsy. *)
Definition truthy (a : Q) : bool := negb (eq a 0).

(** [a / b]; raises (here: [None]) on a zero divisor. *)
Definition div (a b : Q) : option Q :=
  if eq b 0 then None else Some (a / b).

(** Python's [max(a, b)] and [min(a, b)]: the first argument wins ties. *)
Definition max (a b : Q) : Q := if lt a b then b else a.
Definition min (a b : Q) : Q := if lt b a then b else a.

(** [max(xs)] and [min(xs)] over a non-empty sequence ([None]: the
    sequence is empty and Python raises [ValueError]). *)
Definition max_list (xs : list Q) : option Q :=
  match xs with
  | [] => None
  | x :: rest => Some (foldl max x rest)
  end.
Definition min_list (xs : list Q) : option Q :=
  match xs with
  | [] => None
  | x :: rest => Some (foldl min x rest)
  end.

(** [sum(xs)] *)
Definition sum (xs : list Q) : Q := foldl Qplus 0 xs.

(** [int(a)]: truncation toward zero. *)
Definition to_int (a : Q) : Z := Z.quot (Qnum a) (Zpos (Qden a)).

(** [Decimal(n)] for an integer [n]. *)
Definition of_int (n : Z) : Q := inject_Z n.

End Dec.

(** ** Data model ([src/models.py]) *)

Inductive PositionStatus :=
| OPENING | ACTIVE | CLOSING | CLOSED | FAILED | PENDING | PENDING_CLOSE.

Inductive OrderStatus :=
| ORDER_PENDING | ORDER_FILLED | ORDER_CANCELLED | ORDER_FAILED.

#[global] Instance PositionStatus_eq_dec : EqDecision PositionStatus.
Proof. solve_decision. Defined.

#[global] Instance OrderStatus_eq_dec : EqDecision OrderStatus.
Proof. solve_decision. Defined.

Record RiskLimits := {
  rl_max_daily_loss : Q;
  rl_max_position_size : Q;
  rl_max_slippage : Q;
  rl_min_balance : Q
}.

Record AccountConfig := {
  ac_index : Z;
  ac_l1_address : string;
  ac_is_active : bool;
  ac_risk_limits : RiskLimits
}.

(** [stop_take_distance: Union[str, float]]: the string ["auto"], a number
    (a percentage), or some other string, which [Decimal(str(...))]
    rejects. *)
Inductive StopTakeDistance :=
| DistanceAuto
| DistanceNumber (percent : Q)
| DistanceOtherString (s : string).

Record TradingPairConfig := {
  pc_id : string;
  pc_name : string;
  pc_market_index : Z;
  pc_is_enabled : bool;
  pc_stop_take_distance : StopTakeDistance;
  pc_account_addresses : list string;
  pc_risk_limits : RiskLimits;
  pc_leverage : Z
}.

Record Position := {
  pos_id : string;
  pos_account_index : Z;
  pos_market_index : Z;
  pos_side : string;           (* "long" or "short" *)
  pos_size : Q;
  pos_entry_price : Q;
  pos_current_price : option Q;
  pos_leverage : Z;
  pos_margin_used : Q;
  pos_liquidation_price : option Q
}.

Record Account := {
  acc_index : Z;
  acc_balance : Q;
  acc_available_balance : Q;
  acc_positions : list Position;
  acc_is_active : bool
}.

Record RiskEvent := {
  ev_service : string;
  ev_type : string;
  ev_account_index : option Z;
  ev_pair_id : option string;
  ev_value : Q;
  ev_limit : Q;
  ev_severity : string;
  ev_action : string;
  ev_timestamp : Z
}.

Record MarketData := {
  md_market_index : Z;
  md_price : Q;
  md_bid_price : option Q;
  md_ask_price : option Q;
  md_timestamp : Z
}.

(** An order-book level is a [Dict[str, Decimal]]. *)
Record OrderBook := {
  ob_market_index : Z;
  ob_bids : list (gmap string Q);
  ob_asks : list (gmap string Q)
}.

(** ** Configuration look-ups ([src/config/config_manager.py]) *)

(** A value read from the YAML file where the code expects a number. *)
Inductive YamlValue :=
| YamlNumber (q : Q)
| YamlOther (s : string).

Record ConfigModel := {
  risk_management : gmap string YamlValue;
  cfg_accounts : list AccountConfig;
  cfg_trading_pairs : list TradingPairConfig
}.

(** [ConfigManager.config] is [None] until the file is loaded; every getter
    raises [ValueError] then (here: [None]). *)
Record ConfigManager := { config : option ConfigModel }.

Module Config.

(** [str.lower()] on ASCII text (addresses are hexadecimal strings). *)
Definition lower_ascii (c : Ascii.ascii) : Ascii.ascii :=
  let n := Ascii.nat_of_ascii c in
  if (65 <=? n)%nat && (n <=? 90)%nat then Ascii.ascii_of_nat (n + 32) else c.

Fixpoint lower (s : string) : string :=
  match s with
  | EmptyString => EmptyString
  | String c rest => String (lower_ascii c) (lower rest)
  end.

Definition get_risk_config (cm : ConfigManager) : option (gmap string YamlValue) :=
  risk_management <$> config cm.

Definition get_accounts (cm : ConfigManager) : option (list AccountConfig) :=
  cfg_accounts <$> config cm.

Definition get_trading_pairs (cm : ConfigManager) : option (list TradingPairConfig) :=
  cfg_trading_pairs <$> config cm.

Definition get_active_pairs (cm : ConfigManager) : option (list TradingPairConfig) :=
  filter (λ p, pc_is_enabled p = true) <$> get_trading_pairs cm.

(** The outer [option] is the exception, the inner one the returned
    [Optional]. *)
Definition get_account_by_index (cm : ConfigManager) (index : Z)
  : option (option AccountConfig) :=
  accounts ← get_accounts cm;
  Some (List.find (λ a, Z.eqb (ac_index a) index) accounts).

Definition get_account_by_address (cm : ConfigManager) (address : string)
  : option (option AccountConfig) :=
  accounts ← get_accounts cm;
  Some (List.find (λ a, String.eqb (lower (ac_l1_address a)) (lower address)) accounts).

Definition get_pair_by_id (cm : ConfigManager) (pair_id : string)
  : option (option TradingPairConfig) :=
  pairs ← get_trading_pairs cm;
  Some (List.find (λ p, String.eqb (pc_id p) pair_id) pairs).

Fixpoint get_pair_accounts_from (cm : ConfigManager) (addresses : list string)
  : option (list AccountConfig) :=
  match addresses with
  | [] => Some []
  | address :: rest =>
      account ← get_account_by_address cm address;
      accounts ← get_pair_accounts_from cm rest;
      Some (match account with
            | Some a => a :: accounts
            | None => accounts
            end)
  end.

Definition get_pair_accounts (cm : ConfigManager) (pair : TradingPairConfig)
  : option (list AccountConfig) :=
  get_pair_accounts_from cm (pc_account_addresses pair).

(** [get_active_accounts] *)
Definition get_active_accounts (cm : ConfigManager) : option (list AccountConfig) :=
  filter (λ a, ac_is_active a = true) <$> get_accounts cm.

(** An entry of the [errors] list of [validate_config]. *)
Inductive ConfigError :=
| TooFewActiveAccounts
| PairTooFewAccounts (pair_id : string)
| PairInactiveAccounts (pair_id : string) (inactive_addresses : list string).

(** The errors [validate_config] collects for one trading pair. *)
Definition pair_errors (cm : ConfigManager) (pair : TradingPairConfig)
  : option (list ConfigError) :=
  if pc_is_enabled pair then
    pair_accounts ← get_pair_accounts cm pair;
    let inactive_accounts := filter (λ acc, ac_is_active acc = false) pair_accounts in
    Some ((if bool_decide (length pair_accounts < 2)%nat
           then [PairTooFewAccounts (pc_id pair)] else [])
          ++ match inactive_accounts with
             | [] => []
             | _ => [PairInactiveAccounts (pc_id pair)
                       (map ac_l1_address inactive_accounts)]
             end)
  else Some [].

(** The [errors] list of [validate_config]; [None] when the configuration
    is not loaded (the routine raises before it collects anything). *)
Definition validation_errors (cm : ConfigManager) : option (list ConfigError) :=
  c ← config cm;
  let active_accounts := filter (λ acc, ac_is_active acc = true) (cfg_accounts c) in
  per_pair ← mapM (pair_errors cm) (cfg_trading_pairs c);
  Some ((if bool_decide (length active_accounts < 2)%nat
         then [TooFewActiveAccounts] else [])
        ++ concat per_pair).

(** [validate_config] returns ([true]) or raises [ValueError] ([false]). *)
Definition validate_config (cm : ConfigManager) : bool :=
  match validation_errors cm with
  | Some [] => true
  | _ => false
  end.

End Config.

(** ** Account manager ([src/services/account_manager.py]) *)

Record AccountManager := { accounts : gmap Z Account }.

Module Accounts.

Definition get_account (am : AccountManager) (account_index : Z) : option Account :=
  accounts am !! account_index.

Definition get_account_balance (am : AccountManager) (account_index : Z) : Q :=
  match get_account am account_index with
  | Some account => acc_balance account
  | None => 0%Q
  end.

Definition get_available_balance (am : AccountManager) (account_index : Z) : Q :=
  match get_account am account_index with
  | Some account => acc_available_balance account
  | None => 0%Q
  end.

Definition get_account_positions (am : AccountManager) (account_index : Z)
  : list Position :=
  match get_account am account_index with
  | Some account => acc_positions account
  | None => []
  end.

(** [is_account_active] *)
Definition is_account_active (am : AccountManager) (account_index : Z) : bool :=
  match get_account am account_index with
  | Some account => acc_is_active account
  | None => false
  end.

(** [has_sufficient_balance] *)
Definition has_sufficient_balance (am : AccountManager) (account_index : Z)
    (required_amount : Q) : bool :=
  Dec.ge (get_available_balance am account_index) required_amount.

(** A value of an account update as the feed delivers it. *)
Inductive FeedValue :=
| FeedNumber (q : Q)
| FeedOther (s : string).

(** [Decimal(str(value))]; [None] when the conversion raises. *)
Definition decimal_of_feed (value : FeedValue) : option Q :=
  match value with
  | FeedNumber q => Some q
  | FeedOther _ => None
  end.

Definition set_balance (account : Account) (balance : Q) : Account :=
  {| acc_index := acc_index account; acc_balance := balance;
     acc_available_balance := acc_available_balance account;
     acc_positions := acc_positions account; acc_is_active := acc_is_active account |}.

Definition set_available_balance (account : Account) (available_balance : Q) : Account :=
  {| acc_index := acc_index account; acc_balance := acc_balance account;
     acc_available_balance := available_balance;
     acc_positions := acc_positions account; acc_is_active := acc_is_active account |}.

(** [update_account_data]: [balance] and [available_balance] are the two
    entries of the update, each present or not (the dictionary and the
    object format are read alike).  The account object is assigned field
    by field, so a conversion that raises leaves the fields assigned
    before it. *)
Definition update_account_data (am : AccountManager) (account_index : Z)
    (balance available_balance : option FeedValue) : AccountManager :=
  match accounts am !! account_index with
  | None => am
  | Some account =>
      let after_balance :=
        match balance with
        | None => Some account
        | Some value => set_balance account <$> decimal_of_feed value
        end in
      match after_balance with
      | None => am
      | Some account =>
          let after_available :=
            match available_balance with
            | None => Some account
            | Some value => set_available_balance account <$> decimal_of_feed value
            end in
          {| accounts := <[account_index := default account after_available]> (accounts am) |}
      end
  end.

End Accounts.

(** ** Risk gate ([src/services/risk_manager.py]) *)

Module Risk.

Local Open Scope Q_scope.

(** The reason string of a refused check, by the f-string that builds it. *)
Inductive Reason :=
| ReasonEmergencyStop
| ReasonGlobalDailyLoss (total_daily_loss global_max_loss : Q)
| ReasonPairDailyLoss (pair_daily_loss limit : Q)
| ReasonPositionSize (base_amount limit : Q)
| ReasonAccountUnavailable (account_index : Z)
| ReasonBalanceLow (account_index : Z) (available_balance limit : Q)
| ReasonAccountDailyLoss (account_index : Z) (account_daily_loss limit : Q)
| ReasonCheckError.

Record RiskCheckResult := {
  allowed : bool;
  reason : option Reason;
  severity : string;
  action : option string
}.

Definition allow : RiskCheckResult :=
  {| allowed := true; reason := None; severity := "info"; action := None |}.

Definition deny (r : Reason) (sev act : string) : RiskCheckResult :=
  {| allowed := false; reason := Some r; severity := sev; action := Some act |}.

Record RiskManager := {
  daily_losses : gmap Z Q;
  pair_daily_losses : gmap string Q;
  risk_events : list RiskEvent;
  emergency_stop_active : bool
}.

Definition set_daily_losses (self : RiskManager) (m : gmap Z Q) : RiskManager :=
  {| daily_losses := m;
     pair_daily_losses := pair_daily_losses self;
     risk_events := risk_events self;
     emergency_stop_active := emergency_stop_active self |}.

Definition set_pair_daily_losses (self : RiskManager) (m : gmap string Q) : RiskManager :=
  {| daily_losses := daily_losses self;
     pair_daily_losses := m;
     risk_events := risk_events self;
     emergency_stop_active := emergency_stop_active self |}.

Definition append_risk_event (self : RiskManager) (event : RiskEvent) : RiskManager :=
  {| daily_losses := daily_losses self;
     pair_daily_losses := pair_daily_losses self;
     risk_events := risk_events self ++ [event];
     emergency_stop_active := emergency_stop_active self |}.

Definition activate_emergency_stop (self : RiskManager) : RiskManager :=
  {| daily_losses := daily_losses self;
     pair_daily_losses := pair_daily_losses self;
     risk_events := risk_events self;
     emergency_stop_active := true |}.

Definition deactivate_emergency_stop (self : RiskManager) : RiskManager :=
  {| daily_losses := daily_losses self;
     pair_daily_losses := pair_daily_losses self;
     risk_events := risk_events self;
     emergency_stop_active := false |}.

(** [_trigger_risk_event]: record the event, then run its action.  The
    registered handlers only observe the event. *)
Definition _trigger_risk_event (now : Z) (self : RiskManager)
    (service event_type : string) (value limit : Q) (sev act : string)
    (account_index : option Z) (pair_id : option string) : RiskManager :=
  let event := {| ev_service := service; ev_type := event_type;
                  ev_account_index := account_index; ev_pair_id := pair_id;
                  ev_value := value; ev_limit := limit;
                  ev_severity := sev; ev_action := act;
                  ev_timestamp := now |} in
  let self := append_risk_event self event in
  if String.eqb act "emergency_stop" then activate_emergency_stop self else self.

(** [Decimal(str(global_config.get('global_max_daily_loss', 5000)))];
    [None] when the conversion raises. *)
Definition global_max_daily_loss (global_config : gmap string YamlValue) : option Q :=
  match global_config !! "global_max_daily_loss" with
  | None => Some 5000
  | Some (YamlNumber q) => Some q
  | Some (YamlOther _) => None
  end.

(** [sum(self.daily_losses.values())] *)
Definition total_daily_loss (self : RiskManager) : Q :=
  Dec.sum ((map_to_list (daily_losses self)).*2).

(** [self.daily_losses.get(index, Decimal('0'))] *)
Definition account_daily_loss (self : RiskManager) (index : Z) : Q :=
  default 0 (daily_losses self !! index).

Definition pair_daily_loss (self : RiskManager) (pair_id : string) : Q :=
  default 0 (pair_daily_losses self !! pair_id).

(** The [for account_config in pair_accounts] loop of
    [check_open_position_risk]. *)
Fixpoint check_account_balances (now : Z) (am : AccountManager) (self : RiskManager)
    (pair_accounts : list AccountConfig) : RiskCheckResult * RiskManager :=
  match pair_accounts with
  | [] => (allow, self)
  | account_config :: rest =>
      let index := ac_index account_config in
      let limits := ac_risk_limits account_config in
      match Accounts.get_account am index with
      | None => (deny (ReasonAccountUnavailable index) "warning" "wait", self)
      | Some account =>
          if Dec.lt (acc_available_balance account) (rl_min_balance limits) then
            (deny (ReasonBalanceLow index (acc_available_balance account) (rl_min_balance limits))
                  "warning" "skip_account",
             _trigger_risk_event now self "risk_manager" "balance_low"
               (acc_available_balance account) (rl_min_balance limits)
               "warning" "skip_account" (Some index) None)
          else if Dec.ge (account_daily_loss self index) (rl_max_daily_loss limits) then
            (deny (ReasonAccountDailyLoss index (account_daily_loss self index)
                     (rl_max_daily_loss limits))
                  "warning" "skip_account", self)
          else check_account_balances now am self rest
      end
  end.

(** The [except Exception] branch of [check_open_position_risk]. *)
Definition check_failed : RiskCheckResult :=
  deny ReasonCheckError "error" "wait".

Definition check_open_position_risk (now : Z) (cm : ConfigManager) (am : AccountManager)
    (self : RiskManager) (pair_config : TradingPairConfig) (base_amount : Q)
  : RiskCheckResult * RiskManager :=
  if emergency_stop_active self then
    (deny ReasonEmergencyStop "critical" "wait", self)
  else
    match Config.get_risk_config cm with
    | None => (check_failed, self)
    | Some global_config =>
    match global_max_daily_loss global_config with
    | None => (check_failed, self)
    | Some global_max_loss =>
        let total := total_daily_loss self in
        if Dec.ge total global_max_loss then
          (deny (ReasonGlobalDailyLoss total global_max_loss) "critical" "emergency_stop",
           _trigger_risk_event now self "risk_manager" "global_daily_loss_limit"
             total global_max_loss "critical" "emergency_stop" None None)
        else
          let limits := pc_risk_limits pair_config in
          let pair_loss := pair_daily_loss self (pc_id pair_config) in
          if Dec.ge pair_loss (rl_max_daily_loss limits) then
            (deny (ReasonPairDailyLoss pair_loss (rl_max_daily_loss limits))
                  "warning" "skip_pair", self)
          else if Dec.gt base_amount (rl_max_position_size limits) then
            (deny (ReasonPositionSize base_amount (rl_max_position_size limits))
                  "warning" "reduce_size", self)
          else
            match Config.get_pair_accounts cm pair_config with
            | None => (check_failed, self)
            | Some pair_accounts => check_account_balances now am self pair_accounts
            end
    end
    end.

(** [_check_loss_limits]: warnings at 80% of a ceiling.  [None]: a
    getter raised before anything was recorded. *)
Definition _check_loss_limits (now : Z) (cm : ConfigManager) (self : RiskManager)
    (account_index : Z) (pair_id : string) : option RiskManager :=
  account_config ← Config.get_account_by_index cm account_index;
  let self :=
    match account_config with
    | Some account_config =>
        let account_loss := account_daily_loss self account_index in
        let account_limit := rl_max_daily_loss (ac_risk_limits account_config) in
        if Dec.ge account_loss (account_limit * 0.8) then
          _trigger_risk_event now self "risk_manager" "account_loss_warning"
            account_loss account_limit "warning" "monitor" (Some account_index) None
        else self
    | None => self
    end in
  pair_config ← Config.get_pair_by_id cm pair_id;
  Some
    match pair_config with
    | Some pair_config =>
        let pair_loss := pair_daily_loss self pair_id in
        let pair_limit := rl_max_daily_loss (pc_risk_limits pair_config) in
        if Dec.ge pair_loss (pair_limit * 0.8) then
          _trigger_risk_event now self "risk_manager" "pair_loss_warning"
            pair_loss pair_limit "warning" "monitor" None (Some pair_id)
        else self
    | None => self
    end.

(** The two dictionary updates of [record_trade_pnl] under [if pnl < 0]. *)
Definition add_loss (self : RiskManager) (account_index : Z) (pair_id : string)
    (pnl : Q) : RiskManager :=
  let current_loss := account_daily_loss self account_index in
  let self := set_daily_losses self
                (<[account_index := current_loss + Qabs pnl]> (daily_losses self)) in
  let current_pair_loss := pair_daily_loss self pair_id in
  set_pair_daily_losses self
    (<[pair_id := current_pair_loss + Qabs pnl]> (pair_daily_losses self)).

Definition record_trade_pnl (now : Z) (cm : ConfigManager) (self : RiskManager)
    (account_index : Z) (pair_id : string) (pnl : Q) : RiskManager :=
  let self := if Dec.lt pnl 0 then add_loss self account_index pair_id pnl else self in
  match _check_loss_limits now cm self account_index pair_id with
  | Some self' => self'
  | None => self
  end.

(** *** The gates of the check, in the order of the design document *)

Record Gate := { gate_fails : bool; gate_reason : Reason }.

Definition account_gates (am : AccountManager) (self : RiskManager)
    (account_config : AccountConfig) : list Gate :=
  let index := ac_index account_config in
  let limits := ac_risk_limits account_config in
  match Accounts.get_account am index with
  | None => [ {| gate_fails := true; gate_reason := ReasonAccountUnavailable index |} ]
  | Some account =>
      [ {| gate_fails := Dec.lt (acc_available_balance account) (rl_min_balance limits);
           gate_reason := ReasonBalanceLow index (acc_available_balance account)
                            (rl_min_balance limits) |};
        {| gate_fails := Dec.ge (account_daily_loss self index) (rl_max_daily_loss limits);
           gate_reason := ReasonAccountDailyLoss index (account_daily_loss self index)
                            (rl_max_daily_loss limits) |} ]
  end.

Definition global_gate (self : RiskManager) (global_max_loss : Q) : Gate :=
  {| gate_fails := Dec.ge (total_daily_loss self) global_max_loss;
     gate_reason := ReasonGlobalDailyLoss (total_daily_loss self) global_max_loss |}.

Definition gate_sequence (am : AccountManager) (self : RiskManager)
    (global_max_loss : Q) (pair_config : TradingPairConfig) (base_amount : Q)
    (pair_accounts : list AccountConfig) : list Gate :=
  let limits := pc_risk_limits pair_config in
  let pair_loss := pair_daily_loss self (pc_id pair_config) in
  [ {| gate_fails := emergency_stop_active self; gate_reason := ReasonEmergencyStop |};
    global_gate self global_max_loss;
    {| gate_fails := Dec.ge pair_loss (rl_max_daily_loss limits);
       gate_reason := ReasonPairDailyLoss pair_loss (rl_max_daily_loss limits) |};
    {| gate_fails := Dec.gt base_amount (rl_max_position_size limits);
       gate_reason := ReasonPositionSize base_amount (rl_max_position_size limits) |} ]
  ++ concat (map (account_gates am self) pair_accounts).

(** The verdict of a sequence of gates: the first one that fails decides. *)
Definition first_failing (gates : list Gate) : option Gate :=
  List.find gate_fails gates.

Definition verdict (gates : list Gate) : bool * option Reason :=
  match first_failing gates with
  | Some g => (false, Some (gate_reason g))
  | None => (true, None)
  end.

(** [reset_daily_counters] *)
Definition reset_daily_counters (self : RiskManager) : RiskManager :=
  set_pair_daily_losses (set_daily_losses self ∅) ∅.

(** The body of the loop of [_perform_risk_checks] for one account. *)
Definition check_account_balance (now : Z) (am : AccountManager) (self : RiskManager)
    (account_config : AccountConfig) : RiskManager :=
  let index := ac_index account_config in
  let limits := ac_risk_limits account_config in
  match Accounts.get_account am index with
  | Some account =>
      if Dec.lt (acc_available_balance account) (rl_min_balance limits) then
        _trigger_risk_event now self "risk_monitor" "balance_low"
          (acc_available_balance account) (rl_min_balance limits)
          "warning" "monitor" (Some index) None
      else self
  | None => self
  end.

(** [_perform_risk_checks]: the periodic check of the balances of the
    active accounts. *)
Definition _perform_risk_checks (now : Z) (cm : ConfigManager) (am : AccountManager)
    (self : RiskManager) : RiskManager :=
  match Config.get_active_accounts cm with
  | None => self
  | Some active_accounts => foldl (check_account_balance now am) self active_accounts
  end.

End Risk.

(** ** Anomaly trackers ([src/core/hedge_trading_engine.py]) *)

Module Engine.

(** One entry of [account_position_status], as [_check_position_overlap]
    builds it from the venue's answer. *)
Record AccountPositionStatus := {
  has_position : bool;
  positions_count : Z
}.

(** A position as the venue reports it. *)
Record ExchangePosition := {
  xp_account_index : option Z;
  xp_side : string;
  xp_size : Q;
  xp_entry_price : Q
}.

(** The record kept per pair by [_handle_position_inconsistency] and by
    [_handle_sl_tp_missing]. *)
Record FingerprintTracker := {
  first_detected : Z;
  last_checked : Z;
  consecutive_count : Z;
  last_fingerprint : string;
  status_history : list string
}.

(** The record kept per pair by [_handle_position_issues]. *)
Record IssuesTracker := {
  count : Z;
  issues_first_detected : Z;
  last_detected : Z;
  issues_history : list (Z * list string);
  positions_snapshot : list ExchangePosition
}.

(** [__init__] creates [position_issues_tracker] and
    [sl_tp_missing_tracker]; it never creates
    [position_inconsistency_tracker], so that attribute is optional. *)
Record HedgeTradingEngine := {
  position_issues_tracker : gmap string IssuesTracker;
  sl_tp_missing_tracker : gmap string FingerprintTracker;
  position_inconsistency_tracker : option (gmap string FingerprintTracker)
}.

Definition set_position_issues_tracker (self : HedgeTradingEngine)
    (m : gmap string IssuesTracker) : HedgeTradingEngine :=
  {| position_issues_tracker := m;
     sl_tp_missing_tracker := sl_tp_missing_tracker self;
     position_inconsistency_tracker := position_inconsistency_tracker self |}.

Definition set_sl_tp_missing_tracker (self : HedgeTradingEngine)
    (m : gmap string FingerprintTracker) : HedgeTradingEngine :=
  {| position_issues_tracker := position_issues_tracker self;
     sl_tp_missing_tracker := m;
     position_inconsistency_tracker := position_inconsistency_tracker self |}.

Definition set_position_inconsistency_tracker (self : HedgeTradingEngine)
    (m : gmap string FingerprintTracker) : HedgeTradingEngine :=
  {| position_issues_tracker := position_issues_tracker self;
     sl_tp_missing_tracker := sl_tp_missing_tracker self;
     position_inconsistency_tracker := Some m |}.

(** [str(b)] for a [bool]. *)
Definition str_bool (b : bool) : string := if b then "True" else "False".

(** ["|".join(parts)] *)
Fixpoint join (sep : string) (parts : list string) : string :=
  match parts with
  | [] => ""
  | [p] => p
  | p :: rest => p +:+ sep +:+ join sep rest
  end.

(** [sorted(d.keys())] for integer keys. *)
Definition sorted_keys {A} (d : gmap Z A) : list Z :=
  merge_sort Z.le (map_to_list d).*1.

Definition _create_position_status_fingerprint
    (account_position_status : gmap Z AccountPositionStatus) : string :=
  join "|"
    (omap (fun account_index =>
             status ← account_position_status !! account_index;
             Some (pretty account_index +:+ ":" +:+ str_bool (has_position status)
                   +:+ ":" +:+ pretty (positions_count status)))
          (sorted_keys account_position_status)).

Definition _create_sl_tp_missing_fingerprint
    (account_position_status : gmap Z AccountPositionStatus) : string :=
  join "|"
    (omap (fun account_index =>
             status ← account_position_status !! account_index;
             Some (pretty account_index +:+ ":pos=" +:+ str_bool (has_position status)))
          (sorted_keys account_position_status)).

(** [history[-10:]] *)
Definition last_ten (history : list string) : list string :=
  drop (length history - 10) history.

(** The body shared, statement for statement, by the two fingerprint
    trackers once the record of the pair has been fetched: an equal
    fingerprint is one more strike, a different one starts over. *)
Definition strike (tracker : FingerprintTracker) (current_time : Z)
    (status_fingerprint : string) : bool * FingerprintTracker :=
  if String.eqb (last_fingerprint tracker) status_fingerprint then
    let tracker :=
      {| first_detected := first_detected tracker;
         last_checked := current_time;
         consecutive_count := consecutive_count tracker + 1;
         last_fingerprint := last_fingerprint tracker;
         status_history := status_history tracker |} in
    (bool_decide (3 <= consecutive_count tracker)%Z, tracker)
  else
    let history := status_history tracker ++ [status_fingerprint] in
    (false,
     {| first_detected := current_time;
        last_checked := current_time;
        consecutive_count := 1;
        last_fingerprint := status_fingerprint;
        status_history :=
          if bool_decide (10 < length history)%nat then last_ten history else history |}).

Definition first_strike (current_time : Z) (status_fingerprint : string)
  : FingerprintTracker :=
  {| first_detected := current_time;
     last_checked := current_time;
     consecutive_count := 1;
     last_fingerprint := status_fingerprint;
     status_history := [status_fingerprint] |}.

(** [_handle_position_inconsistency].  Reading the attribute that
    [__init__] never sets raises [AttributeError]; the [except] branch
    returns [False]. *)
Definition _handle_position_inconsistency (self : HedgeTradingEngine)
    (current_time : Z) (pair_config : TradingPairConfig)
    (account_position_status : gmap Z AccountPositionStatus)
  : bool * HedgeTradingEngine :=
  let pair_id := pc_id pair_config in
  let status_fingerprint := _create_position_status_fingerprint account_position_status in
  match position_inconsistency_tracker self with
  | None => (false, self)
  | Some trackers =>
      match trackers !! pair_id with
      | None =>
          (false,
           set_position_inconsistency_tracker self
             (<[pair_id := first_strike current_time status_fingerprint]> trackers))
      | Some tracker =>
          let '(result, tracker) := strike tracker current_time status_fingerprint in
          (result,
           set_position_inconsistency_tracker self (<[pair_id := tracker]> trackers))
      end
  end.

(** [_handle_sl_tp_missing]: the same three-strike rule on the fingerprint
    of the protection status. *)
Definition _handle_sl_tp_missing (self : HedgeTradingEngine)
    (current_time : Z) (pair_config : TradingPairConfig)
    (account_position_status : gmap Z AccountPositionStatus)
  : bool * HedgeTradingEngine :=
  let pair_id := pc_id pair_config in
  let status_fingerprint := _create_sl_tp_missing_fingerprint account_position_status in
  let trackers := sl_tp_missing_tracker self in
  match trackers !! pair_id with
  | None =>
      (false,
       set_sl_tp_missing_tracker self
         (<[pair_id := first_strike current_time status_fingerprint]> trackers))
  | Some tracker =>
      let '(result, tracker) := strike tracker current_time status_fingerprint in
      (result, set_sl_tp_missing_tracker self (<[pair_id := tracker]> trackers))
  end.

(** [_check_position_inconsistency]: some accounts hold a position and
    some do not. *)
Definition _check_position_inconsistency
    (account_position_status : gmap Z AccountPositionStatus) : bool :=
  let statuses := (map_to_list account_position_status).*2 in
  let has_position_accounts := filter (fun s => has_position s = true) statuses in
  let no_position_accounts := filter (fun s => has_position s = false) statuses in
  let total_accounts := length statuses in
  if bool_decide (statuses = []) then false
  else if bool_decide (length has_position_accounts = total_accounts)
          || bool_decide (length no_position_accounts = total_accounts)
  then false else true.

(** Seconds, as the code writes them, in the unit of the clock. *)
Definition seconds (n : Z) : Z := (n * 1000000)%Z.

Definition min_detection_interval : Z := seconds 30.

(** [_handle_position_issues].  [size_imbalance] is the answer of
    [_check_hedge_position_size_balance], which is computed on floats; it
    is only written to the history. *)
Definition _handle_position_issues (self : HedgeTradingEngine)
    (current_time : Z) (pair_config : TradingPairConfig)
    (account_position_status : gmap Z AccountPositionStatus)
    (exchange_positions : list ExchangePosition) (size_imbalance : bool)
  : bool * HedgeTradingEngine :=
  let pair_id := pc_id pair_config in
  let trackers := position_issues_tracker self in
  let tracker :=
    default {| count := 0; issues_first_detected := current_time;
               last_detected := current_time; issues_history := [];
               positions_snapshot := [] |}
            (trackers !! pair_id) in
  let current_issues :=
    (if _check_position_inconsistency account_position_status
     then ["position_inconsistency"] else [])
    ++ (if negb (bool_decide (exchange_positions = [])) && size_imbalance
        then ["size_imbalance"] else []) in
  let tracker :=
    {| count := count tracker + 1;
       issues_first_detected := issues_first_detected tracker;
       last_detected := current_time;
       issues_history := issues_history tracker ++ [(current_time, current_issues)];
       positions_snapshot := exchange_positions |} in
  let time_since_first := (current_time - issues_first_detected tracker)%Z in
  if bool_decide (3 <= count tracker)%Z
     && bool_decide (min_detection_interval <= time_since_first)%Z
  then (true, set_position_issues_tracker self (delete pair_id trackers))
  else (false, set_position_issues_tracker self (<[pair_id := tracker]> trackers)).

End Engine.

(** ** Orders and hedge positions ([src/models.py], continued) *)

Record OrderInfo := {
  oi_id : string;
  oi_account_index : Z;
  oi_market_index : Z;
  oi_order_type : string;
  oi_side : string;            (* "buy" or "sell" *)
  oi_amount : Q;
  oi_price : option Q;
  oi_status : OrderStatus;
  oi_filled_amount : Q;
  oi_filled_price : option Q;
  oi_market_order : bool       (* metadata.get('market_order', False) *)
}.

(** A value of [HedgePosition.metadata], a [Dict[str, Any]].  A value the
    code stores as [float] is kept as the decimal it was converted from. *)
Inductive MetaValue :=
| MetaNone
| MetaBool (b : bool)
| MetaInt (n : Z)
| MetaNum (q : Q)
| MetaStr (s : string)
| MetaInts (l : list Z)
| MetaNums (l : list Q).

Record HedgePosition := {
  hp_id : string;
  hp_pair_id : string;
  hp_status : PositionStatus;
  hp_positions : list Position;
  hp_total_pnl : Q;
  hp_created_at : Z;
  hp_updated_at : Z;
  hp_closed_at : option Z;
  hp_metadata : gmap string MetaValue
}.

Definition set_status (hp : HedgePosition) (status : PositionStatus) : HedgePosition :=
  {| hp_id := hp_id hp; hp_pair_id := hp_pair_id hp; hp_status := status;
     hp_positions := hp_positions hp; hp_total_pnl := hp_total_pnl hp;
     hp_created_at := hp_created_at hp; hp_updated_at := hp_updated_at hp;
     hp_closed_at := hp_closed_at hp; hp_metadata := hp_metadata hp |}.

Definition set_updated_at (hp : HedgePosition) (now : Z) : HedgePosition :=
  {| hp_id := hp_id hp; hp_pair_id := hp_pair_id hp; hp_status := hp_status hp;
     hp_positions := hp_positions hp; hp_total_pnl := hp_total_pnl hp;
     hp_created_at := hp_created_at hp; hp_updated_at := now;
     hp_closed_at := hp_closed_at hp; hp_metadata := hp_metadata hp |}.

Definition set_closed_at (hp : HedgePosition) (now : Z) : HedgePosition :=
  {| hp_id := hp_id hp; hp_pair_id := hp_pair_id hp; hp_status := hp_status hp;
     hp_positions := hp_positions hp; hp_total_pnl := hp_total_pnl hp;
     hp_created_at := hp_created_at hp; hp_updated_at := hp_updated_at hp;
     hp_closed_at := Some now; hp_metadata := hp_metadata hp |}.

Definition set_positions (hp : HedgePosition) (positions : list Position) : HedgePosition :=
  {| hp_id := hp_id hp; hp_pair_id := hp_pair_id hp; hp_status := hp_status hp;
     hp_positions := positions; hp_total_pnl := hp_total_pnl hp;
     hp_created_at := hp_created_at hp; hp_updated_at := hp_updated_at hp;
     hp_closed_at := hp_closed_at hp; hp_metadata := hp_metadata hp |}.

Definition set_metadata (hp : HedgePosition) (metadata : gmap string MetaValue)
  : HedgePosition :=
  {| hp_id := hp_id hp; hp_pair_id := hp_pair_id hp; hp_status := hp_status hp;
     hp_positions := hp_positions hp; hp_total_pnl := hp_total_pnl hp;
     hp_created_at := hp_created_at hp; hp_updated_at := hp_updated_at hp;
     hp_closed_at := hp_closed_at hp; hp_metadata := metadata |}.

(** ** Insertion-ordered dictionaries with integer keys

    [dict] keeps its keys in insertion order and an assignment to a key
    already present keeps the key where it is; the order decides which leg
    task is submitted first. *)

Module ODict.

Definition t (A : Type) := list (Z * A).

Fixpoint get {A} (d : t A) (k : Z) : option A :=
  match d with
  | [] => None
  | (k', v) :: rest => if Z.eqb k' k then Some v else get rest k
  end.

Fixpoint set {A} (d : t A) (k : Z) (v : A) : t A :=
  match d with
  | [] => [(k, v)]
  | (k', v') :: rest => if Z.eqb k' k then (k, v) :: rest else (k', v') :: set rest k v
  end.

Definition values {A} (d : t A) : list A := d.*2.

Definition items {A} (d : t A) : list (Z * A) := d.

End ODict.

(** ** Balanced hedge strategy ([src/strategies/balanced_hedge_strategy.py]) *)

Module Strategy.

Local Open Scope Q_scope.

(** The answer of a collaborator that may raise. *)
Inductive CallResult (A : Type) :=
| Raised
| Returned (a : A).
Arguments Raised {A}.
Arguments Returned {A} a.

(** *** Stop distance and protective orders *)

(** [safe_max_distance_percent]: 80% of the move that loses half the
    margin, or 5% without leverage. *)
Definition safe_max_distance_percent (leverage : Z) : Q :=
  if (1 <? leverage)%Z then
    let max_loss_percent := 0.5 in
    let max_stop_distance_percent := max_loss_percent / inject_Z leverage in
    let safety_factor := 0.8 in
    max_stop_distance_percent * safety_factor
  else 0.05.

(** [stop_loss_take_profit_percent] as chosen from the configuration.
    A string that [Decimal] rejects raises [decimal.InvalidOperation],
    which is neither [ValueError] nor [TypeError]: the inner handler does
    not catch it and the whole routine gives up ([None]). *)
Definition stop_loss_take_profit_percent (leverage : Z)
    (stop_take_distance : StopTakeDistance) : option Q :=
  let safe := safe_max_distance_percent leverage in
  match stop_take_distance with
  | DistanceAuto => Some safe
  | DistanceNumber percent =>
      let manual_percent := percent / 100 in
      Some (if Dec.gt manual_percent safe then safe else manual_percent)
  | DistanceOtherString _ => None
  end.

(** The distance after its trip through whole basis points:
    [Decimal(int(percent * 10000)) / 10000]. *)
Definition price_distance_percent (percent : Q) : Q :=
  let adjusted_stop_loss_bps := Dec.to_int (percent * 10000) in
  Dec.of_int adjusted_stop_loss_bps / 10000.

(** One entry of the [positions] argument of
    [_create_hedge_stop_loss_take_profit_orders]. *)
Record SlTpPosition := {
  sp_account_index : Z;
  sp_side : string;             (* "buy" for a long leg, "sell" for a short leg *)
  sp_amount : Q;
  sp_entry_price : Q
}.

Inductive ProtectiveKind := StopLoss | TakeProfit.

(** A call of [create_stop_loss_order] or [create_take_profit_order]. *)
Record ProtectiveOrder := {
  po_kind : ProtectiveKind;
  po_account_index : Z;
  po_market_index : Z;
  po_side : string;
  po_amount : Q;
  po_trigger_price : Q;
  po_order_type : string
}.

Definition is_long (pos : SlTpPosition) : bool :=
  String.eqb (Config.lower (sp_side pos)) "buy".

(** The two orders of one leg, stop-loss first. *)
Definition leg_protective_orders (market_index : Z)
    (hedge_lower_price hedge_upper_price : Q) (pos : SlTpPosition)
  : list ProtectiveOrder :=
  let '(sl_trigger_price, tp_trigger_price, sl_side, tp_side) :=
    if is_long pos
    then (hedge_lower_price, hedge_upper_price, "sell", "sell")
    else (hedge_upper_price, hedge_lower_price, "buy", "buy") in
  [ {| po_kind := StopLoss; po_account_index := sp_account_index pos;
       po_market_index := market_index; po_side := sl_side;
       po_amount := sp_amount pos; po_trigger_price := sl_trigger_price;
       po_order_type := "limit" |};
    {| po_kind := TakeProfit; po_account_index := sp_account_index pos;
       po_market_index := market_index; po_side := tp_side;
       po_amount := sp_amount pos; po_trigger_price := tp_trigger_price;
       po_order_type := "limit" |} ].

(** What the routine has fixed before it loops over the legs: the shared
    basis price and the shared distance. *)
Record SlTpPlan := {
  plan_avg_entry_price : Q;
  plan_price_distance_percent : Q
}.

Definition hedge_lower_price (plan : SlTpPlan) : Q :=
  plan_avg_entry_price plan * (1 - plan_price_distance_percent plan).

Definition hedge_upper_price (plan : SlTpPlan) : Q :=
  plan_avg_entry_price plan * (1 + plan_price_distance_percent plan).

(** [None]: the routine returns (or gives up) before any order. *)
Definition sl_tp_plan (cm : ConfigManager) (positions : list SlTpPosition)
    (market_index : Z) : option SlTpPlan :=
  pairs ← Config.get_active_pairs cm;
  pair_config ← List.find (fun p => Z.eqb (pc_market_index p) market_index) pairs;
  percent ← stop_loss_take_profit_percent (pc_leverage pair_config)
              (pc_stop_take_distance pair_config);
  if bool_decide (positions = []) then None
  else
    let total_position_value :=
      Dec.sum (map (fun pos => sp_amount pos * sp_entry_price pos) positions) in
    let total_amount := Dec.sum (map sp_amount positions) in
    if Dec.eq total_amount 0 then None
    else
      Some {| plan_avg_entry_price := total_position_value / total_amount;
              plan_price_distance_percent := price_distance_percent percent |}.

(** [_create_hedge_stop_loss_take_profit_orders]: the calls made to the
    order manager, in order.  A call that fails is logged and the loop
    goes on. *)
Definition _create_hedge_stop_loss_take_profit_orders (cm : ConfigManager)
    (positions : list SlTpPosition) (market_index : Z) : list ProtectiveOrder :=
  match sl_tp_plan cm positions market_index with
  | None => []
  | Some plan =>
      concat (map (leg_protective_orders market_index
                     (hedge_lower_price plan) (hedge_upper_price plan))
                  positions)
  end.

(** *** Reference price *)

(** Where [_get_unified_execution_price] can read a price from. *)
Record PriceSources := {
  has_websocket_manager : bool;
  ws_market_data : option MarketData;
  ws_orderbook : option OrderBook;
  cached_orderbook : option OrderBook;
  cached_market_data : option MarketData;
  api_market_data : option MarketData;    (* order_manager.get_market_data *)
  api_orderbook : option OrderBook        (* order_manager.get_orderbook *)
}.

Definition max_spread_for_entry : Q := 0.005.

(** [PriceConditions.max_spread_percent] as a pair has it when its
    configuration names none. *)
Definition max_spread_percent_default : Q := 0.01.
Definition price_buffer : Q := 0.02.

(** [(ask - bid) / market_data.price] on the best levels. *)
Definition spread_percent (market_data : MarketData) (bid_price ask_price : Q)
  : option Q :=
  Dec.div (ask_price - bid_price) (md_price market_data).

(** The part of [_get_unified_execution_price] that follows the choice of
    the data source.  The outer [option] is the returned [Optional]; an
    exception is caught by the routine and also gives [None]. *)
Definition price_from_sources (market_data : MarketData) (orderbook : option OrderBook)
  : option Q :=
  match orderbook with
  | None => Some (md_price market_data)
  | Some book =>
      match ob_bids book, ob_asks book with
      | bid :: _, ask :: _ =>
          bid_price ← bid !! "price";
          ask_price ← ask !! "price";
          spread ← spread_percent market_data bid_price ask_price;
          if Dec.gt spread max_spread_for_entry then None
          else
            let market_price := md_price market_data in
            bid_gap ← Dec.div (Qabs (bid_price - market_price)) market_price;
            ask_gap ← Dec.div (Qabs (ask_price - market_price)) market_price;
            Some (if Dec.gt bid_gap price_buffer || Dec.gt ask_gap price_buffer
                  then market_price
                  else (bid_price + ask_price) / 2)
      | _, _ => Some (md_price market_data)
      end
  end.

(** The data the routine settles on: websocket data, else the strategy's
    own cache, else a request through the order manager. *)
Inductive SourceChoice :=
| UseBook (market_data : MarketData) (orderbook : option OrderBook)
| UsePriceOnly (market_data : MarketData)
| NoMarketData.

Definition select_source (src : PriceSources) : SourceChoice :=
  let ws_market_data := if has_websocket_manager src then ws_market_data src else None in
  let ws_orderbook := if has_websocket_manager src then ws_orderbook src else None in
  match ws_market_data, ws_orderbook with
  | Some market_data, Some orderbook => UseBook market_data (Some orderbook)
  | Some market_data, None => UsePriceOnly market_data
  | None, _ =>
      match cached_orderbook src, cached_market_data src with
      | Some orderbook, Some market_data => UseBook market_data (Some orderbook)
      | _, _ =>
          match api_market_data src with
          | None => NoMarketData
          | Some market_data => UseBook market_data (api_orderbook src)
          end
      end
  end.

Definition _get_unified_execution_price (src : PriceSources) : option Q :=
  match select_source src with
  | UseBook market_data orderbook => price_from_sources market_data orderbook
  | UsePriceOnly market_data => Some (md_price market_data)
  | NoMarketData => None
  end.

(** *** Dual-leg open *)

(** A call that leaves the process: an order sent to the order manager or
    a cancellation. *)
Inductive Effect :=
| SubmitMarketOrder (account_index market_index : Z) (side : string) (amount : Q)
| SubmitLimitOrder (account_index market_index : Z) (side : string) (amount price : Q)
| CancelOrder (order_id : string)
| SubmitProtectiveOrder (order : ProtectiveOrder).

(** The strategy object.  [HedgePosition]s are mutable objects shared with
    the engine: they live in [objects] and [active_positions] holds
    references.  [_direction_cache] exists only after the first rotation. *)
Record BalancedHedgeStrategy := {
  objects : gmap nat HedgePosition;
  active_positions : gmap string nat;
  _direction_cache : option (gmap string (ODict.t (string * string)));
  config_manager : ConfigManager;
  has_client_factory : bool
}.

Definition set_objects (self : BalancedHedgeStrategy) (m : gmap nat HedgePosition)
  : BalancedHedgeStrategy :=
  {| objects := m; active_positions := active_positions self;
     _direction_cache := _direction_cache self;
     config_manager := config_manager self;
     has_client_factory := has_client_factory self |}.

Definition set_active_positions (self : BalancedHedgeStrategy) (m : gmap string nat)
  : BalancedHedgeStrategy :=
  {| objects := objects self; active_positions := m;
     _direction_cache := _direction_cache self;
     config_manager := config_manager self;
     has_client_factory := has_client_factory self |}.

Definition set_direction_cache (self : BalancedHedgeStrategy)
    (m : gmap string (ODict.t (string * string))) : BalancedHedgeStrategy :=
  {| objects := objects self; active_positions := active_positions self;
     _direction_cache := Some m;
     config_manager := config_manager self;
     has_client_factory := has_client_factory self |}.

(** A new object. *)
Definition alloc (self : BalancedHedgeStrategy) (hp : HedgePosition)
  : nat * BalancedHedgeStrategy :=
  let ref := fresh (dom (objects self)) in
  (ref, set_objects self (<[ref := hp]> (objects self))).

(** The object registered under an id. *)
Definition active_position (self : BalancedHedgeStrategy) (position_id : string)
  : option HedgePosition :=
  ref ← active_positions self !! position_id;
  objects self !! ref.

(** What the venue and the other services answer during one open.  The
    two clean-up results only change what is logged. *)
Record OpenEnv := {
  open_now : Z;
  open_cleanup_orders_success : bool;
  open_cleanup_positions_success : bool;
  open_account_manager : AccountManager;
  open_market_data : option MarketData;       (* get_market_data, for sizing *)
  open_price_sources : PriceSources;
  open_has_signer_clients : bool;
  open_create_market_order : Z -> Z -> string -> Q -> CallResult (option OrderInfo);
  open_gather_timeout : bool;                 (* the 15 s join timed out *)
  open_orders_filled : bool;                  (* verify_orders_by_position_changes *)
  open_refreshed_accounts : option AccountManager
    (* the account manager when the positions are re-read; None: the order
       manager has none and get_positions_for_account returns [] *)
}.

(** [order_manager.get_positions_for_account] *)
Definition get_positions_for_account (env : OpenEnv) (account_index : Z)
  : list Position :=
  match open_refreshed_accounts env with
  | Some am => Accounts.get_account_positions am account_index
  | None => []
  end.

(** [_get_account_balances]: the total balance of each account
    ([get_account_balance]), 0 for an account the manager does not know. *)
Definition balance_or_zero (am : AccountManager) (account_index : Z) : Q :=
  let balance := Accounts.get_account_balance am account_index in
  if Dec.truthy balance then balance else 0.

Definition _get_account_balances (am : AccountManager) (accounts : list Z) : ODict.t Q :=
  foldl (fun balances account_index =>
           ODict.set balances account_index (balance_or_zero am account_index))
        [] accounts.

(** The leverage in effect: a configured value below 1 is replaced by 1. *)
Definition effective_leverage (pair_config : TradingPairConfig) : Z :=
  if (pc_leverage pair_config <? 1)%Z then 1%Z else pc_leverage pair_config.

Record Sizing := {
  sz_leverage : Z;
  sz_min_balance : Q;
  sz_max_safe_margin_per_account : Q;
  sz_margin_per_account : Q;
  sz_actual_position_per_account : Q
}.

(** Lines 134 to 181 of [execute_hedge_open], from the balances read. *)
Definition sizing_of (account_balances : ODict.t Q) (pair_config : TradingPairConfig)
  : Sizing :=
  let leverage := effective_leverage pair_config in
  let min_balance := default 0 (Dec.min_list (ODict.values account_balances)) in
  let min_balance_required := rl_min_balance (pc_risk_limits pair_config) in
  let max_safe_margin_per_account := Dec.max 0 (min_balance - min_balance_required) in
  {| sz_leverage := leverage;
     sz_min_balance := min_balance;
     sz_max_safe_margin_per_account := max_safe_margin_per_account;
     sz_margin_per_account := max_safe_margin_per_account;
     sz_actual_position_per_account :=
       if (1 <? leverage)%Z
       then max_safe_margin_per_account * inject_Z leverage
       else max_safe_margin_per_account |}.

Definition open_sizing (env : OpenEnv) (pair_config : TradingPairConfig)
    (accounts : list Z) : Sizing :=
  sizing_of (_get_account_balances (open_account_manager env) accounts) pair_config.

(** [amount_per_account]; [None] when the division raises. *)
Definition amount_per_account (sizing : Sizing) (current_price : Q) : option Q :=
  Dec.div (sz_actual_position_per_account sizing) current_price.

(** [_get_rotated_direction_assignments] *)
Definition default_assignments (accounts : list Z) : ODict.t (string * string) :=
  foldl (fun d '(i, account) =>
           ODict.set d account
             (if Nat.even i then ("buy", "long") else ("sell", "short")))
        [] (imap (fun i account => (i, account)) accounts).

Definition rotate (last_assignments : ODict.t (string * string)) (account_index : Z)
  : string * string :=
  let last_side := (default ("buy", "long") (ODict.get last_assignments account_index)).1 in
  if String.eqb last_side "buy" then ("sell", "short") else ("buy", "long").

Definition sides_of (assignments : ODict.t (string * string)) : list string :=
  (ODict.values assignments).*1.

Definition has_side (side : string) (sides : list string) : bool :=
  existsb (String.eqb side) sides.

Definition _get_rotated_direction_assignments (self : BalancedHedgeStrategy)
    (accounts : list Z) (pair_id : string)
  : ODict.t (string * string) * BalancedHedgeStrategy :=
  let cache_key := "direction_history_" +:+ pair_id in
  let cache := default ∅ (_direction_cache self) in
  let last_assignments := default [] (cache !! cache_key) in
  if bool_decide (length accounts < 2)%nat then (default_assignments accounts, self)
  else
    let new_assignments :=
      foldl (fun d account_index =>
               ODict.set d account_index (rotate last_assignments account_index))
            [] accounts in
    let sides := sides_of new_assignments in
    let new_assignments :=
      if negb (has_side "buy" sides) || negb (has_side "sell" sides) then
        match accounts with
        | first :: second :: others =>
            let d := ODict.set new_assignments first ("buy", "long") in
            let d := ODict.set d second ("sell", "short") in
            foldl (fun d '(i, account) =>
                     ODict.set d account
                       (if Nat.even (i + 2) then ("buy", "long") else ("sell", "short")))
                  d (imap (fun i account => (i, account)) others)
        | _ => new_assignments
        end
      else new_assignments in
    (new_assignments,
     set_direction_cache self (<[cache_key := new_assignments]> cache)).

(** [_create_precise_hedge_order]: the answer of the task and the order it
    sent, if it got that far. *)
Definition _create_precise_hedge_order (env : OpenEnv)
    (account_index market_index : Z) (side : string) (amount : Q)
  : CallResult (option OrderInfo) * list Effect :=
  if negb (open_has_signer_clients env) then (Raised, [])
  else
    (match open_create_market_order env account_index market_index side amount with
     | Raised => Raised
     | Returned None => Returned None
     | Returned (Some order) =>
         Returned (Some {| oi_id := oi_id order;
                           oi_account_index := oi_account_index order;
                           oi_market_index := oi_market_index order;
                           oi_order_type := oi_order_type order;
                           oi_side := oi_side order;
                           oi_amount := oi_amount order;
                           oi_price := oi_price order;
                           oi_status := oi_status order;
                           oi_filled_amount := oi_filled_amount order;
                           oi_filled_price := oi_filled_price order;
                           oi_market_order := true |})
     end,
     [SubmitMarketOrder account_index market_index side amount]).

(** [_execute_synchronized_orders]: the answers in task order, or one
    exception per task when the join times out. *)
Definition _execute_synchronized_orders {A} (timed_out : bool)
    (answers : list (CallResult A)) : list (CallResult A) :=
  if timed_out then map (fun _ => Raised) answers else answers.

(** A market order the SDK reported as failed is taken as filled at its
    own price. *)
Definition assume_filled (order : OrderInfo) : OrderInfo :=
  if bool_decide (oi_status order = ORDER_FAILED) && oi_market_order order then
    {| oi_id := oi_id order;
       oi_account_index := oi_account_index order;
       oi_market_index := oi_market_index order;
       oi_order_type := oi_order_type order;
       oi_side := oi_side order;
       oi_amount := oi_amount order;
       oi_price := oi_price order;
       oi_status := ORDER_FILLED;
       oi_filled_amount := oi_amount order;
       oi_filled_price := oi_price order;
       oi_market_order := oi_market_order order |}
  else order.

(** The loop over [enumerate(results)]: the orders that count as
    successful and the accounts that count as failed. *)
Fixpoint classify_results (results : list (CallResult (option OrderInfo)))
    (accounts : list Z) (i : nat) : list OrderInfo * list Z :=
  match results with
  | [] => ([], [])
  | result :: rest =>
      let '(successful_orders, failed_orders) := classify_results rest accounts (S i) in
      match result with
      | Returned (Some order) => (assume_filled order :: successful_orders, failed_orders)
      | _ => (successful_orders, default 0%Z (accounts !! i) :: failed_orders)
      end
  end.

(** [_validate_hedge_consistency].  The two [float] comparisons are taken
    on the decimals themselves. *)
Definition _validate_hedge_consistency (orders : list OrderInfo)
    (expected_amount expected_price : Q) : bool :=
  if negb (bool_decide (length orders = 2%nat)) then false
  else if negb (forallb (fun order =>
                          Dec.lt (Qabs (oi_amount order - expected_amount)) 0.001)
                        orders) then false
  else
    let prices_ok :=
      if forallb oi_market_order orders then
        match mapM oi_price orders with
        | None => false                          (* a price is None: TypeError *)
        | Some prices =>
            let avg_price := Dec.sum prices / inject_Z (Z.of_nat (length prices)) in
            negb (Dec.eq avg_price 0)            (* a zero average: the division raises *)
        end
      else
        match mapM oi_price orders with
        | None => false
        | Some prices =>
            forallb (fun price => Dec.lt (Qabs (price - expected_price)) 0.01) prices
        end in
    if negb prices_ok then false
    else
      let sides := map oi_side orders in
      if negb (has_side "buy" sides && has_side "sell" sides
               && bool_decide (length (remove_dups sides) = 2%nat)) then false
      else bool_decide (length (remove_dups (map oi_market_index orders)) = 1%nat).

(** [getattr(order, 'filled_price', None) or order.price or trigger_price] *)
Definition actual_entry_price (trigger_price : Q) (order : OrderInfo) : Q :=
  match oi_filled_price order with
  | Some p => if Dec.truthy p then p
              else match oi_price order with
                   | Some q => if Dec.truthy q then q else trigger_price
                   | None => trigger_price
                   end
  | None => match oi_price order with
            | Some q => if Dec.truthy q then q else trigger_price
            | None => trigger_price
            end
  end.

(** [needle in haystack] *)
Fixpoint contains (needle haystack : string) : bool :=
  String.prefix needle haystack
  || match haystack with
     | EmptyString => false
     | String _ rest => contains needle rest
     end.

Definition _infer_market_type_from_pair (pair_config : TradingPairConfig) : string :=
  let name_lower := Config.lower (pc_name pair_config) in
  let id_lower := Config.lower (pc_id pair_config) in
  if contains "btc" name_lower || contains "btc" id_lower || contains "bitcoin" name_lower
  then "BTC"
  else if contains "eth" name_lower || contains "eth" id_lower
          || contains "ethereum" name_lower
  then "ETH"
  else if contains "sol" name_lower || contains "sol" id_lower
          || contains "solana" name_lower
  then "SOL"
  else "BTC".

(** The maintenance margin requirement of
    [LeverageConfig.from_market_type] for the three inferred types. *)
Definition maintenance_margin_requirement (market_type : string) : Q :=
  if String.eqb market_type "SOL" then 0.0399 else 0.012.

Definition _calculate_liquidation_price (side : string) (entry_price mmr : Q) : Q :=
  if String.eqb side "long" then entry_price * (1 - mmr) else entry_price * (1 + mmr).

(** The [Position] recorded for a filled order. *)
Definition position_of_order (pair_config : TradingPairConfig) (sizing : Sizing)
    (trigger_price : Q) (order : OrderInfo) : Position :=
  let entry := actual_entry_price trigger_price order in
  let filled_amount :=
    if Dec.eq (oi_filled_amount order) 0 then oi_amount order
    else oi_filled_amount order in
  let position_side := if String.eqb (oi_side order) "buy" then "long" else "short" in
  {| pos_id := "pos_" +:+ oi_id order;
     pos_account_index := oi_account_index order;
     pos_market_index := oi_market_index order;
     pos_side := position_side;
     pos_size := filled_amount;
     pos_entry_price := entry;
     pos_current_price := Some entry;
     pos_leverage := sz_leverage sizing;
     pos_margin_used := sz_margin_per_account sizing;
     pos_liquidation_price :=
       if (1 <? sz_leverage sizing)%Z
       then Some (_calculate_liquidation_price position_side entry
                    (maintenance_margin_requirement
                       (_infer_market_type_from_pair pair_config)))
       else None |}.

Definition strict_tolerance : Q := 0.02.

(** [price_diff] of the post-fill check: the spread of the entry prices
    relative to the lowest one. *)
Definition price_diff (entry_prices : list Q) : Q :=
  match Dec.max_list entry_prices, Dec.min_list entry_prices with
  | Some max_entry, Some min_entry =>
      if bool_decide (2 <= length entry_prices)%nat && Dec.gt min_entry 0
      then (max_entry - min_entry) / min_entry
      else 0
  | _, _ => 0
  end.

(** What [execute_hedge_open] leaves behind: the returned object (by
    reference; [None] is Python's [None]), the strategy, and the calls
    made after the clean-slate step, in order. *)
Record OpenOutcome := {
  out_result : option nat;
  out_strategy : BalancedHedgeStrategy;
  out_effects : list Effect
}.

(** The [HedgePosition] the call returned. *)
Definition returned_position (out : OpenOutcome) : option HedgePosition :=
  ref ← out_result out;
  objects (out_strategy out) !! ref.

(** [f"hedge_{pair_config.id}_{int(datetime.now().timestamp())}"] *)
Definition position_id_of (pair_config : TradingPairConfig) (now : Z) : string :=
  "hedge_" +:+ pc_id pair_config +:+ "_" +:+ pretty (now / 1000000)%Z.

Definition new_hedge_position (pair_config : TradingPairConfig) (accounts : list Z)
    (trigger_price : Q) (now : Z) : HedgePosition :=
  {| hp_id := position_id_of pair_config now;
     hp_pair_id := pc_id pair_config;
     hp_status := OPENING;
     hp_positions := [];
     hp_total_pnl := 0;
     hp_created_at := now;
     hp_updated_at := now;
     hp_closed_at := None;
     hp_metadata :=
       <["strategy_type" := MetaStr "balanced_hedge"]>
         (<["accounts" := MetaInts accounts]>
            (<["trigger_price" := MetaNum trigger_price]> ∅)) |}.

(** [unified_price] with its fallback: when the reference-price routine
    returns nothing, the price read for sizing is used. *)
Definition unified_price_or_current (src : PriceSources) (current_price : Q) : Q :=
  match _get_unified_execution_price src with
  | Some unified_price => if Dec.truthy unified_price then unified_price else current_price
  | None => current_price
  end.

(** The metadata written once the legs count as filled (without the keys
    that hold the leverage configuration and a formatted date). *)
Definition filled_metadata (metadata : gmap string MetaValue) (sizing : Sizing)
    (accounts : list Z) (trigger_price unified_price : Q) (entry_prices : list Q)
    (positions : list Position) (orders_filled : bool) : gmap string MetaValue :=
  let diff := price_diff entry_prices in
  let two := bool_decide (2 <= length entry_prices)%nat in
  let metadata :=
    if two && Dec.gt diff strict_tolerance then
      <["price_diff_percent" := MetaNum (diff * 100)]>
        (<["market_order_price_warning" := MetaBool true]> metadata)
    else metadata in
  let avg_entry_price :=
    if bool_decide (entry_prices = []) then trigger_price
    else Dec.sum entry_prices / inject_Z (Z.of_nat (length entry_prices)) in
  let margin := sz_margin_per_account sizing in
  <["validation_method" := MetaStr "position_change"]>
  (<["backend_validated" := MetaBool orders_filled]>
  (<["execution_method" := MetaStr "synchronized_limit_orders"]>
  (<["hedge_precision" := MetaStr "precise"]>
  (<["liquidation_prices" :=
       MetaNums (map (fun p => default 0 (pos_liquidation_price p)) positions)]>
  (<["margin_per_account" := MetaNum margin]>
  (<["total_margin_used" := MetaNum (margin * inject_Z (Z.of_nat (length accounts)))]>
  (<["target_leverage" := MetaInt (sz_leverage sizing)]>
  (<["actual_price_diff_percent" := if two then MetaNum (diff * 100) else MetaNone]>
  (<["strict_price_tolerance" := if two then MetaNum (strict_tolerance * 100) else MetaNone]>
  (<["price_consistency_verified" := MetaBool true]>
  (<["unified_price" := MetaNum unified_price]>
  (<["avg_entry_price" := MetaNum avg_entry_price]>
  (<["actual_entry_prices" := MetaNums entry_prices]> metadata))))))))))))).

(** The positions handed to the protective-order routine: the ones the
    account manager shows for the market, or else the ones just
    recorded; only those with a positive size. *)
Definition positions_for_sl_tp (env : OpenEnv) (pair_config : TradingPairConfig)
    (accounts : list Z) (positions : list Position) : list SlTpPosition :=
  let refreshed_positions :=
    concat (map (fun account_index =>
                   filter (fun pos =>
                             pos_market_index pos = pc_market_index pair_config
                             /\ Dec.gt (pos_size pos) 0 = true)
                          (get_positions_for_account env account_index))
                accounts) in
  let positions_to_use :=
    if bool_decide (refreshed_positions = []) then positions else refreshed_positions in
  map (fun position =>
         {| sp_account_index := pos_account_index position;
            sp_side := if String.eqb (pos_side position) "long" then "buy" else "sell";
            sp_amount := pos_size position;
            sp_entry_price := pos_entry_price position |})
      (filter (fun position => Dec.gt (pos_size position) 0 = true) positions_to_use).

(** The leg tasks: one market order per direction assignment, each for
    the same amount. *)
Definition leg_tasks (env : OpenEnv) (pair_config : TradingPairConfig)
    (direction_assignments : ODict.t (string * string)) (amount : Q)
  : list (CallResult (option OrderInfo) * list Effect) :=
  map (fun '(account_index, (side, role)) =>
         _create_precise_hedge_order env account_index
           (pc_market_index pair_config) side amount)
      (ODict.items direction_assignments).

Definition is_leg_order (e : Effect) : bool :=
  match e with
  | SubmitMarketOrder _ _ _ _ => true
  | _ => false
  end.

Definition is_cancel (e : Effect) : bool :=
  match e with
  | CancelOrder _ => true
  | _ => false
  end.

(** [execute_hedge_open] from the join of the leg tasks to its end: the
    answers are sorted, the consistency of the hedge is checked, a failure
    cancels and marks the position FAILED, and otherwise the legs are
    recorded, the fill prices compared and the protective orders
    created. *)
Definition settle_open (self : BalancedHedgeStrategy) (env : OpenEnv)
    (pair_config : TradingPairConfig) (accounts : list Z) (trigger_price : Q)
    (hedge_position : HedgePosition) (sizing : Sizing) (amount unified_price : Q)
    (tasks : list (CallResult (option OrderInfo) * list Effect)) : OpenOutcome :=
  let now := open_now env in
  let position_id := hp_id hedge_position in
  let submitted := concat tasks.*2 in
  let results := _execute_synchronized_orders (open_gather_timeout env) tasks.*1 in
  let '(successful_orders, failed_orders) := classify_results results accounts 0 in
  let inconsistent :=
    negb (bool_decide (successful_orders = []))
    && negb (_validate_hedge_consistency successful_orders amount unified_price) in
  let any_failed := negb (bool_decide (failed_orders = [])) || inconsistent in
  let successful_orders := if inconsistent then [] else successful_orders in
  if any_failed then
    let cancels := map (fun order => CancelOrder (oi_id order)) successful_orders in
    let '(ref, self) :=
      alloc self (set_updated_at (set_status hedge_position FAILED) now) in
    {| out_result := Some ref; out_strategy := self;
       out_effects := submitted ++ cancels |}
  else
    let filled_orders := successful_orders in
    let entry_prices := map (actual_entry_price trigger_price) filled_orders in
    let positions :=
      map (position_of_order pair_config sizing trigger_price) filled_orders in
    let metadata :=
      filled_metadata (hp_metadata hedge_position) sizing accounts trigger_price
        unified_price entry_prices positions (open_orders_filled env) in
    let hedge_position :=
      set_status
        (set_positions
           (set_metadata (set_updated_at hedge_position now) metadata) positions)
        ACTIVE in
    let '(ref, self) := alloc self hedge_position in
    let self :=
      set_active_positions self (<[position_id := ref]> (active_positions self)) in
    let for_sl_tp := positions_for_sl_tp env pair_config accounts positions in
    if bool_decide (for_sl_tp = []) then
      (* a bare [return] inside the protective-order step *)
      {| out_result := None; out_strategy := self; out_effects := submitted |}
    else
      let protective :=
        _create_hedge_stop_loss_take_profit_orders (config_manager self) for_sl_tp
          (pc_market_index pair_config) in
      {| out_result := Some ref; out_strategy := self;
         out_effects := submitted ++ map SubmitProtectiveOrder protective |}.

Definition execute_hedge_open (self : BalancedHedgeStrategy) (env : OpenEnv)
    (pair_config : TradingPairConfig) (accounts : list Z) (trigger_price : Q)
  : OpenOutcome :=
  if bool_decide (length accounts < 2)%nat then
    {| out_result := None; out_strategy := self; out_effects := [] |}
  else
    let now := open_now env in
    let position_id := position_id_of pair_config now in
    let hedge_position := new_hedge_position pair_config accounts trigger_price now in
    let sizing := open_sizing env pair_config accounts in
    match open_market_data env with
    | None =>
        let '(ref, self) := alloc self (set_status hedge_position FAILED) in
        {| out_result := Some ref; out_strategy := self; out_effects := [] |}
    | Some market_data =>
    let current_price := md_price market_data in
    match amount_per_account sizing current_price with
    | None =>
        (* the division raised: the outer handler *)
        {| out_result := None;
           out_strategy :=
             set_active_positions self (delete position_id (active_positions self));
           out_effects := [] |}
    | Some amount =>
    let unified_price :=
      unified_price_or_current (open_price_sources env) current_price in
    let '(direction_assignments, self) :=
      _get_rotated_direction_assignments self accounts (pc_id pair_config) in
    settle_open self env pair_config accounts trigger_price hedge_position sizing
      amount unified_price (leg_tasks env pair_config direction_assignments amount)
    end
    end.

(** *** Dual-leg close *)

(** What the venue answers during one close.  [close_account_api] is the
    account query of the verification step, per attempt and account: the
    positions of the account as (market index, size), or an exception. *)
Record CloseEnv := {
  close_now : Z;
  close_price_sources : PriceSources;
  close_create_limit_order :
    Z -> Z -> string -> Q -> Q -> CallResult (option OrderInfo);
  close_gather_timeout : bool;
  close_account_api : nat -> Z -> CallResult (list (option Z * Q))
}.

Definition update_object (self : BalancedHedgeStrategy) (ref : nat)
    (f : HedgePosition -> HedgePosition) : BalancedHedgeStrategy :=
  set_objects self (alter f ref (objects self)).

(** The verdict of the verification on one leg. *)
Inductive LegCheck :=
| LegStillOpen (api_size : Q)
| LegClosed
| LegError.

Definition dust_threshold : Q := 0.001.

Definition check_leg (env : CloseEnv) (retry : nat) (position : Position) : LegCheck :=
  match close_account_api env retry (pos_account_index position) with
  | Raised => LegError
  | Returned api_positions =>
      match List.find (fun api_pos =>
                         bool_decide (api_pos.1 = Some (pos_market_index position)))
                      api_positions with
      | Some market_position =>
          let api_size := Qabs market_position.2 in
          if Dec.gt api_size dust_threshold then LegStillOpen api_size else LegClosed
      | None => LegClosed
      end
  end.

Definition is_still_open (c : LegCheck) : bool :=
  match c with LegStillOpen _ => true | _ => false end.

Definition is_error (c : LegCheck) : bool :=
  match c with LegError => true | _ => false end.

(** One pass over the legs: ([api_verification_success], no leg still
    open).  Without a client factory the pass stops at the first leg. *)
Definition verification_attempt (env : CloseEnv) (has_factory : bool)
    (positions : list Position) (retry : nat) : bool * bool :=
  match positions with
  | [] => (true, true)
  | _ =>
      if negb has_factory then (false, true)
      else
        let checks := map (check_leg env retry) positions in
        (negb (existsb is_error checks), negb (existsb is_still_open checks))
  end.

Definition max_retries : nat := 3.

(** The retry loop; the result is [all_closed] as the loop leaves it. *)
Fixpoint verification_loop (env : CloseEnv) (has_factory : bool)
    (positions : list Position) (retry remaining : nat) : bool :=
  match remaining with
  | O => true
  | S remaining' =>
      let '(api_verification_success, all_closed) :=
        verification_attempt env has_factory positions retry in
      if api_verification_success && all_closed then true
      else
        match remaining' with
        | O => all_closed
        | S _ => verification_loop env has_factory positions (S retry) remaining'
        end
  end.

Definition mark_manual_intervention (hp : HedgePosition) : HedgePosition :=
  set_metadata hp
    (<["manual_intervention_required" := MetaBool true]> (hp_metadata hp)).

(** [_validate_position_closed_with_backend] *)
Definition _validate_position_closed_with_backend (self : BalancedHedgeStrategy)
    (env : CloseEnv) (hedge_position_id : string) : bool * BalancedHedgeStrategy :=
  match active_positions self !! hedge_position_id with
  | None => (true, self)
  | Some registered =>
      match objects self !! registered with
      | None => (true, self)
      | Some hedge_position =>
          let all_closed :=
            verification_loop env (has_client_factory self)
              (hp_positions hedge_position) 0 max_retries in
          if negb all_closed then
            (false, update_object self registered mark_manual_intervention)
          else
            (true,
             set_active_positions self (delete hedge_position_id (active_positions self)))
      end
  end.

Definition close_side (position : Position) : string :=
  if String.eqb (pos_side position) "long" then "sell" else "buy".

(** [_create_precise_close_order]: a limit order at the unified price for
    the amount it is given. *)
Definition _create_precise_close_order (env : CloseEnv)
    (account_index market_index : Z) (side : string) (amount price : Q)
  : CallResult (option OrderInfo) * list Effect :=
  (close_create_limit_order env account_index market_index side amount price,
   [SubmitLimitOrder account_index market_index side amount price]).

(** The close tasks of [execute_hedge_close], one per recorded leg. *)
Definition close_tasks (env : CloseEnv) (positions : list Position)
    (unified_close_price : Q) : list (CallResult (option OrderInfo) * list Effect) :=
  map (fun position =>
         _create_precise_close_order env (pos_account_index position)
           (pos_market_index position) (close_side position) (pos_size position)
           unified_close_price)
      positions.

(** The order that closes a leg at [price]: the opposite side, for the size
    recorded on the leg. *)
Definition close_order (price : Q) (position : Position) : Effect :=
  SubmitLimitOrder (pos_account_index position) (pos_market_index position)
    (close_side position) (pos_size position) price.

Definition is_success {A} (result : CallResult (option A)) : bool :=
  match result with
  | Returned (Some _) => true
  | _ => false
  end.

Record CloseOutcome := {
  close_result : bool;
  close_strategy : BalancedHedgeStrategy;
  close_effects : list Effect
}.

Definition closed_validated (now : Z) (hp : HedgePosition) : HedgePosition :=
  set_metadata (set_closed_at (set_status hp CLOSED) now)
    (<["close_validated" := MetaBool true]> (hp_metadata hp)).

Definition close_unverified (hp : HedgePosition) : HedgePosition :=
  set_metadata (set_status hp PENDING_CLOSE)
    (<["close_validated" := MetaBool false]> (hp_metadata hp)).

(** The answers of the close tasks after the join. *)
Definition close_results (env : CloseEnv) (positions : list Position)
    (unified_close_price : Q) : list (CallResult (option OrderInfo)) :=
  _execute_synchronized_orders (close_gather_timeout env)
    (close_tasks env positions unified_close_price).*1.

Definition successful_closes (results : list (CallResult (option OrderInfo))) : nat :=
  length (filter (fun r => is_success r = true) results).

Definition failed_closes (results : list (CallResult (option OrderInfo))) : nat :=
  length (filter (fun r => is_success r = false) results).

(** [execute_hedge_close] on the object [ref]. *)
Definition execute_hedge_close (self : BalancedHedgeStrategy) (env : CloseEnv)
    (ref : nat) : CloseOutcome :=
  match objects self !! ref with
  | None => {| close_result := false; close_strategy := self; close_effects := [] |}
  | Some hedge_position =>
  let now := close_now env in
  let self :=
    update_object self ref (fun hp => set_updated_at (set_status hp CLOSING) now) in
  let market_index :=
    match hp_positions hedge_position with
    | position :: _ => Some (pos_market_index position)
    | [] => None
    end in
  match market_index with
  | None => {| close_result := false; close_strategy := self; close_effects := [] |}
  | Some market_index =>
  if Z.eqb market_index 0 then
    {| close_result := false; close_strategy := self; close_effects := [] |}
  else
  match _get_unified_execution_price (close_price_sources env) with
  | None => {| close_result := false; close_strategy := self; close_effects := [] |}
  | Some unified_close_price =>
  if negb (Dec.truthy unified_close_price) then
    {| close_result := false; close_strategy := self; close_effects := [] |}
  else
    let tasks := close_tasks env (hp_positions hedge_position) unified_close_price in
    let submitted := concat tasks.*2 in
    let results := close_results env (hp_positions hedge_position) unified_close_price in
    if bool_decide (failed_closes results < successful_closes results)%nat then
      let '(close_validation, self) :=
        _validate_position_closed_with_backend self env (hp_id hedge_position) in
      let self :=
        update_object self ref
          (if close_validation then closed_validated now else close_unverified) in
      {| close_result := true; close_strategy := self; close_effects := submitted |}
    else
      {| close_result := false;
         close_strategy := update_object self ref (fun hp => set_status hp ACTIVE);
         close_effects := submitted |}
  end
  end
  end.

(** *** Monitoring of an open hedge *)

(** [LeverageConfig] ([src/models.py]). *)
Record LeverageConfig := {
  lc_max_leverage : Z;
  lc_initial_margin_requirement : Q;
  lc_maintenance_margin_requirement : Q;
  lc_close_out_margin_requirement : Q
}.

(** [unrealized_pnl] as [monitor_hedge_position] and
    [_calculate_margin_ratio] compute it. *)
Definition unrealized_pnl (position : Position) (current_price : Q) : Q :=
  if String.eqb (pos_side position) "long"
  then (current_price - pos_entry_price position) * pos_size position
  else (pos_entry_price position - current_price) * pos_size position.

Definition _calculate_margin_ratio (position : Position) (current_price : Q)
    (leverage_config : LeverageConfig) : Q :=
  if Dec.le (pos_margin_used position) 0 then 0
  else
    let position_value := pos_size position * current_price in
    let account_value := pos_margin_used position + unrealized_pnl position current_price in
    let required_maintenance_margin :=
      position_value * lc_maintenance_margin_requirement leverage_config in
    if Dec.gt required_maintenance_margin 0
    then account_value / required_maintenance_margin
    else 0.

Definition warning_threshold : Q := 1.2.

Definition _is_near_liquidation (position : Position) (current_price : Q)
    (leverage_config : LeverageConfig) : bool :=
  let margin_ratio := _calculate_margin_ratio position current_price leverage_config in
  Dec.lt margin_ratio warning_threshold && Dec.gt margin_ratio 1.

Definition set_current_price (position : Position) (current_price : Q) : Position :=
  {| pos_id := pos_id position;
     pos_account_index := pos_account_index position;
     pos_market_index := pos_market_index position;
     pos_side := pos_side position;
     pos_size := pos_size position;
     pos_entry_price := pos_entry_price position;
     pos_current_price := Some current_price;
     pos_leverage := pos_leverage position;
     pos_margin_used := pos_margin_used position;
     pos_liquidation_price := pos_liquidation_price position |}.

Definition set_total_pnl (hp : HedgePosition) (total_pnl : Q) : HedgePosition :=
  {| hp_id := hp_id hp; hp_pair_id := hp_pair_id hp; hp_status := hp_status hp;
     hp_positions := hp_positions hp; hp_total_pnl := total_pnl;
     hp_created_at := hp_created_at hp; hp_updated_at := hp_updated_at hp;
     hp_closed_at := hp_closed_at hp; hp_metadata := hp_metadata hp |}.

(** What the loop of [monitor_hedge_position] carries: the legs seen so
    far, the running total and whether a leg came near liquidation. *)
Record MonitorState := {
  mon_positions : list Position;
  mon_total_pnl : Q;
  mon_emergency : bool
}.

(** One turn of the loop.  The record of a leg keeps no [unrealized_pnl]
    and no [margin_ratio]; both are functions of the leg and its current
    price. *)
Definition monitor_leg (get_market_data : Z -> option MarketData)
    (leverage_config : option LeverageConfig) (st : MonitorState) (position : Position)
  : MonitorState :=
  match get_market_data (pos_market_index position) with
  | None =>
      {| mon_positions := mon_positions st ++ [position];
         mon_total_pnl := mon_total_pnl st;
         mon_emergency := mon_emergency st |}
  | Some market_data =>
      let current_price := md_price market_data in
      let position := set_current_price position current_price in
      let near :=
        match leverage_config with
        | Some leverage_config =>
            (1 <? pos_leverage position)%Z
            && _is_near_liquidation position current_price leverage_config
        | None => false
        end in
      {| mon_positions := mon_positions st ++ [position];
         mon_total_pnl := mon_total_pnl st + unrealized_pnl position current_price;
         mon_emergency := mon_emergency st || near |}
  end.

(** [monitor_hedge_position].  [leverage_config_data] is what
    [metadata.get('leverage_config')] holds. *)
Definition monitor_hedge_position (now : Z) (get_market_data : Z -> option MarketData)
    (leverage_config_data : option LeverageConfig) (hedge_position : HedgePosition)
  : HedgePosition :=
  if negb (bool_decide (hp_status hedge_position = ACTIVE)) then hedge_position
  else
    let leverage_config :=
      if String.eqb (hp_pair_id hedge_position) "" then None else leverage_config_data in
    let st :=
      foldl (monitor_leg get_market_data leverage_config)
            {| mon_positions := []; mon_total_pnl := 0; mon_emergency := false |}
            (hp_positions hedge_position) in
    let metadata :=
      if mon_emergency st then
        <["emergency_reason" := MetaStr "near_liquidation"]>
          (<["emergency_close_required" := MetaBool true]> (hp_metadata hedge_position))
      else hp_metadata hedge_position in
    set_updated_at
      (set_total_pnl
         (set_metadata (set_positions hedge_position (mon_positions st)) metadata)
         (mon_total_pnl st))
      now.

(** *** Exit decision *)

Definition price_tolerance : Q := 0.01.

(** [_verify_position_price_consistency] *)
Definition _verify_position_price_consistency (hedge_position : HedgePosition) : bool :=
  let positions := hp_positions hedge_position in
  if bool_decide (length positions < 2)%nat then false
  else
    let prices :=
      omap (fun position =>
              match pos_current_price position with
              | Some price => if Dec.truthy price then Some price else None
              | None => None
              end)
           positions in
    if bool_decide (length prices < 2)%nat then false
    else
      match Dec.max_list prices, Dec.min_list prices with
      | Some max_price, Some min_price =>
          let price_diff_percent :=
            if Dec.gt min_price 0 then (max_price - min_price) / min_price else 1 in
          Dec.le price_diff_percent price_tolerance
      | _, _ => false
      end.

(** [Decimal(str(metadata.get(key, 0)))]; [None] when the conversion
    raises.  A string stored under the key is taken to be one that
    [Decimal] rejects (the code stores numbers there). *)
Definition meta_decimal (metadata : gmap string MetaValue) (key : string) : option Q :=
  match metadata !! key with
  | None => Some 0
  | Some (MetaNum q) => Some q
  | Some (MetaInt n) => Some (inject_Z n)
  | Some _ => None
  end.

(** Truth value of [metadata.get(key)]. *)
Definition meta_truthy (metadata : gmap string MetaValue) (key : string) : bool :=
  match metadata !! key with
  | None | Some MetaNone => false
  | Some (MetaBool b) => b
  | Some (MetaInt n) => negb (n =? 0)%Z
  | Some (MetaNum q) => Dec.truthy q
  | Some (MetaStr s) => negb (String.eqb s "")
  | Some (MetaInts l) => negb (bool_decide (l = []))
  | Some (MetaNums l) => match l with [] => false | _ => true end
  end.

(** [max_stop_loss_percent]: a tenth divided by the leverage when the hedge
    is leveraged, a half otherwise.  [None]: the comparison or the
    division raises [TypeError] (no number under the key, or a [float]
    above 1). *)
Definition max_stop_loss_percent (metadata : gmap string MetaValue) : option Q :=
  match metadata !! "target_leverage" with
  | None => Some 0.5
  | Some (MetaInt leverage) =>
      Some (if (1 <? leverage)%Z then 0.1 / inject_Z leverage else 0.5)
  | Some (MetaBool _) => Some 0.5
  | Some (MetaNum leverage) => if Dec.gt leverage 1 then None else Some 0.5
  | Some _ => None
  end.

(** The entry price [should_close_position] measures the move from: the
    average fill price, or the trigger price when that one is not
    positive. *)
Definition exit_entry_price (metadata : gmap string MetaValue) : option Q :=
  avg_entry_price ← meta_decimal metadata "avg_entry_price";
  if Dec.le avg_entry_price 0 then meta_decimal metadata "trigger_price"
  else Some avg_entry_price.

(** [should_close_position]; the pair configuration it is handed is not
    read. *)
Definition should_close_position (hedge_position : HedgePosition)
    (pair_config : TradingPairConfig) : bool :=
  if negb (bool_decide (hp_status hedge_position = ACTIVE)) then false
  else if negb (_verify_position_price_consistency hedge_position) then false
  else
    let metadata := hp_metadata hedge_position in
    match meta_decimal metadata "total_margin_used" with
    | None => false
    | Some total_margin_used =>
        if Dec.le total_margin_used 0 then false
        else
          (* [pnl_percent = total_pnl / total_margin_used] is only logged *)
          match exit_entry_price metadata with
          | None => false
          | Some entry_price =>
              if Dec.le entry_price 0 then false
              else
                let current_price :=
                  match hp_positions hedge_position with
                  | position :: _ => pos_current_price position
                  | [] => None
                  end in
                match current_price with
                | None => false
                | Some current_price =>
                    if negb (Dec.truthy current_price) || Dec.le current_price 0 then false
                    else
                      let price_change_percent :=
                        Qabs (current_price - entry_price) / entry_price in
                      if meta_truthy metadata "emergency_close_required" then true
                      else
                        match max_stop_loss_percent metadata with
                        | None => false
                        | Some limit => Dec.gt price_change_percent limit
                        end
                end
          end
    end.

End Strategy.

(** ** The formulas of the design document

    Definitions written from the words of the design document, to be
    compared with what the code computes. *)

Module DesignDocument.

Local Open Scope Q_scope.

(** Sizing: [marginCapacity = max(0, availableBalance - minBalanceRequired)]
    and its minimum across the accounts. *)
Definition spec_margin_capacity (am : AccountManager) (min_balance_required : Q)
    (account_index : Z) : Q :=
  Qmax 0 (Accounts.get_available_balance am account_index - min_balance_required).

Definition spec_shared_margin (am : AccountManager) (min_balance_required : Q)
    (accounts : list Z) : option Q :=
  Dec.min_list (map (spec_margin_capacity am min_balance_required) accounts).

(** [notional = sharedMargin * leverage], with the configured leverage. *)
Definition spec_notional (am : AccountManager) (pair_config : TradingPairConfig)
    (accounts : list Z) : option Q :=
  margin ← spec_shared_margin am (rl_min_balance (pc_risk_limits pair_config)) accounts;
  Some (margin * inject_Z (pc_leverage pair_config)).

(** Close: the size a leg currently has on the venue, as the account
    query reports it for the leg's account and market (0 when the venue
    shows no position there). *)
Definition current_remote_size (env : Strategy.CloseEnv) (position : Position)
  : option Q :=
  match Strategy.close_account_api env 0 (pos_account_index position) with
  | Strategy.Raised => None
  | Strategy.Returned api_positions =>
      Some (default 0
              (snd <$> List.find
                         (fun api_pos =>
                            bool_decide (api_pos.1 = Some (pos_market_index position)))
                         api_positions))
  end.

End DesignDocument.

(** ** Order manager ([src/services/order_manager.py]) *)

Module Orders.

Local Open Scope Q_scope.

Import Strategy.

(** *** Rate limiter *)

(** [_api_call_interval]: two seconds. *)
Definition _api_call_interval : Z := Engine.seconds 2.

(** [_can_make_api_call] on the table [_last_api_call_time]. *)
Definition _can_make_api_call (_last_api_call_time : gmap string Z) (now : Z)
    (api_key : string) (force_first_call : bool) : bool * gmap string Z :=
  match _last_api_call_time !! api_key with
  | None =>
      if force_first_call
      then (true, <[api_key := now]> _last_api_call_time)
      else (true, <[api_key := now]> _last_api_call_time)
  | Some last_call =>
      let time_since_last := (now - last_call)%Z in
      if bool_decide (_api_call_interval <= time_since_last)%Z
      then (true, <[api_key := now]> _last_api_call_time)
      else (false, _last_api_call_time)
  end.

(** The answers to a series of calls for one key, made at the given
    times. *)
Fixpoint api_calls (_last_api_call_time : gmap string Z) (api_key : string)
    (times : list Z) : list bool :=
  match times with
  | [] => []
  | now :: rest =>
      let '(allowed, table) := _can_make_api_call _last_api_call_time now api_key false in
      allowed :: api_calls table api_key rest
  end.

(** *** Market precision *)

(** [(price_decimals, size_decimals, price_multiplier, size_multiplier)] *)
Record Precision := {
  price_decimals : Z;
  size_decimals : Z;
  price_multiplier : Z;
  size_multiplier : Z
}.

Definition precision (pd sd pm sm : Z) : Precision :=
  {| price_decimals := pd; size_decimals := sd;
     price_multiplier := pm; size_multiplier := sm |}.

#[global] Instance Precision_eq_dec : EqDecision Precision.
Proof. solve_decision. Defined.

(** The multipliers are the powers of ten of the decimal counts. *)
Definition precision_coherent (p : Precision) : Prop :=
  (0 <= price_decimals p)%Z /\ (0 <= size_decimals p)%Z /\
  price_multiplier p = (10 ^ price_decimals p)%Z /\
  size_multiplier p = (10 ^ size_decimals p)%Z.

Definition default_precision : Precision := precision 2 4 100 10000.
Definition btc_precision : Precision := precision 1 5 10 100000.

Definition _get_precision_by_market_index (market_index : Z) : Precision :=
  if (market_index =? 1)%Z then precision 1 5 10 100000
  else if (market_index =? 2)%Z then precision 3 3 1000 1000
  else if (market_index =? 3)%Z then precision 6 0 1000000 1
  else if (market_index =? 4)%Z then precision 6 0 1000000 1
  else if (market_index =? 5)%Z then precision 5 1 100000 10
  else default_precision.

Definition _infer_precision_from_pair_name (pair_name pair_id : string) : Precision :=
  let name_lower := Config.lower pair_name in
  let id_lower := Config.lower pair_id in
  if contains "btc" name_lower || contains "btc" id_lower || contains "bitcoin" name_lower
  then precision 1 5 10 100000
  else if contains "eth" name_lower || contains "eth" id_lower
          || contains "ethereum" name_lower
  then precision 2 4 100 10000
  else if contains "sol" name_lower || contains "sol" id_lower
          || contains "solana" name_lower
  then precision 3 3 1000 1000
  else if contains "doge" name_lower || contains "doge" id_lower
  then precision 6 0 1000000 1
  else if contains "pepe" name_lower || contains "pepe" id_lower
  then precision 6 0 1000000 1
  else if contains "wif" name_lower || contains "wif" id_lower
  then precision 5 1 100000 10
  else if contains "usdc" name_lower || contains "usdc" id_lower
  then precision 4 2 10000 100
  else if contains "usdt" name_lower || contains "usdt" id_lower
  then precision 4 2 10000 100
  else precision 2 4 100 10000.

(** What the venue answers to [order_book_details]: the two decimal
    counts of the market (each 1 and 5 when the attribute is missing), no
    market information, or an exception. *)
Record PrecisionSource := {
  has_order_api : bool;
  order_book_details : Z -> CallResult (option (Z * Z))
}.

(** [_get_market_precision]: the precision and the cache afterwards. *)
Definition _get_market_precision (cm : ConfigManager) (src : PrecisionSource)
    (_market_precision_cache : gmap Z Precision) (market_index : Z)
  : Precision * gmap Z Precision :=
  let cache := _market_precision_cache in
  match cache !! market_index with
  | Some cached => (cached, cache)
  | None =>
      let from_api :=
        if has_order_api src then
          match order_book_details src market_index with
          | Returned (Some (price_decimals, size_decimals)) =>
              Some (precision price_decimals size_decimals
                      (10 ^ price_decimals) (10 ^ size_decimals))
          | _ => None
          end
        else None in
      match from_api with
      | Some p => (p, <[market_index := p]> cache)
      | None =>
          let p := _get_precision_by_market_index market_index in
          if negb (bool_decide (p = default_precision)) then
            (p, <[market_index := p]> cache)
          else
            match Config.get_trading_pairs cm with
            | None => (btc_precision, cache)        (* the getter raised *)
            | Some trading_pairs =>
                match List.find (fun tp => Z.eqb (pc_market_index tp) market_index)
                                trading_pairs with
                | Some tp =>
                    let p := _infer_precision_from_pair_name (pc_name tp) (pc_id tp) in
                    (p, <[market_index := p]> cache)
                | None => (btc_precision, <[market_index := btc_precision]> cache)
                end
            end
      end
  end.

(** [int(amount * size_multiplier)] and [int(price * price_multiplier)]:
    the integers handed to the SDK. *)
Definition base_amount_of (p : Precision) (amount : Q) : Z :=
  Dec.to_int (amount * inject_Z (size_multiplier p)).

Definition price_int_of (p : Precision) (price : Q) : Z :=
  Dec.to_int (price * inject_Z (price_multiplier p)).

(** *** Market orders *)

Definition default_slippage : Q := 0.005.

(** [a or b] on an optional decimal. *)
Definition or_else (a : option Q) (b : Q) : Q :=
  match a with
  | Some x => if Dec.truthy x then x else b
  | None => b
  end.

(** [max_price] of [create_market_order]: the worst price the order
    accepts. *)
Definition max_price (market_data : MarketData) (side : string)
    (max_slippage : option Q) : Q :=
  let slippage := or_else max_slippage default_slippage in
  if String.eqb side "buy" then
    let execution_price := or_else (md_ask_price market_data) (md_price market_data) in
    execution_price * (1 + slippage)
  else
    let execution_price := or_else (md_bid_price market_data) (md_price market_data) in
    execution_price * (1 - slippage).

(** What [create_market_order] meets: the accounts that have a signer
    client, the market data it reads and whether the SDK call and the
    reading of its result go through. *)
Record MarketOrderEnv := {
  mo_now : Z;
  signer_clients : gset Z;
  mo_market_data : Z -> option MarketData;
  mo_sdk_ok : Z -> Z -> string -> Z -> Z -> bool
    (* account, market, side, base amount, price: the SDK accepted the order *)
}.

Definition has_signer_clients (env : MarketOrderEnv) : bool :=
  negb (bool_decide (signer_clients env = ∅)).

(** [int(datetime.now().timestamp() * 1000)] *)
Definition millis (now : Z) : Z := (now / 1000)%Z.

(** [create_market_order].  [None]: a precondition failed and the outer
    handler returned nothing; an order the SDK refused is returned with
    status FAILED.  [validate_signer_client_connection] answers [True] for
    every account that has a signer client, so it adds no case.  [p] is
    what [_get_market_precision] returned for the market. *)
Definition create_market_order (env : MarketOrderEnv) (p : Precision)
    (account_index market_index : Z) (side : string) (amount : Q)
    (max_slippage : option Q) : option OrderInfo :=
  if negb (has_signer_clients env) then None
  else if negb (bool_decide (account_index ∈ signer_clients env)) then None
  else
    match mo_market_data env market_index with
    | None => None
    | Some market_data =>
        let price := max_price market_data side max_slippage in
        let order_id :=
          "market_" +:+ pretty account_index +:+ "_" +:+ pretty market_index
          +:+ "_" +:+ pretty (millis (mo_now env)) in
        let sent :=
          mo_sdk_ok env account_index market_index side
            (base_amount_of p amount) (price_int_of p price) in
        Some {| oi_id := order_id;
                oi_account_index := account_index;
                oi_market_index := market_index;
                oi_order_type := "market";
                oi_side := side;
                oi_amount := amount;
                oi_price := Some price;
                oi_status := if sent then ORDER_PENDING else ORDER_FAILED;
                oi_filled_amount := 0;
                oi_filled_price := None;
                oi_market_order := false |}
    end.

(** *** Price validation of a limit order *)

Definition max_price_deviation : Q := 0.10.

(** [_validate_order_price] on the market data [get_market_data] gave. *)
Definition _validate_order_price (market_data : option MarketData) (price : Q)
    (side : string) : bool :=
  match market_data with
  | None => true
  | Some market_data =>
      let current_price := md_price market_data in
      match Dec.div (Qabs (price - current_price)) current_price with
      | None => false
      | Some price_diff_percent =>
          if Dec.gt price_diff_percent max_price_deviation then false
          else if String.eqb (Config.lower side) "buy" then
            negb (Dec.gt price (current_price * 1.05))
          else
            negb (Dec.lt price (current_price * 0.95))
      end
  end.

(** *** Cancellation *)

(** The class body defines [cancel_order] twice: first with the
    parameter [order_id], later with the parameters [account_index],
    [market_index] and [order_index].  The class keeps the later
    definition, so a call is bound against three parameters. *)
Inductive CancelArguments :=
| CancelByOrderId (order_id : string)
| CancelByIndex (account_index market_index order_index : Z).

(** A call that reaches the signer client. *)
Inductive SignerCall :=
| SignerCancelOrder (account_index market_index order_index : Z).

(** [cancel_order] as a caller meets it: binding one argument against
    three parameters raises [TypeError] before the body runs; with three
    arguments the order is cancelled through the signer client of the
    account, and the answer is [True] when the SDK reports no error. *)
Definition cancel_order (signer_clients : gset Z) (sdk_ok : Z -> Z -> Z -> bool)
    (arguments : CancelArguments) : CallResult bool * list SignerCall :=
  match arguments with
  | CancelByOrderId _ => (Raised, [])
  | CancelByIndex account_index market_index order_index =>
      if negb (bool_decide (account_index ∈ signer_clients)) then (Returned false, [])
      else
        (Returned (sdk_ok account_index market_index order_index),
         [SignerCancelOrder account_index market_index order_index])
  end.

(** What the calls of the strategy come to at the signer clients, as far
    as cancellations go: the strategy cancels with [cancel_order(order.id)]. *)
Definition signer_cancellations (signer_clients : gset Z) (sdk_ok : Z -> Z -> Z -> bool)
    (effects : list Effect) : list SignerCall :=
  concat (map (fun e =>
                 match e with
                 | CancelOrder order_id =>
                     (cancel_order signer_clients sdk_ok (CancelByOrderId order_id)).2
                 | _ => []
                 end)
              effects).

End Orders.

(** ** Overlap check before a new open ([src/core/hedge_trading_engine.py]) *)

Module Overlap.

Local Open Scope Q_scope.

Import Engine.

(** An order as the venue lists it, with the attributes
    [_is_stop_loss_take_profit_order] reads (a missing attribute reads as
    the empty string, or as [False]). *)
Record VenueOrder := {
  vo_order_type : string;
  vo_id : string;
  vo_client_order_id : string;
  vo_is_conditional : bool
}.

(** [any(keyword in text.lower() for keyword in ['stop', 'profit', 'sl', 'tp'])] *)
Definition mentions_protection (text : string) : bool :=
  existsb (fun keyword => Strategy.contains keyword (Config.lower text))
          ["stop"; "profit"; "sl"; "tp"].

Definition _is_stop_loss_take_profit_order (order : VenueOrder) : bool :=
  let order_type := Config.lower (vo_order_type order) in
  if existsb (String.eqb order_type)
             ["stop_loss"; "take_profit"; "stop"; "limit_stop"; "market_stop"]
  then true
  else if mentions_protection (vo_id order) then true
  else if mentions_protection (vo_client_order_id order) then true
  else vo_is_conditional order.

(** What the venue shows during one check.  [view_positions] is the
    answer of [_get_exchange_positions] and [view_pending_orders] the
    answer of [_get_exchange_pending_orders], per account, for the market
    of the pair; both routines catch their own exceptions.
    [view_size_imbalance] is the part of
    [_check_hedge_position_size_balance] that is computed on floats. *)
Record VenueView := {
  view_now : Z;
  view_positions : Z -> list Position;
  view_pending_orders : Z -> list VenueOrder;
  view_size_imbalance : list Position -> bool
}.

(** The engine: its trackers and its table of hedge positions, which
    holds references to objects shared with the strategy. *)
Record EngineState := {
  trackers : HedgeTradingEngine;
  eng_objects : gmap nat HedgePosition;
  eng_active_positions : gmap string nat
}.

Definition set_trackers (self : EngineState) (t : HedgeTradingEngine) : EngineState :=
  {| trackers := t; eng_objects := eng_objects self;
     eng_active_positions := eng_active_positions self |}.

(** What the loop over the accounts of the pair collects. *)
Record Survey := {
  has_exchange_blocking : bool;
  exchange_positions_detail : list Position;
  exchange_orders_detail : list VenueOrder;
  account_position_status : gmap Z AccountPositionStatus
}.

Definition survey_account (view : VenueView) (s : Survey) (account : AccountConfig)
  : Survey :=
  let actual_positions := view_positions view (ac_index account) in
  let main_orders :=
    filter (fun order => _is_stop_loss_take_profit_order order = false)
           (view_pending_orders view (ac_index account)) in
  {| has_exchange_blocking :=
       has_exchange_blocking s
       || negb (bool_decide (actual_positions = []))
       || match main_orders with [] => false | _ => true end;
     exchange_positions_detail := exchange_positions_detail s ++ actual_positions;
     exchange_orders_detail := exchange_orders_detail s ++ main_orders;
     account_position_status :=
       <[ac_index account :=
           {| has_position := bool_decide (0 < length actual_positions)%nat;
              positions_count := Z.of_nat (length actual_positions) |}]>
         (account_position_status s) |}.

Definition survey (view : VenueView) (pair_accounts : list AccountConfig) : Survey :=
  foldl (survey_account view)
        {| has_exchange_blocking := false; exchange_positions_detail := [];
           exchange_orders_detail := []; account_position_status := ∅ |}
        pair_accounts.

(** [_check_hedge_position_size_balance]: nothing to compare below two
    positions; the rest is arithmetic on floats. *)
Definition _check_hedge_position_size_balance (view : VenueView)
    (exchange_positions : list Position) : bool :=
  if bool_decide (length exchange_positions < 2)%nat then false
  else view_size_imbalance view exchange_positions.

(** [_check_position_issues] *)
Definition _check_position_issues (view : VenueView)
    (status : gmap Z AccountPositionStatus) (exchange_positions : list Position) : bool :=
  let inconsistency_detected := _check_position_inconsistency status in
  let size_imbalance_detected :=
    bool_decide (2 <= length exchange_positions)%nat
    && _check_hedge_position_size_balance view exchange_positions in
  inconsistency_detected || size_imbalance_detected.

(** The entry of [positions_snapshot] for a position. *)
Definition snapshot_of (position : Position) : ExchangePosition :=
  {| xp_account_index := Some (pos_account_index position);
     xp_side := pos_side position;
     xp_size := pos_size position;
     xp_entry_price := pos_entry_price position |}.

(** [_check_sl_tp_orders_missing]: the check is switched off; the routine
    returns [False] before it looks at anything. *)
Definition _check_sl_tp_orders_missing (pair_config : TradingPairConfig)
    (status : gmap Z AccountPositionStatus) : bool := false.

(** A call made by a clean-up routine. *)
Inductive CleanupCall :=
| ForceClosePosition (account_index : Z) (position : Position)
| CancelAllInactiveOrders (account_index market_index : Z).

(** [_force_cleanup_problematic_positions] builds its strategy object with
    [BalancedHedgeStrategy(config_manager=..., order_manager=...,
    account_manager=..., risk_manager=...)]; the constructor takes
    [order_manager], [account_manager] and [client_factory], so the call
    raises [TypeError] and the routine ends in its handler without having
    closed or cancelled anything. *)
Definition _force_cleanup_problematic_positions (pair_config : TradingPairConfig)
    (status : gmap Z AccountPositionStatus) (exchange_positions : list Position)
  : list CleanupCall := [].

(** The references of the hedge positions of a pair held in the table. *)
Definition pair_positions (self : EngineState) (pair_id : string) : list nat :=
  filter (fun ref =>
            match eng_objects self !! ref with
            | Some hp => String.eqb (hp_pair_id hp) pair_id
            | None => false
            end = true)
         (map_to_list (eng_active_positions self)).*2.

(** [_force_cleanup_unprotected_positions] *)
Definition _force_cleanup_unprotected_positions (self : EngineState) (view : VenueView)
    (pair_config : TradingPairConfig) (status : gmap Z AccountPositionStatus)
  : EngineState * list CleanupCall :=
  let cleanup_tasks :=
    concat (map (fun '(account_index, st) =>
                   (if has_position st
                    then map (ForceClosePosition account_index)
                             (view_positions view account_index)
                    else [])
                   ++ [CancelAllInactiveOrders account_index (pc_market_index pair_config)])
                (map_to_list status)) in
  let active :=
    foldl (fun active ref =>
             match eng_objects self !! ref with
             | Some hp => delete (hp_id hp) active
             | None => active
             end)
          (eng_active_positions self) (pair_positions self (pc_id pair_config)) in
  let t := trackers self in
  ({| trackers :=
        set_sl_tp_missing_tracker t (delete (pc_id pair_config) (sl_tp_missing_tracker t));
      eng_objects := eng_objects self;
      eng_active_positions := active |},
   cleanup_tasks).

(** [_cleanup_stale_local_positions] (without the formatted date it
    writes under ['cleanup_time']). *)
Definition mark_stale (now : Z) (hp : HedgePosition) : HedgePosition :=
  set_metadata (set_updated_at (set_status hp CLOSED) now)
    (<["auto_cleanup_reason" := MetaStr "交易所无对应仓位，自动清理"]> (hp_metadata hp)).

Definition _cleanup_stale_local_positions (self : EngineState) (now : Z)
    (stale_positions : list nat) : EngineState :=
  foldl (fun self ref =>
           match eng_objects self !! ref with
           | Some hp =>
               {| trackers := trackers self;
                  eng_objects := <[ref := mark_stale now hp]> (eng_objects self);
                  eng_active_positions := delete (hp_id hp) (eng_active_positions self) |}
           | None => self
           end)
        self stale_positions.

Record OverlapOutcome := {
  ov_result : bool;
  ov_state : EngineState;
  ov_calls : list CleanupCall
}.

(** [_check_position_overlap]: [True] blocks a new open. *)
Definition _check_position_overlap (self : EngineState) (cm : ConfigManager)
    (view : VenueView) (pair_config : TradingPairConfig) : OverlapOutcome :=
  match Config.get_pair_accounts cm pair_config with
  | None => {| ov_result := true; ov_state := self; ov_calls := [] |}
  | Some pair_accounts =>
  let now := view_now view in
  let s := survey view pair_accounts in
  let status := account_position_status s in
  let exchange_positions := exchange_positions_detail s in
  let position_issues_detected := _check_position_issues view status exchange_positions in
  let '(should_fix, t) :=
    if position_issues_detected then
      _handle_position_issues (trackers self) now pair_config status
        (map snapshot_of exchange_positions)
        (_check_hedge_position_size_balance view exchange_positions)
    else (false, trackers self) in
  let self := set_trackers self t in
  if should_fix then
    {| ov_result := false; ov_state := self;
       ov_calls := _force_cleanup_problematic_positions pair_config status
                     exchange_positions |}
  else
  let sl_tp_missing_detected := _check_sl_tp_orders_missing pair_config status in
  let '(should_reopen, t) :=
    if sl_tp_missing_detected then
      _handle_sl_tp_missing (trackers self) now pair_config status
    else (false, trackers self) in
  let self := set_trackers self t in
  if should_reopen then
    let '(self, calls) :=
      _force_cleanup_unprotected_positions self view pair_config status in
    {| ov_result := false; ov_state := self; ov_calls := calls |}
  else
  let local := pair_positions self (pc_id pair_config) in
  let self :=
    if negb (bool_decide (local = [])) && negb (has_exchange_blocking s)
    then _cleanup_stale_local_positions self now local
    else self in
  if has_exchange_blocking s then
    {| ov_result := true; ov_state := self; ov_calls := [] |}
  else
    (* the branch reads [self.position_inconsistency_tracker] *)
    match position_inconsistency_tracker (trackers self) with
    | None => {| ov_result := true; ov_state := self; ov_calls := [] |}
    | Some t =>
        {| ov_result := false;
           ov_state :=
             set_trackers self
               (set_position_inconsistency_tracker (trackers self)
                  (delete (pc_id pair_config) t));
           ov_calls := [] |}
    end
  end.

End Overlap.

(** ** Checks made one after the other *)

Module Series.

Import Engine.

(** The answers of [_handle_sl_tp_missing] to a series of checks of one
    pair, each with the time it is made at and the status it sees. *)
Fixpoint sl_tp_missing_series (self : HedgeTradingEngine) (pair_config : TradingPairConfig)
    (checks : list (Z * gmap Z AccountPositionStatus)) : list bool * HedgeTradingEngine :=
  match checks with
  | [] => ([], self)
  | (current_time, status) :: rest =>
      let '(answer, self) := _handle_sl_tp_missing self current_time pair_config status in
      let '(answers, self) := sl_tp_missing_series self pair_config rest in
      (answer :: answers, self)
  end.

(** The answers of [_handle_position_issues] to a series of checks of one
    pair made at the given times, the venue showing the same thing each
    time. *)
Fixpoint position_issues_series (self : HedgeTradingEngine) (pair_config : TradingPairConfig)
    (status : gmap Z AccountPositionStatus) (exchange_positions : list ExchangePosition)
    (size_imbalance : bool) (times : list Z) : list bool * HedgeTradingEngine :=
  match times with
  | [] => ([], self)
  | current_time :: rest =>
      let '(answer, self) :=
        _handle_position_issues self current_time pair_config status
          exchange_positions size_imbalance in
      let '(answers, self) :=
        position_issues_series self pair_config status exchange_positions
          size_imbalance rest in
      (answer :: answers, self)
  end.

(** One detection of a position issue of a pair: the time of the check
    and what the venue shows at it. *)
Record Detection := {
  detection_time : Z;
  detection_status : gmap Z AccountPositionStatus;
  detection_positions : list ExchangePosition;
  detection_size_imbalance : bool
}.

(** The answers of [_handle_position_issues] to a series of detections
    of one pair, the venue showing what it shows at each of them. *)
Fixpoint position_issues_detections (self : HedgeTradingEngine)
    (pair_config : TradingPairConfig) (detections : list Detection)
  : list bool * HedgeTradingEngine :=
  match detections with
  | [] => ([], self)
  | d :: rest =>
      let '(answer, self) :=
        _handle_position_issues self (detection_time d) pair_config
          (detection_status d) (detection_positions d) (detection_size_imbalance d) in
      let '(answers, self) := position_issues_detections self pair_config rest in
      (answer :: answers, self)
  end.

End Series.

(** ** Concrete situations used by the examples below *)

Module Scenario.

Local Open Scope Q_scope.

Definition limits : RiskLimits :=
  {| rl_max_daily_loss := 1000; rl_max_position_size := 2000;
     rl_max_slippage := 0.01; rl_min_balance := 100 |}.

Definition account_config (index : Z) (address : string) : AccountConfig :=
  {| ac_index := index; ac_l1_address := address; ac_is_active := true;
     ac_risk_limits := limits |}.

Definition pair (leverage : Z) (distance : StopTakeDistance) : TradingPairConfig :=
  {| pc_id := "btc_hedge"; pc_name := "BTC-USD"; pc_market_index := 1;
     pc_is_enabled := true; pc_stop_take_distance := distance;
     pc_account_addresses := ["0xAAA1"; "0xbbb2"];
     pc_risk_limits := limits; pc_leverage := leverage |}.

Definition loaded (leverage : Z) (distance : StopTakeDistance) : ConfigManager :=
  {| config :=
       Some {| risk_management := ∅;
               cfg_accounts := [account_config 1 "0xaaa1"; account_config 2 "0xBBB2"];
               cfg_trading_pairs := [pair leverage distance] |} |}.

(** The pair of the examples naming account 1 twice, under two
    spellings of its address. *)
Definition pair_of_two_spellings : TradingPairConfig :=
  {| pc_id := "btc_hedge"; pc_name := "BTC-USD"; pc_market_index := 1;
     pc_is_enabled := true; pc_stop_take_distance := DistanceAuto;
     pc_account_addresses := ["0xAAA1"; "0xaaa1"];
     pc_risk_limits := limits; pc_leverage := 1 |}.

Definition loaded_with_two_spellings : ConfigManager :=
  {| config :=
       Some {| risk_management := ∅;
               cfg_accounts := [account_config 1 "0xaaa1"; account_config 2 "0xBBB2"];
               cfg_trading_pairs := [pair_of_two_spellings] |} |}.

Definition account (index : Z) (balance available : Q) : Account :=
  {| acc_index := index; acc_balance := balance; acc_available_balance := available;
     acc_positions := []; acc_is_active := true |}.

(** Account 1 holds 1000, account 2 holds 800, all of it available. *)
Definition funded : AccountManager :=
  {| accounts := <[2%Z := account 2 800 800]> (<[1%Z := account 1 1000 1000]> ∅) |}.

(** The same collateral, but half of account 1's is tied up. *)
Definition partly_available : AccountManager :=
  {| accounts := <[2%Z := account 2 800 800]> (<[1%Z := account 1 1000 500]> ∅) |}.

Definition no_losses : Risk.RiskManager :=
  {| Risk.daily_losses := ∅; Risk.pair_daily_losses := ∅;
     Risk.risk_events := []; Risk.emergency_stop_active := false |}.

(** Account 1 has already lost 1200 today, above its ceiling of 1000. *)
Definition account_over_limit : Risk.RiskManager :=
  {| Risk.daily_losses := <[1%Z := 1200]> ∅; Risk.pair_daily_losses := ∅;
     Risk.risk_events := []; Risk.emergency_stop_active := false |}.

(** Account 1 shows one position on the venue, account 2 shows none. *)
Definition one_sided : gmap Z Engine.AccountPositionStatus :=
  <[2%Z := {| Engine.has_position := false; Engine.positions_count := 0 |}]>
    (<[1%Z := {| Engine.has_position := true; Engine.positions_count := 1 |}]> ∅).

(** Account 2 shows one position on the venue, account 1 shows none. *)
Definition other_sided : gmap Z Engine.AccountPositionStatus :=
  <[2%Z := {| Engine.has_position := true; Engine.positions_count := 1 |}]>
    (<[1%Z := {| Engine.has_position := false; Engine.positions_count := 0 |}]> ∅).

(** The engine as [__init__] leaves it: two empty trackers, and no
    attribute for the inconsistency tracker. *)
Definition engine_after_init : Engine.HedgeTradingEngine :=
  {| Engine.position_issues_tracker := ∅;
     Engine.sl_tp_missing_tracker := ∅;
     Engine.position_inconsistency_tracker := None |}.

(** A position of half a unit entered at 100, as the venue reports it. *)
Definition exchange_position (account_index : Z) (side : string) : Engine.ExchangePosition :=
  {| Engine.xp_account_index := Some account_index; Engine.xp_side := side;
     Engine.xp_size := 0.5; Engine.xp_entry_price := 100 |}.

(** Three detections for the pair, 20 seconds apart: at the first account
    1 holds a position and account 2 none, at the second and the third
    account 2 holds one and account 1 none. *)
Definition changing_detections : list Series.Detection :=
  [ {| Series.detection_time := Engine.seconds 0;
       Series.detection_status := one_sided;
       Series.detection_positions := [exchange_position 1 "long"];
       Series.detection_size_imbalance := false |};
    {| Series.detection_time := Engine.seconds 20;
       Series.detection_status := other_sided;
       Series.detection_positions := [exchange_position 2 "short"];
       Series.detection_size_imbalance := false |};
    {| Series.detection_time := Engine.seconds 40;
       Series.detection_status := other_sided;
       Series.detection_positions := [exchange_position 2 "short"];
       Series.detection_size_imbalance := false |} ].

(** A record with two strikes, first seen at time 0. *)
Definition two_strikes (fingerprint : string) : Engine.FingerprintTracker :=
  {| Engine.first_detected := 0;
     Engine.last_checked := Engine.seconds 1;
     Engine.consecutive_count := 2;
     Engine.last_fingerprint := fingerprint;
     Engine.status_history := [fingerprint] |}.

(** The engine as [__init__] leaves it, after two sightings of the same
    unprotected state for the pair. *)
Definition engine_two_strikes : Engine.HedgeTradingEngine :=
  {| Engine.position_issues_tracker := ∅;
     Engine.sl_tp_missing_tracker :=
       <["btc_hedge" := two_strikes (Engine._create_sl_tp_missing_fingerprint one_sided)]> ∅;
     Engine.position_inconsistency_tracker := None |}.

(** The same engine with the attribute of the inconsistency tracker set. *)
Definition engine_with_inconsistency_record : Engine.HedgeTradingEngine :=
  {| Engine.position_issues_tracker := ∅;
     Engine.sl_tp_missing_tracker := ∅;
     Engine.position_inconsistency_tracker :=
       Some (<["btc_hedge" :=
                 two_strikes (Engine._create_position_status_fingerprint one_sided)]> ∅) |}.

(** Market data and a one-level order book for market 1. *)
Definition market (price : Q) : MarketData :=
  {| md_market_index := 1; md_price := price; md_bid_price := None;
     md_ask_price := None; md_timestamp := 0 |}.

Definition level (price : Q) : gmap string Q :=
  <["price" := price]> (<["size" := 1]> ∅).

Definition book (bid ask : Q) : OrderBook :=
  {| ob_market_index := 1; ob_bids := [level bid]; ob_asks := [level ask] |}.

(** Fresh websocket data: a price and a book. *)
Definition websocket (price bid ask : Q) : Strategy.PriceSources :=
  {| Strategy.has_websocket_manager := true;
     Strategy.ws_market_data := Some (market price);
     Strategy.ws_orderbook := Some (book bid ask);
     Strategy.cached_orderbook := None;
     Strategy.cached_market_data := None;
     Strategy.api_market_data := Some (market price);
     Strategy.api_orderbook := Some (book bid ask) |}.

(** The order manager accepts every market order and reports it pending,
    priced at [buy_price] for a buy and at [sell_price] for a sell. *)
Definition accepts (buy_price sell_price : Q)
    (account_index market_index : Z) (side : string) (amount : Q)
  : Strategy.CallResult (option OrderInfo) :=
  Strategy.Returned
    (Some {| oi_id := "market_" +:+ pretty account_index;
             oi_account_index := account_index;
             oi_market_index := market_index;
             oi_order_type := "market";
             oi_side := side;
             oi_amount := amount;
             oi_price := Some (if String.eqb side "buy" then buy_price else sell_price);
             oi_status := ORDER_PENDING;
             oi_filled_amount := 0;
             oi_filled_price := None;
             oi_market_order := false |}).

(** One open attempt: the accounts as [am] shows them, the market at
    [price] with the best bid and ask given, and the fills above. *)
Definition open_env (am : AccountManager) (price bid ask buy_price sell_price : Q)
  : Strategy.OpenEnv :=
  {| Strategy.open_now := 1700000000000000;
     Strategy.open_cleanup_orders_success := true;
     Strategy.open_cleanup_positions_success := true;
     Strategy.open_account_manager := am;
     Strategy.open_market_data := Some (market price);
     Strategy.open_price_sources := websocket price bid ask;
     Strategy.open_has_signer_clients := true;
     Strategy.open_create_market_order := accepts buy_price sell_price;
     Strategy.open_gather_timeout := false;
     Strategy.open_orders_filled := true;
     Strategy.open_refreshed_accounts := Some am |}.

(** An order manager with signer clients for accounts 1 and 2 that reads
    a quote of 100 / 100.1, and whose SDK call goes through or not as
    [sdk_ok] says. *)
Definition quote : MarketData :=
  {| md_market_index := 1; md_price := 100; md_bid_price := Some 100;
     md_ask_price := Some 100.1; md_timestamp := 0 |}.

Definition order_manager (sdk_ok : bool) : Orders.MarketOrderEnv :=
  {| Orders.mo_now := 0; Orders.signer_clients := {[ 1%Z; 2%Z ]};
     Orders.mo_market_data := fun _ => Some quote;
     Orders.mo_sdk_ok := fun _ _ _ _ _ => sdk_ok |}.

(** One open attempt whose leg orders go to that order manager. *)
Definition open_env_through (menv : Orders.MarketOrderEnv) : Strategy.OpenEnv :=
  {| Strategy.open_now := 1700000000000000;
     Strategy.open_cleanup_orders_success := true;
     Strategy.open_cleanup_positions_success := true;
     Strategy.open_account_manager := funded;
     Strategy.open_market_data := Some quote;
     Strategy.open_price_sources := websocket 100 100 100.1;
     Strategy.open_has_signer_clients := Orders.has_signer_clients menv;
     Strategy.open_create_market_order :=
       fun account_index market_index side amount =>
         Strategy.Returned
           (Orders.create_market_order menv Orders.btc_precision account_index
              market_index side amount None);
     Strategy.open_gather_timeout := false;
     Strategy.open_orders_filled := true;
     Strategy.open_refreshed_accounts := Some funded |}.

(** A strategy that has not opened anything yet. *)
Definition idle (cm : ConfigManager) : Strategy.BalancedHedgeStrategy :=
  {| Strategy.objects := ∅; Strategy.active_positions := ∅;
     Strategy._direction_cache := None; Strategy.config_manager := cm;
     Strategy.has_client_factory := true |}.

(** A hedge of one unit long on account 1 and one unit short on account 2,
    opened at 100 and registered with the strategy. *)
Definition leg (account_index : Z) (side : string) (size : Q) : Position :=
  {| pos_id := "pos_market_" +:+ pretty account_index;
     pos_account_index := account_index; pos_market_index := 1;
     pos_side := side; pos_size := size; pos_entry_price := 100;
     pos_current_price := Some 100; pos_leverage := 1; pos_margin_used := 100;
     pos_liquidation_price := None |}.

Definition open_hedge : HedgePosition :=
  {| hp_id := "hedge_btc_hedge_1700000000"; hp_pair_id := "btc_hedge";
     hp_status := ACTIVE; hp_positions := [leg 1 "long" 1; leg 2 "short" 1];
     hp_total_pnl := 0; hp_created_at := 1700000000000000;
     hp_updated_at := 1700000000000000; hp_closed_at := None;
     hp_metadata := ∅ |}.

Definition holding : Strategy.BalancedHedgeStrategy :=
  {| Strategy.objects := <[0%nat := open_hedge]> ∅;
     Strategy.active_positions := <["hedge_btc_hedge_1700000000" := 0%nat]> ∅;
     Strategy._direction_cache := None;
     Strategy.config_manager := loaded 1 DistanceAuto;
     Strategy.has_client_factory := true |}.

(** The order manager accepts every limit order. *)
Definition accepts_limit (account_index market_index : Z) (side : string)
    (amount price : Q) : Strategy.CallResult (option OrderInfo) :=
  Strategy.Returned
    (Some {| oi_id := "limit_" +:+ pretty account_index;
             oi_account_index := account_index;
             oi_market_index := market_index;
             oi_order_type := "limit";
             oi_side := side;
             oi_amount := amount;
             oi_price := Some price;
             oi_status := ORDER_PENDING;
             oi_filled_amount := 0;
             oi_filled_price := None;
             oi_market_order := false |}).

(** One close attempt with the market at 100 (bid 99.9, ask 100.1); at
    every query the venue shows a position of [remote_size] on market 1
    for each account. *)
Definition close_env (remote_size : Q) : Strategy.CloseEnv :=
  {| Strategy.close_now := 1700000600000000;
     Strategy.close_price_sources := websocket 100 99.9 100.1;
     Strategy.close_create_limit_order := accepts_limit;
     Strategy.close_gather_timeout := false;
     Strategy.close_account_api :=
       fun _ _ => Strategy.Returned [(Some 1%Z, remote_size)] |}.

(** The two legs as the protective-order routine receives them. *)
Definition long_leg : Strategy.SlTpPosition :=
  {| Strategy.sp_account_index := 1; Strategy.sp_side := "buy";
     Strategy.sp_amount := 0.01; Strategy.sp_entry_price := 100000 |}.

Definition short_leg : Strategy.SlTpPosition :=
  {| Strategy.sp_account_index := 2; Strategy.sp_side := "sell";
     Strategy.sp_amount := 0.01; Strategy.sp_entry_price := 100200 |}.

End Scenario.

(** * Properties *)

(** ** Decimal comparisons *)

Module DecFacts.

Local Open Scope Q_scope.

Lemma le_true a b : Dec.le a b = true <-> a <= b.
Proof. apply Qle_bool_iff. Qed.

Lemma le_false a b : Dec.le a b = false <-> b < a.
Proof.
  unfold Dec.le. split; intros H.
  - destruct (Qlt_le_dec b a) as [Hlt|Hle]; [exact Hlt|].
    apply Qle_bool_iff in Hle. congruence.
  - destruct (Qle_bool a b) eqn:E; [|reflexivity].
    apply Qle_bool_iff in E. lra.
Qed.

Lemma lt_true a b : Dec.lt a b = true <-> a < b.
Proof. unfold Dec.lt. rewrite negb_true_iff. apply le_false. Qed.

Lemma lt_false a b : Dec.lt a b = false <-> b <= a.
Proof. unfold Dec.lt. rewrite negb_false_iff. apply le_true. Qed.

Lemma ge_true a b : Dec.ge a b = true <-> b <= a.
Proof. apply le_true. Qed.

Lemma ge_false a b : Dec.ge a b = false <-> a < b.
Proof. apply le_false. Qed.

Lemma gt_true a b : Dec.gt a b = true <-> b < a.
Proof. apply lt_true. Qed.

Lemma gt_false a b : Dec.gt a b = false <-> a <= b.
Proof. apply lt_false. Qed.

Lemma eq_true a b : Dec.eq a b = true <-> a == b.
Proof. apply Qeq_bool_iff. Qed.

Lemma eq_false a b : Dec.eq a b = false <-> ~ a == b.
Proof.
  unfold Dec.eq. split; intros H.
  - intros E. apply Qeq_bool_iff in E. congruence.
  - destruct (Qeq_bool a b) eqn:E; [|reflexivity].
    apply Qeq_bool_iff in E. contradiction.
Qed.

Lemma div_Some a b : ~ b == 0 -> Dec.div a b = Some (a / b).
Proof. intros H. unfold Dec.div. apply eq_false in H. now rewrite H. Qed.

Lemma max_spec a b : Dec.max a b == Qmax a b.
Proof.
  unfold Dec.max. destruct (Dec.lt a b) eqn:E.
  - apply lt_true in E. symmetry. apply Q.max_r. lra.
  - apply lt_false in E. symmetry. now apply Q.max_l.
Qed.

Lemma min_spec a b : Dec.min a b == Qmin a b.
Proof.
  unfold Dec.min. destruct (Dec.lt b a) eqn:E.
  - apply lt_true in E. symmetry. apply Q.min_r. lra.
  - apply lt_false in E. symmetry. now apply Q.min_l.
Qed.

End DecFacts.

(** ** Risk gate *)

Module RiskFacts.

Import Risk.
Local Open Scope Q_scope.

Lemma trigger_risk_event_losses now self service event_type value limit sev act ai pid :
  daily_losses (_trigger_risk_event now self service event_type value limit sev act ai pid)
    = daily_losses self /\
  pair_daily_losses (_trigger_risk_event now self service event_type value limit sev act ai pid)
    = pair_daily_losses self.
Proof. unfold _trigger_risk_event. destruct (String.eqb act "emergency_stop"); auto. Qed.

Lemma verdict_cons g gates :
  verdict (g :: gates) =
    if gate_fails g then (false, Some (gate_reason g)) else verdict gates.
Proof. unfold verdict, first_failing. simpl. destruct (gate_fails g); reflexivity. Qed.

Lemma verdict_allows gates :
  (verdict gates).1 = true <-> Forall (fun g => gate_fails g = false) gates.
Proof.
  induction gates as [|g gates IH].
  - split; [constructor | reflexivity].
  - rewrite verdict_cons. destruct (gate_fails g) eqn:E; simpl.
    + split; [discriminate|]. intros H. inversion H; subst. congruence.
    + rewrite IH. split; [now constructor | intros H; now inversion H].
Qed.

(** The account loop refuses at the first failing account gate and never
    touches the emergency stop. *)
Lemma check_account_balances_verdict now am self pair_accounts :
  let r := check_account_balances now am self pair_accounts in
  (allowed r.1, reason r.1) = verdict (concat (map (account_gates am self) pair_accounts))
  /\ emergency_stop_active r.2 = emergency_stop_active self.
Proof.
  induction pair_accounts as [|account_config rest IH]; simpl.
  - split; reflexivity.
  - unfold account_gates at 1.
    destruct (Accounts.get_account am (ac_index account_config)) as [account|]; simpl.
    + rewrite verdict_cons; simpl.
      destruct (Dec.lt (acc_available_balance account) _); simpl; [split; reflexivity|].
      rewrite verdict_cons; simpl.
      destruct (Dec.ge (account_daily_loss self _) _); simpl; [split; reflexivity|].
      exact IH.
    + rewrite verdict_cons; simpl. split; reflexivity.
Qed.

(** A refusal always carries a reason. *)
Lemma check_account_balances_reason now am self pair_accounts :
  allowed (check_account_balances now am self pair_accounts).1 = false ->
  is_Some (reason (check_account_balances now am self pair_accounts).1).
Proof.
  induction pair_accounts as [|account_config rest IH]; simpl; [discriminate|].
  destruct (Accounts.get_account am _) as [account|]; simpl; [|eauto].
  destruct (Dec.lt _ _); simpl; [eauto|].
  destruct (Dec.ge _ _); simpl; [eauto|]. exact IH.
Qed.

(** C6.  [check_open_position_risk] evaluates its gates in the order
    emergency stop, global daily loss, pair daily loss, position size, then
    for each account of the pair its available balance against the minimum
    and its daily loss (an account whose data is missing is refused at that
    point); the first gate that fails decides the result
    ([allowed = false] with the reason of that gate), the result is
    [allowed = true] exactly when no gate fails, a breach of the global
    ceiling switches the emergency stop on, and every refusal, the one of
    the [except] branch included, carries a reason. *)
Theorem check_open_position_risk_gate_order
    now cm am self pair_config base_amount :
  let r := check_open_position_risk now cm am self pair_config base_amount in
  (allowed r.1 = false -> is_Some (reason r.1)) /\
  (forall c global_max_loss pair_accounts,
      config cm = Some c ->
      global_max_daily_loss (risk_management c) = Some global_max_loss ->
      Config.get_pair_accounts cm pair_config = Some pair_accounts ->
      let gates := gate_sequence am self global_max_loss pair_config base_amount
                     pair_accounts in
      (allowed r.1, reason r.1) = verdict gates /\
      (allowed r.1 = true <-> Forall (fun g => gate_fails g = false) gates) /\
      emergency_stop_active r.2 =
        emergency_stop_active self || gate_fails (global_gate self global_max_loss)).
Proof.
  cbv zeta. split.
  - unfold check_open_position_risk.
    destruct (emergency_stop_active self); simpl; [eauto|].
    destruct (Config.get_risk_config cm) as [gc|]; simpl; [|eauto].
    destruct (global_max_daily_loss gc) as [g|]; simpl; [|eauto].
    destruct (Dec.ge (total_daily_loss self) g); simpl; [eauto|].
    destruct (Dec.ge (pair_daily_loss self _) _); simpl; [eauto|].
    destruct (Dec.gt base_amount _); simpl; [eauto|].
    destruct (Config.get_pair_accounts cm pair_config) as [accs|]; simpl; [|eauto].
    apply check_account_balances_reason.
  - intros c g accs Hc Hg Haccs.
    assert (Hverdict :
      (allowed (check_open_position_risk now cm am self pair_config base_amount).1,
       reason (check_open_position_risk now cm am self pair_config base_amount).1)
        = verdict (gate_sequence am self g pair_config base_amount accs)
      /\ emergency_stop_active
           (check_open_position_risk now cm am self pair_config base_amount).2
         = emergency_stop_active self || gate_fails (global_gate self g)).
    { unfold check_open_position_risk, gate_sequence, Config.get_risk_config, global_gate.
      rewrite Hc, Haccs. simpl. rewrite Hg. rewrite verdict_cons; simpl.
      destruct (emergency_stop_active self) eqn:Ee; simpl; [split; [reflexivity|exact Ee]|].
      rewrite verdict_cons; simpl.
      destruct (Dec.ge (total_daily_loss self) g); simpl; [split; reflexivity|].
      rewrite verdict_cons; simpl.
      destruct (Dec.ge (pair_daily_loss self _) _); simpl; [split; [reflexivity|exact Ee]|].
      rewrite verdict_cons; simpl.
      destruct (Dec.gt base_amount _); simpl; [split; [reflexivity|exact Ee]|].
      destruct (check_account_balances_verdict now am self accs) as [Hv He].
      split; [exact Hv | now rewrite He]. }
    destruct Hverdict as [Hv He]. split; [exact Hv|]. split; [|exact He].
    rewrite <- verdict_allows, <- Hv. reflexivity.
Qed.

(** The gates with the configuration loaded, the accounts funded and
    account 1 over its daily-loss ceiling: every gate before that one is
    passed and the check is refused on the daily loss of account 1. *)
Lemma check_open_position_risk_gate_order_witness :
  let r := check_open_position_risk 0 (Scenario.loaded 1 DistanceAuto) Scenario.funded
             Scenario.account_over_limit (Scenario.pair 1 DistanceAuto) 1000 in
  allowed r.1 = false /\
  reason r.1 = Some (ReasonAccountDailyLoss 1 1200 1000) /\
  emergency_stop_active r.2 = false.
Proof.
  cbv zeta.
  destruct (check_open_position_risk_gate_order 0 (Scenario.loaded 1 DistanceAuto)
              Scenario.funded Scenario.account_over_limit
              (Scenario.pair 1 DistanceAuto) 1000) as [_ Hgates].
  destruct (Hgates _ 5000
              [Scenario.account_config 1 "0xaaa1"; Scenario.account_config 2 "0xBBB2"]
              ltac:(reflexivity) ltac:(reflexivity) ltac:(reflexivity))
    as (Hverdict & _ & Hstop).
  split; [|split].
  - etransitivity; [exact (f_equal fst Hverdict) | vm_compute; reflexivity].
  - etransitivity; [exact (f_equal snd Hverdict) | vm_compute; reflexivity].
  - rewrite Hstop. vm_compute. reflexivity.
Defined.

Lemma check_loss_limits_losses now cm self account_index pair_id self' :
  _check_loss_limits now cm self account_index pair_id = Some self' ->
  daily_losses self' = daily_losses self /\
  pair_daily_losses self' = pair_daily_losses self.
Proof.
  unfold _check_loss_limits. intros H.
  destruct (Config.get_account_by_index cm account_index) as [oac|]; [|discriminate].
  simpl in H.
  destruct (Config.get_pair_by_id cm pair_id) as [opc|]; [|discriminate].
  simpl in H. injection H as <-.
  set (self1 := match oac with Some _ => _ | None => _ end).
  assert (H1 : daily_losses self1 = daily_losses self /\
               pair_daily_losses self1 = pair_daily_losses self).
  { subst self1. destruct oac as [ac|]; [|auto].
    destruct (Dec.ge _ _); [apply trigger_risk_event_losses | auto]. }
  destruct H1 as [H1 H2].
  destruct opc as [pc|]; [|auto].
  destruct (Dec.ge _ _); [|auto].
  destruct (trigger_risk_event_losses now self1 "risk_manager" "pair_loss_warning"
              (pair_daily_loss self1 pair_id) (rl_max_daily_loss (pc_risk_limits pc))
              "warning" "monitor" None (Some pair_id)) as [-> ->]. auto.
Qed.

Lemma record_trade_pnl_maps now cm self account_index pair_id pnl :
  let self1 := if Dec.lt pnl 0 then add_loss self account_index pair_id pnl else self in
  daily_losses (record_trade_pnl now cm self account_index pair_id pnl)
    = daily_losses self1 /\
  pair_daily_losses (record_trade_pnl now cm self account_index pair_id pnl)
    = pair_daily_losses self1.
Proof.
  cbv zeta. unfold record_trade_pnl.
  destruct (_check_loss_limits now cm _ account_index pair_id) as [self'|] eqn:E;
    [|auto].
  now apply check_loss_limits_losses in E.
Qed.

(** C10.  [record_trade_pnl] with [pnl >= 0] leaves both loss dictionaries
    as they are; with [pnl < 0] the entry of the account and the entry of
    the pair each grow by exactly [abs(pnl)] (an absent entry counts as 0)
    and no other entry changes. *)
Theorem record_trade_pnl_losses now cm self account_index pair_id pnl :
  let self' := record_trade_pnl now cm self account_index pair_id pnl in
  (0 <= pnl ->
     daily_losses self' = daily_losses self /\
     pair_daily_losses self' = pair_daily_losses self) /\
  (pnl < 0 ->
     account_daily_loss self' account_index
       == account_daily_loss self account_index + Qabs pnl /\
     pair_daily_loss self' pair_id == pair_daily_loss self pair_id + Qabs pnl /\
     (forall i, i <> account_index -> daily_losses self' !! i = daily_losses self !! i) /\
     (forall p, p <> pair_id ->
        pair_daily_losses self' !! p = pair_daily_losses self !! p)).
Proof.
  cbv zeta.
  destruct (record_trade_pnl_maps now cm self account_index pair_id pnl) as [Hd Hp].
  split; intros Hpnl.
  - apply DecFacts.lt_false in Hpnl. rewrite Hpnl in Hd, Hp. auto.
  - apply DecFacts.lt_true in Hpnl. rewrite Hpnl in Hd, Hp.
    unfold account_daily_loss, pair_daily_loss. rewrite Hd, Hp.
    unfold add_loss; simpl.
    repeat split.
    + rewrite lookup_insert_eq. reflexivity.
    + rewrite lookup_insert_eq. reflexivity.
    + intros i Hi. now rewrite lookup_insert_ne.
    + intros p Hne. now rewrite lookup_insert_ne.
Qed.

(** A loss of 50 on account 1 and the pair, from an empty book. *)
Lemma record_trade_pnl_losses_witness :
  let self' := record_trade_pnl 0 (Scenario.loaded 1 DistanceAuto) Scenario.no_losses
                 1 "btc_hedge" (-50) in
  account_daily_loss self' 1 == 50 /\ pair_daily_loss self' "btc_hedge" == 50.
Proof.
  cbv zeta.
  destruct (record_trade_pnl_losses 0 (Scenario.loaded 1 DistanceAuto)
              Scenario.no_losses 1 "btc_hedge" (-50)) as [_ Hloss].
  destruct (Hloss ltac:(reflexivity)) as (Haccount & Hpair & _).
  split; [rewrite Haccount | rewrite Hpair]; reflexivity.
Defined.

(** A profit leaves the book as it is. *)
Example record_trade_pnl_profit :
  let self' := record_trade_pnl 0 (Scenario.loaded 1 DistanceAuto)
                 Scenario.account_over_limit 1 "btc_hedge" 75 in
  daily_losses self' = daily_losses Scenario.account_over_limit /\
  pair_daily_losses self' = pair_daily_losses Scenario.account_over_limit /\
  length (risk_events self') = 1%nat.
Proof. cbv zeta. repeat split; vm_compute; reflexivity. Qed.

End RiskFacts.

(** ** Stop distance and protective orders *)

Module DistanceFacts.

Import Strategy.
Local Open Scope Q_scope.

Lemma safe_max_distance_leveraged leverage :
  (1 < leverage)%Z ->
  safe_max_distance_percent leverage == 0.8 * (0.5 / inject_Z leverage).
Proof.
  intros H. unfold safe_max_distance_percent.
  apply Z.ltb_lt in H. rewrite H. cbv zeta. ring.
Qed.

Lemma manual_distance_choice leverage percent :
  let auto_distance := safe_max_distance_percent leverage in
  let manual := percent / 100 in
  exists d,
    stop_loss_take_profit_percent leverage (DistanceNumber percent) = Some d /\
    (manual <= auto_distance -> d = manual) /\
    (auto_distance < manual -> d = auto_distance).
Proof.
  cbv zeta. unfold stop_loss_take_profit_percent.
  destruct (Dec.gt (percent / 100) (safe_max_distance_percent leverage)) eqn:E;
    eexists; (split; [reflexivity|]).
  - apply DecFacts.gt_true in E. split; [lra | reflexivity].
  - apply DecFacts.gt_false in E. split; [reflexivity | lra].
Qed.

(** On its way to the trigger prices the chosen distance is cut to whole
    basis points: it loses less than one basis point and nothing when it
    is a whole number of basis points already. *)
Lemma to_int_floor x : 0 <= x -> Dec.to_int x = Qfloor x.
Proof.
  intros Hx. unfold Dec.to_int, Qfloor. destruct x as [n d]. simpl.
  apply Z.quot_div_nonneg; [|reflexivity].
  unfold Qle in Hx. simpl in Hx. lia.
Qed.

Lemma price_distance_percent_bounds d :
  0 <= d ->
  price_distance_percent d <= d /\ d - 1 / 10000 < price_distance_percent d.
Proof.
  intros Hd. unfold price_distance_percent, Dec.of_int. cbv zeta.
  assert (Hx : 0 <= d * 10000) by (apply Qmult_le_0_compat; [exact Hd | discriminate]).
  rewrite (to_int_floor _ Hx).
  pose proof (Qfloor_le (d * 10000)) as Hle.
  pose proof (Qlt_floor (d * 10000)) as Hlt.
  rewrite inject_Z_plus in Hlt. change (inject_Z 1) with 1 in Hlt.
  set (bps := inject_Z (Qfloor (d * 10000))) in *.
  split.
  - apply Qle_shift_div_r; [reflexivity | exact Hle].
  - apply Qlt_shift_div_l; [reflexivity|].
    assert (E : (d - 1 / 10000) * 10000 == d * 10000 - 1) by field.
    rewrite E. clearbody bps. lra.
Qed.

Example price_distance_percent_leverage_3 :
  price_distance_percent (safe_max_distance_percent 3) == 0.1333.
Proof. reflexivity. Qed.

Lemma price_distance_percent_whole d bps :
  (0 <= bps)%Z -> d == inject_Z bps / 10000 -> price_distance_percent d == d.
Proof.
  intros Hbps Hd. unfold price_distance_percent, Dec.of_int. cbv zeta.
  assert (Hscaled : d * 10000 == inject_Z bps) by (rewrite Hd; field).
  assert (Hnonneg : 0 <= d * 10000).
  { rewrite Hscaled. change 0 with (inject_Z 0). now rewrite <- Zle_Qle. }
  rewrite (to_int_floor _ Hnonneg), Hscaled, Qfloor_Z. now rewrite Hd.
Qed.

Lemma safe_max_distance_unleveraged leverage :
  (leverage <= 1)%Z -> safe_max_distance_percent leverage == 0.05.
Proof.
  intros H. unfold safe_max_distance_percent.
  destruct (1 <? leverage)%Z eqn:E; [apply Z.ltb_lt in E; lia | reflexivity].
Qed.

(** The distance of a plan is the distance chosen for the first active
    pair of the market, cut to whole basis points. *)
Lemma sl_tp_plan_distance cm positions market_index plan :
  sl_tp_plan cm positions market_index = Some plan ->
  exists pairs pair_config chosen,
    Config.get_active_pairs cm = Some pairs /\
    List.find (fun p => Z.eqb (pc_market_index p) market_index) pairs = Some pair_config /\
    stop_loss_take_profit_percent (pc_leverage pair_config)
      (pc_stop_take_distance pair_config) = Some chosen /\
    plan_price_distance_percent plan = price_distance_percent chosen.
Proof.
  unfold sl_tp_plan.
  destruct (Config.get_active_pairs cm) as [pairs|]; [|discriminate].
  cbn [mbind option_bind].
  destruct (List.find _ pairs) as [pair_config|] eqn:Hfind; [|discriminate].
  cbn [mbind option_bind].
  destruct (stop_loss_take_profit_percent _ _) as [chosen|] eqn:Hchosen; [|discriminate].
  cbn [mbind option_bind].
  destruct (bool_decide (positions = [])); [discriminate|].
  cbv zeta. destruct (Dec.eq _ 0); [discriminate|].
  intros [= <-]. exists pairs, pair_config, chosen. repeat split; assumption.
Qed.

(** Every protective order of a plan triggers at one of the two prices of
    the plan. *)
Lemma protective_orders_of_plan cm positions market_index plan o :
  sl_tp_plan cm positions market_index = Some plan ->
  o ∈ _create_hedge_stop_loss_take_profit_orders cm positions market_index ->
  po_trigger_price o = hedge_lower_price plan
  \/ po_trigger_price o = hedge_upper_price plan.
Proof.
  intros Hplan. unfold _create_hedge_stop_loss_take_profit_orders. rewrite Hplan.
  intros Ho. apply list_elem_of_In, in_concat in Ho as (leg & Hleg & Ho).
  apply in_map_iff in Hleg as (pos & <- & _).
  unfold leg_protective_orders in Ho.
  destruct (is_long pos); cbn in Ho; destruct Ho as [<- | [<- | []]]; cbn; auto.
Qed.

(** C7, as the code has it.  The stop distance used for the protective
    orders is the chosen distance cut down to whole basis points
    ([Decimal(int(d * 10000)) / 10000]): never above the chosen distance,
    less than one basis point below it, and equal to it when the chosen
    distance is a whole number of basis points.  The chosen distance is
    [autoDistance], that is [0.8 * (0.5 / leverage)] for a leverage above 1
    and 5% otherwise, unless a manual distance (the configured percentage
    divided by 100) is configured that does not exceed [autoDistance]:
    then it is the manual distance.  At leverage 5 the automatic distance
    is 0.08, which is 800 basis points, so 0.08 is also the distance used,
    with no manual setting and with a manual setting above it.  Every
    protective order triggers at the basis price moved down or up by the
    distance used. *)
Theorem stop_distance_rule cm positions market_index plan :
  sl_tp_plan cm positions market_index = Some plan ->
  exists pairs pair_config chosen,
    Config.get_active_pairs cm = Some pairs /\
    List.find (fun p => Z.eqb (pc_market_index p) market_index) pairs = Some pair_config /\
    let leverage := pc_leverage pair_config in
    let auto_distance := safe_max_distance_percent leverage in
    let used := plan_price_distance_percent plan in
    ((1 < leverage)%Z -> auto_distance == 0.8 * (0.5 / inject_Z leverage)) /\
    ((leverage <= 1)%Z -> auto_distance == 0.05) /\
    match pc_stop_take_distance pair_config with
    | DistanceAuto => chosen = auto_distance
    | DistanceNumber percent =>
        (percent / 100 <= auto_distance -> chosen = percent / 100) /\
        (auto_distance < percent / 100 -> chosen = auto_distance)
    | DistanceOtherString _ => False
    end /\
    used = price_distance_percent chosen /\
    (0 <= chosen -> used <= chosen /\ chosen - 1 / 10000 < used) /\
    (forall bps, (0 <= bps)%Z -> chosen == inject_Z bps / 10000 -> used == chosen) /\
    (leverage = 5%Z -> chosen = auto_distance -> used == 0.08) /\
    (forall o,
       o ∈ _create_hedge_stop_loss_take_profit_orders cm positions market_index ->
       po_trigger_price o = plan_avg_entry_price plan * (1 - used)
       \/ po_trigger_price o = plan_avg_entry_price plan * (1 + used)).
Proof.
  intros Hplan.
  destruct (sl_tp_plan_distance cm positions market_index plan Hplan)
    as (pairs & pair_config & chosen & Hpairs & Hfind & Hchosen & Hused).
  exists pairs, pair_config, chosen. split; [exact Hpairs|]. split; [exact Hfind|].
  cbv zeta.
  split; [apply safe_max_distance_leveraged|].
  split; [apply safe_max_distance_unleveraged|].
  split.
  { destruct (pc_stop_take_distance pair_config) as [|percent|other].
    - now injection Hchosen as <-.
    - destruct (manual_distance_choice (pc_leverage pair_config) percent)
        as (d & Hd & Hkeep & Hcap).
      rewrite Hchosen in Hd. injection Hd as <-. split; assumption.
    - discriminate Hchosen. }
  split; [exact Hused|].
  split; [intros Hnonneg; rewrite Hused; now apply price_distance_percent_bounds|].
  split; [intros bps Hbps Hwhole; rewrite Hused;
          exact (price_distance_percent_whole chosen bps Hbps Hwhole)|].
  split.
  { intros Hfive ->. rewrite Hused, Hfive. reflexivity. }
  intros o Ho.
  exact (protective_orders_of_plan cm positions market_index plan o Hplan Ho).
Qed.

(** The rule at leverage 5 with a manual 20 percent: the distance chosen
    is the automatic one and the distance used is 0.08. *)
Lemma stop_distance_rule_witness :
  exists plan,
    sl_tp_plan (Scenario.loaded 5 (DistanceNumber 20))
      [Scenario.long_leg; Scenario.short_leg] 1 = Some plan /\
    plan_price_distance_percent plan == 0.08.
Proof.
  destruct (sl_tp_plan (Scenario.loaded 5 (DistanceNumber 20))
              [Scenario.long_leg; Scenario.short_leg] 1) as [plan|] eqn:Hplan;
    [|vm_compute in Hplan; discriminate Hplan].
  exists plan. split; [reflexivity|].
  destruct (stop_distance_rule _ _ _ plan Hplan)
    as (pairs & pair_config & chosen & Hpairs & Hfind & _ & _ & Hchoice & _ & _ & _
        & Hfive & _).
  vm_compute in Hpairs. injection Hpairs as <-.
  vm_compute in Hfind. injection Hfind as <-.
  cbn [pc_stop_take_distance pc_leverage] in Hchoice, Hfive.
  destruct Hchoice as [_ Hcap].
  apply (Hfive eq_refl). apply Hcap. reflexivity.
Defined.

(** C7 as stated fails: at leverage 3, with no manual setting, the
    distance used for the protective orders is 0.1333, which is not
    [0.8 * (0.5 / 3)]; the long leg's stop-loss triggers at the basis price
    less 13.33%. *)
Lemma stop_distance_is_cut_to_basis_points :
  exists plan,
    sl_tp_plan (Scenario.loaded 3 DistanceAuto)
      [Scenario.long_leg; Scenario.short_leg] 1 = Some plan /\
    plan_price_distance_percent plan == 0.1333 /\
    ~ plan_price_distance_percent plan == 0.8 * (0.5 / inject_Z 3) /\
    (po_trigger_price <$>
       head (_create_hedge_stop_loss_take_profit_orders (Scenario.loaded 3 DistanceAuto)
               [Scenario.long_leg; Scenario.short_leg] 1))
    = Some (plan_avg_entry_price plan * (1 - plan_price_distance_percent plan)).
Proof.
  eexists. split; [vm_compute; reflexivity|].
  split; [reflexivity|]. split; [discriminate | reflexivity].
Qed.

Lemma leg_orders_long market_index lower upper pos :
  is_long pos = true ->
  leg_protective_orders market_index lower upper pos =
    [ {| po_kind := StopLoss; po_account_index := sp_account_index pos;
         po_market_index := market_index; po_side := "sell";
         po_amount := sp_amount pos; po_trigger_price := lower;
         po_order_type := "limit" |};
      {| po_kind := TakeProfit; po_account_index := sp_account_index pos;
         po_market_index := market_index; po_side := "sell";
         po_amount := sp_amount pos; po_trigger_price := upper;
         po_order_type := "limit" |} ].
Proof. intros H. unfold leg_protective_orders. now rewrite H. Qed.

Lemma leg_orders_short market_index lower upper pos :
  is_long pos = false ->
  leg_protective_orders market_index lower upper pos =
    [ {| po_kind := StopLoss; po_account_index := sp_account_index pos;
         po_market_index := market_index; po_side := "buy";
         po_amount := sp_amount pos; po_trigger_price := upper;
         po_order_type := "limit" |};
      {| po_kind := TakeProfit; po_account_index := sp_account_index pos;
         po_market_index := market_index; po_side := "buy";
         po_amount := sp_amount pos; po_trigger_price := lower;
         po_order_type := "limit" |} ].
Proof. intros H. unfold leg_protective_orders. now rewrite H. Qed.

Lemma leg_orders_submitted cm positions market_index plan pos o :
  sl_tp_plan cm positions market_index = Some plan ->
  pos ∈ positions ->
  o ∈ leg_protective_orders market_index (hedge_lower_price plan)
        (hedge_upper_price plan) pos ->
  o ∈ _create_hedge_stop_loss_take_profit_orders cm positions market_index.
Proof.
  intros Hplan Hpos Ho. unfold _create_hedge_stop_loss_take_profit_orders.
  rewrite Hplan. apply list_elem_of_In, in_concat.
  eexists. split; [|apply list_elem_of_In; exact Ho].
  apply in_map. now apply list_elem_of_In.
Qed.

(** C8.  When the protective orders of a hedge are created with basis
    price [p] and distance [d], the orders of a long leg and of a short leg
    are all among the calls made, the long leg's stop-loss and the short
    leg's take-profit both trigger at [p * (1 - d)], and the long leg's
    take-profit and the short leg's stop-loss both trigger at
    [p * (1 + d)]. *)
Theorem protective_triggers_mirrored cm positions market_index plan long short :
  sl_tp_plan cm positions market_index = Some plan ->
  long ∈ positions -> short ∈ positions ->
  is_long long = true -> is_long short = false ->
  let p := plan_avg_entry_price plan in
  let d := plan_price_distance_percent plan in
  let orders := _create_hedge_stop_loss_take_profit_orders cm positions market_index in
  exists sl_long tp_long sl_short tp_short,
    leg_protective_orders market_index (hedge_lower_price plan) (hedge_upper_price plan)
      long = [sl_long; tp_long] /\
    leg_protective_orders market_index (hedge_lower_price plan) (hedge_upper_price plan)
      short = [sl_short; tp_short] /\
    sl_long ∈ orders /\ tp_long ∈ orders /\ sl_short ∈ orders /\ tp_short ∈ orders /\
    po_kind sl_long = StopLoss /\ po_kind tp_long = TakeProfit /\
    po_kind sl_short = StopLoss /\ po_kind tp_short = TakeProfit /\
    po_account_index sl_long = sp_account_index long /\
    po_account_index tp_long = sp_account_index long /\
    po_account_index sl_short = sp_account_index short /\
    po_account_index tp_short = sp_account_index short /\
    po_trigger_price sl_long = p * (1 - d) /\
    po_trigger_price tp_short = p * (1 - d) /\
    po_trigger_price tp_long = p * (1 + d) /\
    po_trigger_price sl_short = p * (1 + d).
Proof.
  intros Hplan Hlong Hshort Hl Hs. cbv zeta.
  pose proof (leg_orders_long market_index (hedge_lower_price plan)
                (hedge_upper_price plan) long Hl) as El.
  pose proof (leg_orders_short market_index (hedge_lower_price plan)
                (hedge_upper_price plan) short Hs) as Es.
  do 4 eexists. split; [exact El|]. split; [exact Es|].
  repeat split; try reflexivity.
  - eapply leg_orders_submitted; [exact Hplan | exact Hlong |]. rewrite El. set_solver.
  - eapply leg_orders_submitted; [exact Hplan | exact Hlong |]. rewrite El. set_solver.
  - eapply leg_orders_submitted; [exact Hplan | exact Hshort |]. rewrite Es. set_solver.
  - eapply leg_orders_submitted; [exact Hplan | exact Hshort |]. rewrite Es. set_solver.
Qed.

(** The rule at leverage 5 with the automatic distance: legs at 100000 and
    100200, basis 100100, distance 0.08. *)
Lemma protective_triggers_mirrored_witness :
  let orders := _create_hedge_stop_loss_take_profit_orders
                  (Scenario.loaded 5 DistanceAuto)
                  [Scenario.long_leg; Scenario.short_leg] 1 in
  exists sl_long tp_long sl_short tp_short,
    orders = [sl_long; tp_long; sl_short; tp_short] /\
    po_trigger_price sl_long = po_trigger_price tp_short /\
    po_trigger_price tp_long = po_trigger_price sl_short /\
    po_trigger_price sl_long == 92092 /\
    po_trigger_price tp_long == 108108.
Proof.
  cbv zeta.
  destruct (sl_tp_plan (Scenario.loaded 5 DistanceAuto)
              [Scenario.long_leg; Scenario.short_leg] 1) as [plan|] eqn:Hplan;
    [|vm_compute in Hplan; discriminate].
  destruct (protective_triggers_mirrored (Scenario.loaded 5 DistanceAuto)
              [Scenario.long_leg; Scenario.short_leg] 1 plan
              Scenario.long_leg Scenario.short_leg Hplan
              ltac:(left) ltac:(right; left) ltac:(reflexivity) ltac:(reflexivity))
    as (sl_long & tp_long & sl_short & tp_short & Hl & Hs & _ & _ & _ & _ & _ & _ & _
        & _ & _ & _ & _ & _ & Hsl & Htp & Htpl & Hsls).
  exists sl_long, tp_long, sl_short, tp_short.
  split.
  - unfold _create_hedge_stop_loss_take_profit_orders. rewrite Hplan.
    cbn [map concat]. rewrite Hl, Hs. reflexivity.
  - split; [now rewrite Hsl, Htp|]. split; [now rewrite Htpl, Hsls|].
    rewrite Hsl, Htpl. vm_compute in Hplan. injection Hplan as <-.
    split; reflexivity.
Defined.

End DistanceFacts.

(** ** Anomaly trackers *)

Module EngineFacts.

Import Engine.

Lemma strike_equal tracker current_time fingerprint :
  last_fingerprint tracker = fingerprint ->
  let r := strike tracker current_time fingerprint in
  consecutive_count r.2 = (consecutive_count tracker + 1)%Z /\
  first_detected r.2 = first_detected tracker /\
  last_fingerprint r.2 = fingerprint /\
  (r.1 = true <-> (3 <= consecutive_count r.2)%Z).
Proof.
  intros <-. unfold strike. rewrite String.eqb_refl. simpl.
  repeat split; try reflexivity.
  - intros H. now apply bool_decide_eq_true in H.
  - intros H. now apply bool_decide_eq_true.
Qed.

Lemma strike_different tracker current_time fingerprint :
  last_fingerprint tracker <> fingerprint ->
  let r := strike tracker current_time fingerprint in
  consecutive_count r.2 = 1%Z /\
  first_detected r.2 = current_time /\
  last_fingerprint r.2 = fingerprint /\
  r.1 = false.
Proof.
  intros H. unfold strike.
  destruct (String.eqb (last_fingerprint tracker) fingerprint) eqn:E.
  - apply String.eqb_eq in E. contradiction.
  - simpl. repeat split; reflexivity.
Qed.

(** The fingerprint tracker of the unprotected state on a pair that
    already has a record: an equal fingerprint adds one strike and the
    update answers [true] exactly when the strikes have reached 3; a
    different fingerprint resets the strikes to 1, restarts the clock and
    answers [false]. *)
Lemma sl_tp_missing_strikes self current_time pair_config status tracker :
  sl_tp_missing_tracker self !! pc_id pair_config = Some tracker ->
  let fingerprint := _create_sl_tp_missing_fingerprint status in
  let r := _handle_sl_tp_missing self current_time pair_config status in
  exists tracker',
    sl_tp_missing_tracker r.2 !! pc_id pair_config = Some tracker' /\
    (last_fingerprint tracker = fingerprint ->
       consecutive_count tracker' = (consecutive_count tracker + 1)%Z /\
       first_detected tracker' = first_detected tracker /\
       (r.1 = true <-> (3 <= consecutive_count tracker')%Z)) /\
    (last_fingerprint tracker <> fingerprint ->
       consecutive_count tracker' = 1%Z /\
       first_detected tracker' = current_time /\
       last_fingerprint tracker' = fingerprint /\
       r.1 = false).
Proof.
  intros Ht. cbv zeta. unfold _handle_sl_tp_missing. rewrite Ht.
  destruct (strike tracker current_time (_create_sl_tp_missing_fingerprint status))
    as [result tracker'] eqn:E.
  exists tracker'. simpl. rewrite lookup_insert_eq. split; [reflexivity|].
  split; intros H.
  - destruct (strike_equal tracker current_time _ H) as (Hc & Hf & _ & Hr).
    rewrite E in Hc, Hf, Hr. auto.
  - destruct (strike_different tracker current_time _ H) as (Hc & Hf & Hl & Hr).
    rewrite E in Hc, Hf, Hl, Hr. auto.
Qed.

(** The answer of [_handle_position_issues] and the count it leaves are
    those of the record and of the clock: what the venue shows plays no
    part in them. *)
Lemma position_issues_answer self current_time pair_config status
    exchange_positions size_imbalance :
  let tracker := position_issues_tracker self !! pc_id pair_config in
  let strikes := (default 0%Z (count <$> tracker) + 1)%Z in
  let first := default current_time (issues_first_detected <$> tracker) in
  let r := _handle_position_issues self current_time pair_config status
             exchange_positions size_imbalance in
  r.1 = bool_decide (3 <= strikes)%Z && bool_decide (seconds 30 <= current_time - first)%Z /\
  (r.1 = true -> position_issues_tracker r.2 !! pc_id pair_config = None) /\
  (r.1 = false ->
     exists tracker',
       position_issues_tracker r.2 !! pc_id pair_config = Some tracker' /\
       count tracker' = strikes /\ issues_first_detected tracker' = first).
Proof.
  cbv zeta. unfold _handle_position_issues.
  change min_detection_interval with (seconds 30).
  destruct (position_issues_tracker self !! pc_id pair_config) as [tracker|];
    cbn [default from_option id fmap option_fmap option_map count issues_first_detected];
    match goal with
    | |- context [if ?c then _ else _] => destruct c
    end;
    cbn [fst snd position_issues_tracker set_position_issues_tracker];
    (split; [reflexivity|]); (split; [|try discriminate]); try discriminate;
    intros _; try apply lookup_delete_eq;
    eexists; rewrite lookup_insert_eq; repeat split.
Qed.

(** The fingerprints of the two one-sided statuses. *)
Example fingerprint_one_sided :
  _create_position_status_fingerprint Scenario.one_sided = "1:True:1|2:False:0" /\
  _create_position_status_fingerprint Scenario.other_sided = "1:False:0|2:True:1" /\
  _create_sl_tp_missing_fingerprint Scenario.one_sided = "1:pos=True|2:pos=False".
Proof. repeat split; vm_compute; reflexivity. Qed.

(** C2, where the code departs from it.  The tracker that the overlap
    check consults, [_handle_position_issues], compares no fingerprint:
    from the engine that [__init__] builds, three detections for a pair
    are answered [false], [false] and, exactly when 30 seconds separate the
    third from the first, [true], whatever the venue shows at each of them.
    So with detections at 0, 20 and 40 seconds, the fingerprint of the
    second differing from that of the first and the third repeating the
    second, both statuses are inconsistent ones, the count stands at 2
    after the second detection instead of being reset to 1, and the third
    detection fires although it is only the second sighting of its
    fingerprint.  The tracker that does compare fingerprints,
    [_handle_position_inconsistency], answers [false] to every update on
    that engine, its attribute never having been created. *)
Theorem changed_fingerprint_does_not_reset_the_count :
  (forall pair_config d1 d2 d3,
     (Series.position_issues_detections Scenario.engine_after_init pair_config
        [d1; d2; d3]).1
     = [false; false;
        bool_decide (seconds 30 <= Series.detection_time d3 - Series.detection_time d1)%Z]) /\
  (let pair_config := Scenario.pair 1 DistanceAuto in
   let first_two :=
     Series.position_issues_detections Scenario.engine_after_init pair_config
       (take 2 Scenario.changing_detections) in
   let all_three :=
     Series.position_issues_detections Scenario.engine_after_init pair_config
       Scenario.changing_detections in
   Forall (fun d => _check_position_inconsistency (Series.detection_status d) = true)
     Scenario.changing_detections /\
   _create_position_status_fingerprint <$> (Series.detection_status <$> Scenario.changing_detections)
   = ["1:True:1|2:False:0"; "1:False:0|2:True:1"; "1:False:0|2:True:1"] /\
   first_two.1 = [false; false] /\
   count <$> (position_issues_tracker first_two.2 !! "btc_hedge") = Some 2%Z /\
   all_three.1 = [false; false; true] /\
   position_issues_tracker all_three.2 !! "btc_hedge" = None) /\
  (forall current_time pair_config status,
     _handle_position_inconsistency Scenario.engine_after_init current_time pair_config status
     = (false, Scenario.engine_after_init)).
Proof.
  split; [|split].
  - intros pair_config d1 d2 d3.
    cbn [Series.position_issues_detections].
    pose proof (position_issues_answer Scenario.engine_after_init
                  (Series.detection_time d1) pair_config (Series.detection_status d1)
                  (Series.detection_positions d1) (Series.detection_size_imbalance d1))
      as (Hanswer1 & _ & Hquiet1).
    destruct (_handle_position_issues Scenario.engine_after_init _ _ _ _ _)
      as [answer1 self1].
    cbn [fst snd] in Hanswer1, Hquiet1.
    change (position_issues_tracker Scenario.engine_after_init)
      with (∅ : gmap string IssuesTracker) in Hanswer1, Hquiet1.
    rewrite lookup_empty in Hanswer1, Hquiet1.
    cbn [default from_option id fmap option_fmap option_map] in Hanswer1, Hquiet1.
    assert (answer1 = false) as -> by (rewrite Hanswer1; reflexivity).
    destruct (Hquiet1 eq_refl) as (tracker1 & Hrecord1 & Hcount1 & Hfirst1).
    pose proof (position_issues_answer self1
                  (Series.detection_time d2) pair_config (Series.detection_status d2)
                  (Series.detection_positions d2) (Series.detection_size_imbalance d2))
      as (Hanswer2 & _ & Hquiet2).
    destruct (_handle_position_issues self1 _ _ _ _ _) as [answer2 self2].
    cbn [fst snd] in Hanswer2, Hquiet2.
    rewrite Hrecord1 in Hanswer2, Hquiet2.
    cbn [default from_option id fmap option_fmap option_map] in Hanswer2, Hquiet2.
    rewrite Hcount1 in Hanswer2, Hquiet2.
    assert (answer2 = false) as -> by (rewrite Hanswer2; reflexivity).
    destruct (Hquiet2 eq_refl) as (tracker2 & Hrecord2 & Hcount2 & Hfirst2).
    pose proof (position_issues_answer self2
                  (Series.detection_time d3) pair_config (Series.detection_status d3)
                  (Series.detection_positions d3) (Series.detection_size_imbalance d3))
      as (Hanswer3 & _ & _).
    destruct (_handle_position_issues self2 _ _ _ _ _) as [answer3 self3].
    cbn [fst snd] in Hanswer3.
    rewrite Hrecord2 in Hanswer3.
    cbn [default from_option id fmap option_fmap option_map] in Hanswer3.
    rewrite Hcount2, Hfirst2, Hfirst1 in Hanswer3.
    cbn [fst]. rewrite Hanswer3. reflexivity.
  - cbv zeta. split; [repeat constructor|].
    repeat split; vm_compute; reflexivity.
  - reflexivity.
Qed.

(** The fingerprint tracker [_handle_sl_tp_missing] at a record with two
    strikes: the same fingerprint once more is the third strike, and the
    update answers [true] two seconds after the first detection. *)
Example third_strike_of_the_fingerprint_tracker :
  let r := _handle_sl_tp_missing Scenario.engine_two_strikes (seconds 2)
             (Scenario.pair 1 DistanceAuto) Scenario.one_sided in
  exists tracker',
    sl_tp_missing_tracker r.2 !! "btc_hedge" = Some tracker' /\
    consecutive_count tracker' = 3%Z /\ first_detected tracker' = 0%Z /\ r.1 = true.
Proof.
  destruct (sl_tp_missing_strikes Scenario.engine_two_strikes (seconds 2)
              (Scenario.pair 1 DistanceAuto) Scenario.one_sided
              (Scenario.two_strikes
                 (_create_sl_tp_missing_fingerprint Scenario.one_sided))
              ltac:(reflexivity))
    as (tracker' & Hlookup & Hequal & _).
  destruct (Hequal ltac:(reflexivity)) as (Hcount & Hfirst & Hfires).
  exists tracker'. split; [exact Hlookup|]. split; [exact Hcount|].
  split; [exact Hfirst|].
  apply Hfires. rewrite Hcount. vm_compute. discriminate.
Qed.

End EngineFacts.

(** ** Open sizing *)

Module SizingFacts.

Import Strategy DesignDocument.
Local Open Scope Q_scope.

Lemma odict_get_set_eq {A} (d : ODict.t A) k v : ODict.get (ODict.set d k v) k = Some v.
Proof.
  induction d as [|[k' v'] d IH]; simpl.
  - now rewrite Z.eqb_refl.
  - destruct (Z.eqb k' k) eqn:E; simpl.
    + now rewrite Z.eqb_refl.
    + now rewrite E.
Qed.

Lemma odict_get_set_ne {A} (d : ODict.t A) k k' v :
  k <> k' -> ODict.get (ODict.set d k v) k' = ODict.get d k'.
Proof.
  intros Hne. induction d as [|[k0 v0] d IH]; simpl.
  - destruct (Z.eqb k k') eqn:E; [apply Z.eqb_eq in E; contradiction | reflexivity].
  - destruct (Z.eqb k0 k) eqn:E; simpl.
    + apply Z.eqb_eq in E. subst k0.
      destruct (Z.eqb k k') eqn:E'; [apply Z.eqb_eq in E'; contradiction | reflexivity].
    + destruct (Z.eqb k0 k'); [reflexivity | exact IH].
Qed.

Lemma odict_set_nonempty {A} (d : ODict.t A) k v : ODict.set d k v <> [].
Proof. destruct d as [|[k' v'] d]; simpl; [|destruct (Z.eqb k' k)]; discriminate. Qed.

Lemma foldl_set_get am accounts (d : ODict.t Q) a :
  ODict.get
    (foldl (fun balances account_index =>
              ODict.set balances account_index (balance_or_zero am account_index))
           d accounts) a
  = if decide (a ∈ accounts) then Some (balance_or_zero am a) else ODict.get d a.
Proof.
  revert d. induction accounts as [|x xs IH]; intros d; simpl.
  - destruct (decide (a ∈ [])) as [H|]; [inversion H | reflexivity].
  - rewrite IH. destruct (decide (a ∈ xs)) as [Hin|Hnin].
    + destruct (decide (a ∈ x :: xs)) as [|Hn]; [reflexivity|].
      exfalso. apply Hn. now right.
    + destruct (decide (x = a)) as [->|Hne].
      * rewrite odict_get_set_eq.
        destruct (decide (a ∈ a :: xs)) as [|Hn]; [reflexivity|].
        exfalso. apply Hn. now left.
      * rewrite odict_get_set_ne by exact Hne.
        destruct (decide (a ∈ x :: xs)) as [Hin|]; [|reflexivity].
        apply elem_of_cons in Hin as [->|Hin]; contradiction.
Qed.

Lemma foldl_set_nonempty am accounts (d : ODict.t Q) :
  d <> [] ->
  foldl (fun balances account_index =>
           ODict.set balances account_index (balance_or_zero am account_index))
        d accounts <> [].
Proof.
  revert d. induction accounts as [|x xs IH]; intros d Hd; simpl; [exact Hd|].
  apply IH, odict_set_nonempty.
Qed.

Lemma account_balances_nonempty am accounts :
  accounts <> [] -> _get_account_balances am accounts <> [].
Proof.
  destruct accounts as [|x xs]; [congruence|]. intros _.
  unfold _get_account_balances. simpl. apply foldl_set_nonempty. discriminate.
Qed.

Lemma balance_or_zero_value am a :
  balance_or_zero am a == Accounts.get_account_balance am a.
Proof.
  unfold balance_or_zero, Dec.truthy.
  destruct (Dec.eq (Accounts.get_account_balance am a) 0) eqn:E; simpl; [|reflexivity].
  apply DecFacts.eq_true in E. now symmetry.
Qed.

Lemma min_proper a a' b b' : a == a' -> b == b' -> Dec.min a b == Dec.min a' b'.
Proof. intros Ha Hb. rewrite !DecFacts.min_spec. now rewrite Ha, Hb. Qed.

Lemma foldl_min_proper xs a a' : a == a' -> foldl Dec.min a xs == foldl Dec.min a' xs.
Proof.
  revert a a'. induction xs as [|x xs IH]; intros a a' H; simpl; [exact H|].
  apply IH. now apply min_proper.
Qed.

(** The capacity [max(0, b - c)] is monotone in [b], so it commutes with
    taking the minimum. *)
Lemma capacity_min c a b :
  Dec.max 0 (Dec.min a b - c) == Dec.min (Dec.max 0 (a - c)) (Dec.max 0 (b - c)).
Proof.
  unfold Dec.max, Dec.min.
  destruct (Dec.lt b a) eqn:E1; destruct (Dec.lt 0 (a - c)) eqn:E2;
    destruct (Dec.lt 0 (b - c)) eqn:E3; rewrite ?E1, ?E2, ?E3;
    repeat match goal with
           | |- context [Dec.lt ?x ?y] => let E := fresh "E" in destruct (Dec.lt x y) eqn:E
           end;
    repeat match goal with
           | H : Dec.lt _ _ = true |- _ => apply DecFacts.lt_true in H
           | H : Dec.lt _ _ = false |- _ => apply DecFacts.lt_false in H
           end;
    lra.
Qed.

Lemma capacity_foldl_min c xs a :
  Dec.max 0 (foldl Dec.min a xs - c)
  == foldl Dec.min (Dec.max 0 (a - c)) (map (fun b => Dec.max 0 (b - c)) xs).
Proof.
  revert a. induction xs as [|x xs IH]; intros a; simpl; [reflexivity|].
  rewrite IH. apply foldl_min_proper, capacity_min.
Qed.

Lemma effective_leverage_ge_1 pair_config : (1 <= effective_leverage pair_config)%Z.
Proof.
  unfold effective_leverage.
  destruct (pc_leverage pair_config <? 1)%Z eqn:E; [lia|].
  apply Z.ltb_ge in E. exact E.
Qed.

(** The figure read for an account is its balance (its collateral), not
    its available balance. *)
Lemma account_balances_read am accounts a :
  a ∈ accounts ->
  exists b,
    ODict.get (_get_account_balances am accounts) a = Some b /\
    b == Accounts.get_account_balance am a.
Proof.
  intros Ha. exists (balance_or_zero am a). split.
  - unfold _get_account_balances. rewrite foldl_set_get.
    destruct (decide (a ∈ accounts)); [reflexivity | contradiction].
  - apply balance_or_zero_value.
Qed.

(** C9, as the code has it.  From the balance figures read for the
    participating accounts, the shared per-account margin is the minimum
    over those figures of [max(0, figure - minBalanceRequired)]; the
    notional of a
    leg is that margin times the leverage in effect (the configured
    leverage, or 1 when the configured value is below 1); the quantity of a
    leg is the notional divided by the market price just read.  With
    figures 1000 and 800, a minimum balance of 100 and leverage 1 the
    notional is 700. *)
Theorem open_sizing_rule env pair_config accounts :
  accounts <> [] ->
  let balances := _get_account_balances (open_account_manager env) accounts in
  let min_balance_required := rl_min_balance (pc_risk_limits pair_config) in
  let s := open_sizing env pair_config accounts in
  (exists margin,
     Dec.min_list (map (fun b => Dec.max 0 (b - min_balance_required))
                       (ODict.values balances)) = Some margin /\
     sz_margin_per_account s == margin) /\
  sz_actual_position_per_account s
    == sz_margin_per_account s * inject_Z (effective_leverage pair_config) /\
  (forall current_price, ~ current_price == 0 ->
     exists quantity,
       amount_per_account s current_price = Some quantity /\
       quantity == sz_actual_position_per_account s / current_price) /\
  sz_actual_position_per_account
    (sizing_of [(1%Z, 1000); (2%Z, 800)] (Scenario.pair 1 DistanceAuto)) == 700.
Proof.
  intros Hne. cbv zeta. split; [|split; [|split]].
  - unfold open_sizing, sizing_of; simpl.
    pose proof (account_balances_nonempty (open_account_manager env) accounts Hne) as Hb.
    unfold ODict.values.
    destruct (_get_account_balances (open_account_manager env) accounts)
      as [|[k b] rest]; [congruence|]. simpl.
    eexists. split; [reflexivity|]. apply capacity_foldl_min.
  - unfold open_sizing, sizing_of; simpl.
    destruct (1 <? effective_leverage pair_config)%Z eqn:E; [reflexivity|].
    apply Z.ltb_ge in E. pose proof (effective_leverage_ge_1 pair_config).
    replace (effective_leverage pair_config) with 1%Z by lia. ring.
  - intros price Hprice. unfold amount_per_account.
    rewrite DecFacts.div_Some by exact Hprice. eexists. split; reflexivity.
  - reflexivity.
Qed.

(** The rule at the funded accounts, leverage 1, market price 50. *)
Lemma open_sizing_rule_witness :
  let s := open_sizing (Scenario.open_env Scenario.funded 50 50 50 50 50)
             (Scenario.pair 1 DistanceAuto) [1%Z; 2%Z] in
  sz_actual_position_per_account s == 700 /\
  exists quantity, amount_per_account s 50 = Some quantity /\ quantity == 14.
Proof.
  destruct (open_sizing_rule (Scenario.open_env Scenario.funded 50 50 50 50 50)
              (Scenario.pair 1 DistanceAuto) [1%Z; 2%Z] ltac:(discriminate))
    as (_ & Hnotional & Hquantity & _).
  split.
  - rewrite Hnotional. reflexivity.
  - destruct (Hquantity 50 ltac:(discriminate)) as (quantity & Hq & Hv).
    exists quantity. split; [exact Hq|]. rewrite Hv. reflexivity.
Defined.

(** C9 as stated fails, in two ways.  It sizes from the available
    balance, the code from the balance: with 1000 of which 500 available on
    account 1, 800 on account 2 and a minimum balance of 100, the formula of
    the design document gives a shared margin of 400 and the code one of
    700.  And it multiplies by the configured leverage, the code by the
    leverage in effect: with a configured leverage of 0 and the accounts
    fully available the formula gives a notional of 0 and the code one of
    700. *)
Lemma sizing_reads_balance_not_available_balance :
  (let pair_config := Scenario.pair 1 DistanceAuto in
   let env := Scenario.open_env Scenario.partly_available 50 50 50 50 50 in
   exists spec_margin,
     spec_shared_margin Scenario.partly_available
       (rl_min_balance (pc_risk_limits pair_config)) [1%Z; 2%Z] = Some spec_margin /\
     spec_margin == 400 /\
     sz_margin_per_account (open_sizing env pair_config [1%Z; 2%Z]) == 700 /\
     ~ sz_margin_per_account (open_sizing env pair_config [1%Z; 2%Z]) == spec_margin) /\
  (let pair_config := Scenario.pair 0 DistanceAuto in
   let env := Scenario.open_env Scenario.funded 50 50 50 50 50 in
   exists notional,
     spec_notional Scenario.funded pair_config [1%Z; 2%Z] = Some notional /\
     notional == 0 /\
     sz_actual_position_per_account (open_sizing env pair_config [1%Z; 2%Z]) == 700 /\
     ~ sz_actual_position_per_account (open_sizing env pair_config [1%Z; 2%Z])
       == notional).
Proof.
  cbv zeta. split.
  - eexists. split; [reflexivity|].
    split; [reflexivity|]. split; [reflexivity|]. vm_compute. discriminate.
  - eexists. split; [reflexivity|].
    split; [reflexivity|]. split; [reflexivity|]. vm_compute. discriminate.
Qed.

End SizingFacts.

(** ** Dual-leg open *)

Module OpenFacts.

Import Strategy.
Local Open Scope Q_scope.

Lemma alloc_lookup self hp :
  objects (alloc self hp).2 !! (alloc self hp).1 = Some hp.
Proof. unfold alloc. simpl. apply lookup_insert_eq. Qed.

Lemma alloc_frame self hp :
  config_manager (alloc self hp).2 = config_manager self /\
  active_positions (alloc self hp).2 = active_positions self.
Proof. split; reflexivity. Qed.

#[local] Opaque alloc.

(** Name the reference and the strategy that [alloc] returns, with the
    fact that the reference holds the object. *)
Ltac destruct_alloc H :=
  match goal with
  | |- context [alloc ?s ?h] =>
      let ref := fresh "ref" in
      let self' := fresh "self'" in
      pose proof (alloc_lookup s h) as H;
      destruct (alloc s h) as [ref self']; simpl in H
  end.


Lemma validate_two_orders orders amount price :
  _validate_hedge_consistency orders amount price = true -> length orders = 2%nat.
Proof.
  unfold _validate_hedge_consistency.
  destruct (bool_decide (length orders = 2%nat)) eqn:E; simpl; [|discriminate].
  intros _. now apply bool_decide_eq_true in E.
Qed.

Lemma no_cancel_in_leg_orders
    (tasks : list (CallResult (option OrderInfo) * list Effect)) :
  Forall (fun t => forallb is_leg_order t.2 = true) tasks ->
  existsb is_cancel (concat tasks.*2) = false.
Proof.
  induction 1 as [|t tasks Ht _ IH]; csimpl; [reflexivity|].
  rewrite existsb_app, IH, orb_false_r.
  destruct t as [r effects]. simpl in *. clear IH.
  induction effects as [|e effects IH]; simpl in *; [reflexivity|].
  apply andb_true_iff in Ht as [He Ht]. rewrite (IH Ht), orb_false_r.
  destruct e; simpl in *; congruence.
Qed.

Lemma leg_tasks_only_leg_orders env pair_config assignments amount :
  Forall (fun t => forallb is_leg_order t.2 = true)
         (leg_tasks env pair_config assignments amount).
Proof.
  unfold leg_tasks. apply Forall_map. apply Forall_forall.
  intros [account [side role]] _. unfold _create_precise_hedge_order.
  destruct (open_has_signer_clients env); reflexivity.
Qed.

Lemma no_cancel_in_protective orders :
  existsb is_cancel (map SubmitProtectiveOrder orders) = false.
Proof. induction orders as [|o orders IH]; simpl; [reflexivity | exact IH]. Qed.

(** The leg orders are the first calls of the settlement, in task order. *)
Lemma settle_open_effects self env pair_config accounts trigger_price hedge_position
    sizing amount unified_price tasks :
  exists rest,
    out_effects (settle_open self env pair_config accounts trigger_price hedge_position
                   sizing amount unified_price tasks)
    = concat tasks.*2 ++ rest.
Proof.
  unfold settle_open.
  destruct (classify_results _ accounts 0) as [successful failed].
  destruct (negb (bool_decide (failed = [])) || _); simpl.
  - destruct_alloc Hl. simpl. eauto.
  - destruct_alloc Hl.
    destruct (bool_decide (positions_for_sl_tp _ _ _ _ = [])); simpl.
    + exists []. now rewrite app_nil_r.
    + eauto.
Qed.

Lemma foldl_nonempty {A B} (f : list A -> B -> list A) (l : list B) (d : list A) :
  (forall d x, f d x <> []) -> d <> [] -> foldl f d l <> [].
Proof.
  intros Hf. revert d. induction l as [|x l IH]; intros d Hd; simpl; [exact Hd|].
  apply IH, Hf.
Qed.

Lemma foldl_nonempty_from_first {A B} (f : list A -> B -> list A) (x : B) (l : list B) :
  (forall d x, f d x <> []) -> foldl f [] (x :: l) <> [].
Proof. intros Hf. simpl. apply foldl_nonempty; [exact Hf | apply Hf]. Qed.

(** At least two accounts always get a direction. *)
Lemma rotated_assignments_nonempty self accounts pair_id :
  (2 <= length accounts)%nat ->
  (_get_rotated_direction_assignments self accounts pair_id).1 <> [].
Proof.
  intros Hlen. unfold _get_rotated_direction_assignments.
  destruct (bool_decide (length accounts < 2)%nat) eqn:E;
    [apply bool_decide_eq_true in E; lia|].
  destruct accounts as [|first [|second others]]; simpl in Hlen; try lia.
  cbv zeta.
  match goal with
  | |- context [foldl ?f [] (first :: second :: others)] =>
      set (rotated := foldl f [] (first :: second :: others))
  end.
  assert (Hrot : rotated <> []).
  { subst rotated. apply foldl_nonempty_from_first.
    intros d x. apply SizingFacts.odict_set_nonempty. }
  destruct (negb (has_side "buy" (sides_of rotated))
            || negb (has_side "sell" (sides_of rotated))); simpl; [|exact Hrot].
  apply foldl_nonempty; [|apply SizingFacts.odict_set_nonempty].
  intros d [i account]. apply SizingFacts.odict_set_nonempty.
Qed.

Lemma leg_order_sent env pair_config assignments amount account side role :
  open_has_signer_clients env = true ->
  (account, (side, role)) ∈ assignments ->
  SubmitMarketOrder account (pc_market_index pair_config) side amount
    ∈ concat (leg_tasks env pair_config assignments amount).*2.
Proof.
  intros Hsigner Hin. apply list_elem_of_In, in_concat.
  exists [SubmitMarketOrder account (pc_market_index pair_config) side amount].
  split; [|now left].
  apply list_elem_of_In, list_elem_of_fmap.
  exists (_create_precise_hedge_order env account (pc_market_index pair_config)
            side amount).
  split.
  - unfold _create_precise_hedge_order. now rewrite Hsigner.
  - unfold leg_tasks. apply list_elem_of_fmap.
    exists (account, (side, role)). split; [reflexivity | exact Hin].
Qed.

Lemma rotation_keeps_config_manager self accounts pair_id :
  config_manager (_get_rotated_direction_assignments self accounts pair_id).2
  = config_manager self.
Proof.
  unfold _get_rotated_direction_assignments.
  destruct (bool_decide (length accounts < 2)%nat); reflexivity.
Qed.

(** The metadata written for two entry prices. *)
Lemma filled_metadata_two metadata sizing accounts trigger_price unified_price
    entry_prices positions orders_filled :
  length entry_prices = 2%nat ->
  let written := filled_metadata metadata sizing accounts trigger_price unified_price
                   entry_prices positions orders_filled in
  let diff := price_diff entry_prices in
  written !! "price_consistency_verified" = Some (MetaBool true) /\
  written !! "actual_price_diff_percent" = Some (MetaNum (diff * 100)) /\
  (strict_tolerance < diff ->
     written !! "market_order_price_warning" = Some (MetaBool true) /\
     written !! "price_diff_percent" = Some (MetaNum (diff * 100))).
Proof.
  intros Hlen. cbv zeta. unfold filled_metadata. rewrite Hlen.
  rewrite (bool_decide_eq_true_2 (2 <= 2)%nat) by lia. cbn [andb].
  split; [|split].
  - repeat (rewrite lookup_insert_ne by discriminate). apply lookup_insert_eq.
  - repeat (rewrite lookup_insert_ne by discriminate). apply lookup_insert_eq.
  - intros Hdiff. apply DecFacts.gt_true in Hdiff. rewrite Hdiff. split.
    + repeat (rewrite lookup_insert_ne by discriminate). apply lookup_insert_eq.
    + repeat (rewrite lookup_insert_ne by discriminate). apply lookup_insert_eq.
Qed.

(** C1, as the code has it.  Take an open of at least two accounts that
    gets as far as sending the leg orders.  If every leg comes back with
    an order and the orders pass the hedge-consistency check (two orders,
    one buy and one sell, of the expected amount), then the HedgePosition
    registered under the position id is ACTIVE, not FAILED, with one leg
    per order, whatever the divergence of the entry prices.  The
    divergence is recorded under [actual_price_diff_percent]; when it is
    above the 2% tolerance it is recorded under [price_diff_percent] as
    well and [market_order_price_warning] is set, and that is all: nothing
    is cancelled, and the calls made are the leg orders followed by the
    protective orders of the recorded legs.  (When no leg is left to
    protect, the call answers [None], the position staying ACTIVE and
    registered.) *)
Theorem open_divergence_only_warns
    self env pair_config accounts trigger_price market_data amount filled :
  (2 <= length accounts)%nat ->
  open_market_data env = Some market_data ->
  let sizing := open_sizing env pair_config accounts in
  amount_per_account sizing (md_price market_data) = Some amount ->
  let unified_price :=
    unified_price_or_current (open_price_sources env) (md_price market_data) in
  let assignments :=
    (_get_rotated_direction_assignments self accounts (pc_id pair_config)).1 in
  let tasks := leg_tasks env pair_config assignments amount in
  let results := _execute_synchronized_orders (open_gather_timeout env) tasks.*1 in
  classify_results results accounts 0 = (filled, []) ->
  _validate_hedge_consistency filled amount unified_price = true ->
  let out := execute_hedge_open self env pair_config accounts trigger_price in
  let positions := map (position_of_order pair_config sizing trigger_price) filled in
  let diff := price_diff (map (actual_entry_price trigger_price) filled) in
  let for_sl_tp := positions_for_sl_tp env pair_config accounts positions in
  let protective :=
    _create_hedge_stop_loss_take_profit_orders (config_manager self) for_sl_tp
      (pc_market_index pair_config) in
  exists ref hp,
    active_positions (out_strategy out) !! position_id_of pair_config (open_now env)
      = Some ref /\
    objects (out_strategy out) !! ref = Some hp /\
    hp_status hp = ACTIVE /\
    hp_status hp <> FAILED /\
    hp_positions hp = positions /\
    length (hp_positions hp) = 2%nat /\
    hp_metadata hp !! "price_consistency_verified" = Some (MetaBool true) /\
    hp_metadata hp !! "actual_price_diff_percent" = Some (MetaNum (diff * 100)) /\
    (strict_tolerance < diff ->
       hp_metadata hp !! "market_order_price_warning" = Some (MetaBool true) /\
       hp_metadata hp !! "price_diff_percent" = Some (MetaNum (diff * 100))) /\
    existsb is_cancel (out_effects out) = false /\
    (for_sl_tp <> [] ->
       out_result out = Some ref /\
       out_effects out = concat tasks.*2 ++ map SubmitProtectiveOrder protective) /\
    (for_sl_tp = [] -> out_result out = None /\ out_effects out = concat tasks.*2).
Proof.
  intros Hlen Hmd. cbv zeta. intros Hamount Hclass Hvalid.
  unfold execute_hedge_open.
  rewrite (bool_decide_eq_false_2 (length accounts < 2)%nat) by lia.
  rewrite Hmd, Hamount.
  pose proof (rotation_keeps_config_manager self accounts (pc_id pair_config)) as Hcm.
  destruct (_get_rotated_direction_assignments self accounts (pc_id pair_config))
    as [assignments self'].
  cbn [fst snd] in Hclass, Hcm |- *.
  pose proof (leg_tasks_only_leg_orders env pair_config assignments amount) as Hlegs.
  unfold settle_open. rewrite Hclass. rewrite Hvalid.
  rewrite andb_false_r. cbn [negb orb bool_decide]. rewrite bool_decide_eq_true_2 by reflexivity.
  cbn [negb orb].
  pose proof (validate_two_orders _ _ _ Hvalid) as Htwo.
  match goal with
  | |- context [alloc ?s ?h] =>
      pose proof (alloc_lookup s h) as Hl;
      pose proof (alloc_frame s h) as [Hc _];
      destruct (alloc s h) as [ref self'']
  end.
  cbn [fst snd] in Hl, Hc.
  rewrite <- Hcm, <- Hc.
  set (positions := map (position_of_order pair_config
                           (open_sizing env pair_config accounts) trigger_price) filled).
  set (for_sl_tp := positions_for_sl_tp env pair_config accounts positions).
  destruct (filled_metadata_two
              (hp_metadata (new_hedge_position pair_config accounts trigger_price
                              (open_now env)))
              (open_sizing env pair_config accounts) accounts trigger_price
              (unified_price_or_current (open_price_sources env) (md_price market_data))
              (map (actual_entry_price trigger_price) filled) positions
              (open_orders_filled env))
    as (Hverified & Hrecorded & Hwarned); [now rewrite length_map|].
  exists ref. eexists.
  destruct (bool_decide (for_sl_tp = [])) eqn:Enone;
    [apply bool_decide_eq_true in Enone | apply bool_decide_eq_false in Enone];
    cbn [out_result out_strategy out_effects active_positions objects
         set_active_positions new_hedge_position hp_id];
    (split; [apply lookup_insert_eq|]);
    (split; [exact Hl|]);
    cbn [hp_status hp_positions hp_metadata set_status set_positions set_metadata
         set_updated_at];
    (split; [reflexivity|]); (split; [discriminate|]);
    (split; [reflexivity|]);
    (split; [subst positions; now rewrite length_map|]);
    (split; [exact Hverified|]); (split; [exact Hrecorded|]);
    (split; [exact Hwarned|]).
  - split; [now apply no_cancel_in_leg_orders|].
    split; [intros Hsome; contradiction|]. intros _. split; reflexivity.
  - split.
    { rewrite existsb_app, no_cancel_in_protective, orb_false_r.
      now apply no_cancel_in_leg_orders. }
    split; [|intros Hnone; contradiction]. intros _. split; reflexivity.
Qed.

(** C1 as stated fails: the legs fill at 102.50 and 100.00, a divergence
    of 2.5%, and the position is ACTIVE, not FAILED; nothing is
    cancelled. *)
Lemma divergent_fills_leave_position_active :
  let out := execute_hedge_open (Scenario.idle (Scenario.loaded 1 DistanceAuto))
               (Scenario.open_env Scenario.funded 101.25 101.2 101.3 102.5 100)
               (Scenario.pair 1 DistanceAuto) [1%Z; 2%Z] 101.25 in
  exists hp,
    returned_position out = Some hp /\
    map pos_entry_price (hp_positions hp) = [102.5; 100] /\
    price_diff [102.5; 100] == 0.025 /\
    Dec.gt (price_diff [102.5; 100]) strict_tolerance = true /\
    hp_status hp = ACTIVE /\
    hp_status hp <> FAILED /\
    existsb is_cancel (out_effects out) = false.
Proof.
  cbv zeta. eexists. split; [vm_compute; reflexivity|].
  repeat split; try reflexivity. discriminate.
Qed.

(** The rule at the same attempt: the position is registered and ACTIVE,
    the divergence of 2.5% is recorded with the warning, and the four
    protective orders follow the two leg orders. *)
Lemma open_divergence_only_warns_witness :
  let self := Scenario.idle (Scenario.loaded 1 DistanceAuto) in
  let env := Scenario.open_env Scenario.funded 101.25 101.2 101.3 102.5 100 in
  let pair_config := Scenario.pair 1 DistanceAuto in
  let out := execute_hedge_open self env pair_config [1%Z; 2%Z] 101.25 in
  exists ref hp,
    active_positions (out_strategy out) !! position_id_of pair_config (open_now env)
      = Some ref /\
    objects (out_strategy out) !! ref = Some hp /\
    hp_status hp = ACTIVE /\
    hp_metadata hp !! "market_order_price_warning" = Some (MetaBool true) /\
    (exists recorded,
       hp_metadata hp !! "price_diff_percent" = Some (MetaNum recorded) /\
       recorded == 2.5) /\
    out_result out = Some ref /\
    map is_leg_order (out_effects out) = [true; true; false; false; false; false] /\
    existsb is_cancel (out_effects out) = false.
Proof.
  cbv zeta.
  set (self := Scenario.idle (Scenario.loaded 1 DistanceAuto)).
  set (env := Scenario.open_env Scenario.funded 101.25 101.2 101.3 102.5 100).
  set (pair_config := Scenario.pair 1 DistanceAuto).
  set (amount := 700 / 101.25).
  set (filled :=
         (classify_results
            (_execute_synchronized_orders (open_gather_timeout env)
               (leg_tasks env pair_config
                  (_get_rotated_direction_assignments self [1%Z; 2%Z]
                     (pc_id pair_config)).1 amount).*1)
            [1%Z; 2%Z] 0).1).
  destruct (open_divergence_only_warns self env pair_config [1%Z; 2%Z] 101.25
              (Scenario.market 101.25) amount filled)
    as (ref & hp & Hreg & Hobj & Hstatus & _ & _ & _ & _ & _ & Hwarned & Hcancel
        & Hsent & _).
  - simpl. lia.
  - reflexivity.
  - reflexivity.
  - vm_compute. reflexivity.
  - vm_compute. reflexivity.
  - destruct Hwarned as [Hwarning Hdiff]; [vm_compute; reflexivity|].
    destruct Hsent as [Hresult Heffects]; [vm_compute; discriminate|].
    exists ref, hp. split; [exact Hreg|]. split; [exact Hobj|].
    split; [exact Hstatus|]. split; [exact Hwarning|].
    split; [eexists; split; [exact Hdiff | vm_compute; reflexivity]|].
    split; [exact Hresult|]. split; [|exact Hcancel].
    rewrite Heffects. vm_compute. reflexivity.
Defined.

Lemma settle_open_sends_legs self env pair_config accounts trigger_price hedge_position
    sizing amount unified_price assignments account side role :
  open_has_signer_clients env = true ->
  (account, (side, role)) ∈ assignments ->
  SubmitMarketOrder account (pc_market_index pair_config) side amount
    ∈ out_effects (settle_open self env pair_config accounts trigger_price
                     hedge_position sizing amount unified_price
                     (leg_tasks env pair_config assignments amount)).
Proof.
  intros Hsigner Hin.
  destruct (settle_open_effects self env pair_config accounts trigger_price
              hedge_position sizing amount unified_price
              (leg_tasks env pair_config assignments amount)) as [rest ->].
  apply elem_of_app. left. now apply leg_order_sent with role.
Qed.

(** The fallback of the open.  When the best bid and ask are more than
    0.5% of the market price apart (a constant of the routine), the
    reference-price routine returns nothing.  [execute_hedge_open] does
    not abort on that: it takes the market price it has just read for
    sizing as the unified price and sends one leg order per direction
    assignment. *)
Lemma wide_spread_falls_back_to_market_price :
  (forall src market_data book bid bids ask asks bid_price ask_price spread,
     select_source src = UseBook market_data (Some book) ->
     ob_bids book = bid :: bids ->
     ob_asks book = ask :: asks ->
     bid !! "price" = Some bid_price ->
     ask !! "price" = Some ask_price ->
     spread_percent market_data bid_price ask_price = Some spread ->
     max_spread_for_entry < spread ->
     _get_unified_execution_price src = None) /\
  (forall self env pair_config accounts trigger_price market_data amount,
     (2 <= length accounts)%nat ->
     open_market_data env = Some market_data ->
     amount_per_account (open_sizing env pair_config accounts) (md_price market_data)
       = Some amount ->
     open_has_signer_clients env = true ->
     _get_unified_execution_price (open_price_sources env) = None ->
     let out := execute_hedge_open self env pair_config accounts trigger_price in
     let assignments :=
       (_get_rotated_direction_assignments self accounts (pc_id pair_config)).1 in
     unified_price_or_current (open_price_sources env) (md_price market_data)
       = md_price market_data /\
     assignments <> [] /\
     (forall account side role,
        (account, (side, role)) ∈ assignments ->
        SubmitMarketOrder account (pc_market_index pair_config) side amount
          ∈ out_effects out)).
Proof.
  split.
  - intros src md book bid bids ask asks b a spread Hsrc Hbids Hasks Hb Ha Hs Hwide.
    unfold _get_unified_execution_price. rewrite Hsrc.
    unfold price_from_sources. rewrite Hbids, Hasks, Hb, Ha. simpl. rewrite Hs. simpl.
    apply DecFacts.gt_true in Hwide. now rewrite Hwide.
  - intros self env pair_config accounts trigger_price md amount
           Hlen Hmd Hamount Hsigner Hnone. cbv zeta.
    split; [unfold unified_price_or_current; now rewrite Hnone|].
    split; [now apply rotated_assignments_nonempty|].
    intros account side role Hin. unfold execute_hedge_open.
    destruct (bool_decide (length accounts < 2)%nat) eqn:E;
      [apply bool_decide_eq_true in E; lia|].
    rewrite Hmd, Hamount.
    destruct (_get_rotated_direction_assignments self accounts (pc_id pair_config))
      as [assignments self'].
    now apply settle_open_sends_legs with role.
Qed.

(** C5, where the code departs from it.  With the best bid at 100, the
    best ask at 102 and the market price at 101, the spread is 2/101 of
    the market price, above the routine's 0.5% and above the 1% a pair is
    configured with by default.  The reference-price routine returns
    nothing, and the open attempt goes on all the same: it takes 101 as
    the unified price, sends both leg orders, and ends with an ACTIVE
    position that is registered. *)
Theorem wide_spread_does_not_abort_the_open :
  let env := Scenario.open_env Scenario.funded 101 100 102 102 100 in
  let self := Scenario.idle (Scenario.loaded 1 DistanceAuto) in
  let out := execute_hedge_open self env (Scenario.pair 1 DistanceAuto) [1%Z; 2%Z] 101 in
  (exists spread,
     spread_percent (Scenario.market 101) 100 102 = Some spread /\
     spread == 2 / 101 /\
     max_spread_for_entry < spread /\
     max_spread_percent_default < spread) /\
  _get_unified_execution_price (open_price_sources env) = None /\
  unified_price_or_current (open_price_sources env) 101 = 101 /\
  filter (fun e => is_leg_order e = true) (out_effects out)
    = [SubmitMarketOrder 1 1 "buy" (700 / 101);
       SubmitMarketOrder 2 1 "sell" (700 / 101)] /\
  (exists hp ref,
     returned_position out = Some hp /\
     hp_status hp = ACTIVE /\
     length (hp_positions hp) = 2%nat /\
     hp_metadata hp !! "unified_price" = Some (MetaNum 101) /\
     active_positions (out_strategy out) !! hp_id hp = Some ref /\
     objects (out_strategy out) !! ref = Some hp).
Proof.
  cbv zeta. split; [eexists; repeat split; reflexivity|].
  split; [reflexivity|]. split; [reflexivity|].
  split; [vm_compute; reflexivity|].
  eexists _, _. split; [vm_compute; reflexivity|].
  repeat split; vm_compute; reflexivity.
Qed.

(** The fallback at the same attempt. *)
Lemma wide_spread_falls_back_to_market_price_at_a_wide_spread :
  let env := Scenario.open_env Scenario.funded 101 100 102 102 100 in
  let out := execute_hedge_open (Scenario.idle (Scenario.loaded 1 DistanceAuto)) env
               (Scenario.pair 1 DistanceAuto) [1%Z; 2%Z] 101 in
  _get_unified_execution_price (open_price_sources env) = None /\
  exists amount,
    SubmitMarketOrder 1 1 "buy" amount ∈ out_effects out /\
    SubmitMarketOrder 2 1 "sell" amount ∈ out_effects out.
Proof.
  cbv zeta.
  destruct wide_spread_falls_back_to_market_price as [Hnone Hopen].
  assert (Hno : _get_unified_execution_price
                  (open_price_sources
                     (Scenario.open_env Scenario.funded 101 100 102 102 100)) = None).
  { apply (Hnone _ (Scenario.market 101) (Scenario.book 100 102)
             (Scenario.level 100) [] (Scenario.level 102) [] 100 102
             ((102 - 100) / 101));
      try reflexivity. }
  split; [exact Hno|].
  destruct (amount_per_account
              (open_sizing (Scenario.open_env Scenario.funded 101 100 102 102 100)
                 (Scenario.pair 1 DistanceAuto) [1%Z; 2%Z]) 101)
    as [amount|] eqn:Hamount; [|vm_compute in Hamount; discriminate].
  exists amount.
  destruct (Hopen (Scenario.idle (Scenario.loaded 1 DistanceAuto))
              (Scenario.open_env Scenario.funded 101 100 102 102 100)
              (Scenario.pair 1 DistanceAuto) [1%Z; 2%Z] 101
              (Scenario.market 101) amount
              ltac:(simpl; lia) ltac:(reflexivity) Hamount ltac:(reflexivity) Hno)
    as (_ & _ & Hsent).
  split.
  - apply (Hsent 1%Z "buy" "long"). vm_compute. left.
  - apply (Hsent 2%Z "sell" "short"). vm_compute. right. left.
Defined.

End OpenFacts.

(** ** Dual-leg close *)

Module CloseFacts.

Import Strategy DesignDocument.
Local Open Scope Q_scope.

Lemma concat_singletons {A B} (f : A -> B) (l : list A) :
  concat (map (fun x => [f x]) l) = map f l.
Proof. induction l as [|x l IH]; simpl; [reflexivity | now rewrite IH]. Qed.

Lemma close_tasks_effects env positions price :
  concat (close_tasks env positions price).*2 = map (close_order price) positions.
Proof.
  unfold close_tasks, _create_precise_close_order.
  rewrite <- list_fmap_compose. apply (concat_singletons (close_order price)).
Qed.

Lemma check_leg_still_open_attempt env positions retry position size :
  position ∈ positions ->
  check_leg env retry position = LegStillOpen size ->
  (verification_attempt env true positions retry).2 = false.
Proof.
  intros Hin Hleg.
  assert (Hex : existsb is_still_open (map (check_leg env retry) positions) = true).
  { apply existsb_exists. exists (LegStillOpen size). split; [|reflexivity].
    rewrite <- Hleg. apply in_map. now apply list_elem_of_In. }
  destruct positions as [|p ps]; [inversion Hin|].
  unfold verification_attempt. cbn [negb snd]. now rewrite Hex.
Qed.

(** Three attempts that each see a leg still open leave [all_closed]
    false. *)
Lemma verification_loop_still_open env positions :
  (forall retry, (retry < max_retries)%nat ->
     exists position size,
       position ∈ positions /\ check_leg env retry position = LegStillOpen size) ->
  verification_loop env true positions 0 max_retries = false.
Proof.
  intros H. unfold max_retries in *. simpl.
  destruct (H 0%nat ltac:(lia)) as (p0 & s0 & Hin0 & Hl0).
  destruct (H 1%nat ltac:(lia)) as (p1 & s1 & Hin1 & Hl1).
  destruct (H 2%nat ltac:(lia)) as (p2 & s2 & Hin2 & Hl2).
  pose proof (check_leg_still_open_attempt env positions 0 p0 s0 Hin0 Hl0) as E0.
  pose proof (check_leg_still_open_attempt env positions 1 p1 s1 Hin1 Hl1) as E1.
  pose proof (check_leg_still_open_attempt env positions 2 p2 s2 Hin2 Hl2) as E2.
  destruct (verification_attempt env true positions 0) as [a0 c0].
  destruct (verification_attempt env true positions 1) as [a1 c1].
  destruct (verification_attempt env true positions 2) as [a2 c2].
  simpl in *. subst. rewrite !andb_false_r. reflexivity.
Qed.

(** C4, as the code has it.  Once the unified close price is known,
    [execute_hedge_close] sends one limit order per leg, on the opposite
    side, for the size recorded on the leg in the HedgePosition; the venue
    is not asked for the current size. *)
Theorem close_orders_use_recorded_size self env ref hp first others price :
  objects self !! ref = Some hp ->
  hp_positions hp = first :: others ->
  pos_market_index first <> 0%Z ->
  _get_unified_execution_price (close_price_sources env) = Some price ->
  ~ price == 0 ->
  close_effects (execute_hedge_close self env ref)
  = map (fun position =>
           SubmitLimitOrder (pos_account_index position) (pos_market_index position)
             (close_side position) (pos_size position) price)
        (hp_positions hp).
Proof.
  intros Hobj Hpos Hmarket Hprice Hnz. unfold execute_hedge_close.
  rewrite Hobj, Hpos. simpl.
  destruct (Z.eqb (pos_market_index first) 0) eqn:E;
    [apply Z.eqb_eq in E; contradiction|].
  rewrite Hprice. unfold Dec.truthy.
  apply DecFacts.eq_false in Hnz. rewrite Hnz. simpl negb. cbv iota.
  pose proof (close_tasks_effects env (first :: others) price) as Heff.
  destruct (bool_decide (_ < _)%nat).
  - destruct (_validate_position_closed_with_backend _ env (hp_id hp)) as [v self'].
    simpl. exact Heff.
  - simpl. exact Heff.
Qed.

(** The rule at the registered hedge: two orders of one unit each. *)
Lemma close_orders_use_recorded_size_witness :
  close_effects (execute_hedge_close Scenario.holding (Scenario.close_env 0.5) 0)
  = [SubmitLimitOrder 1 1 "sell" 1 ((99.9 + 100.1) / 2);
     SubmitLimitOrder 2 1 "buy" 1 ((99.9 + 100.1) / 2)].
Proof.
  rewrite (close_orders_use_recorded_size Scenario.holding (Scenario.close_env 0.5) 0
             Scenario.open_hedge (Scenario.leg 1 "long" 1) [Scenario.leg 2 "short" 1]
             ((99.9 + 100.1) / 2)).
  - vm_compute. reflexivity.
  - reflexivity.
  - reflexivity.
  - discriminate.
  - vm_compute. reflexivity.
  - vm_compute. discriminate.
Defined.

(** C4 as stated fails: the venue shows half a unit left on each account,
    and each close order is for the whole unit that was recorded at the
    open. *)
Lemma close_order_ignores_remote_size :
  let env := Scenario.close_env 0.5 in
  let position := Scenario.leg 1 "long" 1 in
  position ∈ hp_positions Scenario.open_hedge /\
  current_remote_size env position = Some 0.5 /\
  (exists price,
     close_effects (execute_hedge_close Scenario.holding env 0)
     = [SubmitLimitOrder 1 1 "sell" (pos_size position) price;
        SubmitLimitOrder 2 1 "buy" 1 price]) /\
  pos_size position == 1 /\
  ~ pos_size position == 0.5.
Proof.
  cbv zeta. split; [left|]. split; [reflexivity|].
  split; [eexists; vm_compute; reflexivity|].
  split; [reflexivity | vm_compute; discriminate].
Qed.

Lemma check_leg_significant env retry position api_positions market_position :
  close_account_api env retry (pos_account_index position) = Returned api_positions ->
  List.find (fun api_pos => bool_decide (api_pos.1 = Some (pos_market_index position)))
            api_positions = Some market_position ->
  dust_threshold < Qabs market_position.2 ->
  check_leg env retry position = LegStillOpen (Qabs market_position.2).
Proof.
  intros Hapi Hfind Hsize. unfold check_leg. rewrite Hapi, Hfind.
  apply DecFacts.gt_true in Hsize. now rewrite Hsize.
Qed.

(** C3.  Take a registered hedge whose close orders went out and mostly
    succeeded.  If at each of the 3 verification attempts the account
    query shows, for some leg, a position left on the leg's market, that
    is one whose size exceeds in absolute value the 0.001 below which the
    routine reads a size as zero, then [execute_hedge_close] returns [True]
    and leaves the HedgePosition in PENDING_CLOSE, not CLOSED, still
    registered and marked [close_validated = False]. *)
Theorem unverified_close_is_pending self env ref hp first others price :
  objects self !! ref = Some hp ->
  active_positions self !! hp_id hp = Some ref ->
  has_client_factory self = true ->
  hp_positions hp = first :: others ->
  pos_market_index first <> 0%Z ->
  _get_unified_execution_price (close_price_sources env) = Some price ->
  ~ price == 0 ->
  (failed_closes (close_results env (hp_positions hp) price)
   < successful_closes (close_results env (hp_positions hp) price))%nat ->
  (forall retry, (retry < max_retries)%nat ->
     exists position api_positions market_position,
       position ∈ hp_positions hp /\
       close_account_api env retry (pos_account_index position)
         = Returned api_positions /\
       List.find (fun api_pos =>
                    bool_decide (api_pos.1 = Some (pos_market_index position)))
                 api_positions = Some market_position /\
       dust_threshold < Qabs market_position.2) ->
  let out := execute_hedge_close self env ref in
  close_result out = true /\
  exists hp',
    objects (close_strategy out) !! ref = Some hp' /\
    hp_status hp' = PENDING_CLOSE /\
    hp_status hp' <> CLOSED /\
    hp_metadata hp' !! "close_validated" = Some (MetaBool false) /\
    active_positions (close_strategy out) !! hp_id hp = Some ref.
Proof.
  intros Hobj Hreg Hfactory Hpos Hmarket Hprice Hnz Hmajority Hopen. cbv zeta.
  assert (Hloop : verification_loop env true (hp_positions hp) 0 max_retries = false).
  { apply verification_loop_still_open. intros retry Hretry.
    destruct (Hopen retry Hretry) as (position & api & mp & Hin & Hapi & Hfind & Hsize).
    exists position, (Qabs mp.2). split; [exact Hin|].
    now apply check_leg_significant with api. }
  unfold execute_hedge_close. rewrite Hobj.
  rewrite Hpos in *. cbn [hp_positions].
  destruct (Z.eqb (pos_market_index first) 0) eqn:E;
    [apply Z.eqb_eq in E; contradiction|].
  rewrite Hprice. unfold Dec.truthy.
  apply DecFacts.eq_false in Hnz. rewrite Hnz. cbn [negb].
  rewrite (bool_decide_eq_true_2 _ Hmajority).
  unfold _validate_position_closed_with_backend, update_object.
  cbn [active_positions objects set_objects has_client_factory].
  rewrite Hreg, lookup_alter_eq, Hobj. cbn [fmap option_fmap option_map].
  cbn [hp_positions set_updated_at set_status].
  rewrite Hfactory, Hpos, Hloop. cbn [negb].
  cbn [close_result close_strategy objects active_positions set_objects].
  split; [reflexivity|].
  rewrite !lookup_alter_eq, Hobj. cbn [fmap option_fmap option_map].
  eexists. split; [reflexivity|].
  split; [reflexivity|]. split; [discriminate|].
  split; [|exact Hreg].
  cbn [hp_metadata close_unverified set_metadata]. apply lookup_insert_eq.
Qed.

(** The rule at the registered hedge when the venue still shows half a
    unit on each account at every attempt. *)
Lemma unverified_close_is_pending_witness :
  let out := execute_hedge_close Scenario.holding (Scenario.close_env 0.5) 0 in
  close_result out = true /\
  exists hp',
    objects (close_strategy out) !! 0%nat = Some hp' /\ hp_status hp' = PENDING_CLOSE.
Proof.
  cbv zeta.
  destruct (unverified_close_is_pending Scenario.holding (Scenario.close_env 0.5) 0
              Scenario.open_hedge (Scenario.leg 1 "long" 1) [Scenario.leg 2 "short" 1]
              ((99.9 + 100.1) / 2))
    as (Hresult & hp' & Hobj & Hstatus & _).
  - reflexivity.
  - reflexivity.
  - reflexivity.
  - reflexivity.
  - discriminate.
  - vm_compute. reflexivity.
  - vm_compute. discriminate.
  - vm_compute. lia.
  - intros retry _.
    exists (Scenario.leg 1 "long" 1), [(Some 1%Z, 0.5)], (Some 1%Z, 0.5).
    split; [left|]. split; [reflexivity|]. split; [reflexivity|].
    vm_compute. reflexivity.
  - split; [exact Hresult|]. exists hp'. split; [exact Hobj | exact Hstatus].
Defined.

(** A size within the 0.001 is read as zero: when the venue shows 0.0005
    on every leg, the legs count as closed and the position ends CLOSED. *)
Example dust_remainder_counts_as_closed :
  let env := Scenario.close_env 0.0005 in
  let out := execute_hedge_close Scenario.holding env 0 in
  (forall retry position,
     position ∈ hp_positions Scenario.open_hedge ->
     exists size,
       close_account_api env retry (pos_account_index position)
         = Returned [(Some (pos_market_index position), size)] /\
       ~ size == 0) /\
  close_result out = true /\
  hp_status <$> objects (close_strategy out) !! 0%nat = Some CLOSED.
Proof.
  cbv zeta. split.
  - intros retry position Hin. exists 0.0005.
    split; [|vm_compute; discriminate].
    apply elem_of_cons in Hin as [->|Hin]; [reflexivity|].
    apply elem_of_cons in Hin as [->|Hin]; [reflexivity | inversion Hin].
  - split; vm_compute; reflexivity.
Qed.

End CloseFacts.

(** ** The loss ledger and the emergency stop *)

Module LedgerFacts.

Import Risk.
Local Open Scope Q_scope.

Lemma foldl_plus a xs : foldl Qplus a xs == a + Dec.sum xs.
Proof.
  unfold Dec.sum. revert a. induction xs as [|x xs IH]; intros a; simpl.
  - ring.
  - rewrite (IH (a + x)), (IH (0 + x)). ring.
Qed.

Lemma sum_cons x xs : Dec.sum (x :: xs) == x + Dec.sum xs.
Proof. unfold Dec.sum at 1. simpl. rewrite foldl_plus. ring. Qed.

Lemma sum_perm xs ys : xs ≡ₚ ys -> Dec.sum xs == Dec.sum ys.
Proof.
  induction 1 as [|x xs ys _ IH|x y xs|xs ys zs _ IH1 _ IH2].
  - reflexivity.
  - rewrite !sum_cons, IH. reflexivity.
  - rewrite !sum_cons. ring.
  - now rewrite IH1.
Qed.

(** The sum of the values of a dictionary after an assignment. *)
Lemma sum_insert (m : gmap Z Q) k v :
  Dec.sum (map_to_list (<[k := v]> m)).*2
    == v + Dec.sum (map_to_list m).*2 - default 0 (m !! k).
Proof.
  rewrite <- insert_delete_eq.
  rewrite (sum_perm _ ((k, v) :: map_to_list (delete k m)).*2).
  2:{ apply fmap_Permutation, map_to_list_insert, lookup_delete_eq. }
  rewrite fmap_cons, sum_cons. simpl.
  destruct (m !! k) as [v0|] eqn:E; simpl.
  - rewrite (sum_perm (map_to_list m).*2 ((k, v0) :: map_to_list (delete k m)).*2).
    2:{ apply fmap_Permutation. symmetry. now apply map_to_list_delete. }
    rewrite fmap_cons, sum_cons. simpl. ring.
  - rewrite delete_id by exact E. ring.
Qed.

Lemma trigger_keeps_ledger now self service event_type value limit sev act ai pid :
  daily_losses (_trigger_risk_event now self service event_type value limit sev act ai pid)
    = daily_losses self /\
  pair_daily_losses (_trigger_risk_event now self service event_type value limit sev act ai pid)
    = pair_daily_losses self.
Proof. unfold _trigger_risk_event. destruct (String.eqb act "emergency_stop"); auto. Qed.

Lemma trigger_monitor now self service event_type value limit sev ai pid :
  emergency_stop_active
    (_trigger_risk_event now self service event_type value limit sev "monitor" ai pid)
    = emergency_stop_active self /\
  risk_events
    (_trigger_risk_event now self service event_type value limit sev "monitor" ai pid)
    = risk_events self ++
      [ {| ev_service := service; ev_type := event_type; ev_account_index := ai;
           ev_pair_id := pid; ev_value := value; ev_limit := limit;
           ev_severity := sev; ev_action := "monitor"; ev_timestamp := now |} ].
Proof. split; reflexivity. Qed.

Lemma trigger_stop_stays now self service event_type value limit sev act ai pid :
  emergency_stop_active self = true ->
  emergency_stop_active
    (_trigger_risk_event now self service event_type value limit sev act ai pid) = true.
Proof.
  intros H. unfold _trigger_risk_event.
  destruct (String.eqb act "emergency_stop"); simpl; auto.
Qed.

(** What [_check_loss_limits] leaves of the manager. *)
Lemma check_loss_limits_frame now cm self account_index pair_id self' :
  _check_loss_limits now cm self account_index pair_id = Some self' ->
  daily_losses self' = daily_losses self /\
  pair_daily_losses self' = pair_daily_losses self /\
  emergency_stop_active self' = emergency_stop_active self.
Proof.
  unfold _check_loss_limits. intros H.
  destruct (Config.get_account_by_index cm account_index) as [oac|]; [|discriminate].
  simpl in H.
  destruct (Config.get_pair_by_id cm pair_id) as [opc|]; [|discriminate].
  simpl in H. injection H as <-.
  set (self1 := match oac with Some _ => _ | None => _ end).
  assert (H1 : daily_losses self1 = daily_losses self /\
               pair_daily_losses self1 = pair_daily_losses self /\
               emergency_stop_active self1 = emergency_stop_active self).
  { subst self1. destruct oac as [ac|]; [|auto].
    destruct (Dec.ge _ _); [|auto]. repeat split; reflexivity. }
  destruct H1 as (H1 & H2 & H3).
  destruct opc as [pc|]; [|auto].
  destruct (Dec.ge _ _); [|auto].
  repeat split; simpl; assumption.
Qed.

Lemma add_loss_stop self account_index pair_id pnl :
  emergency_stop_active (add_loss self account_index pair_id pnl)
    = emergency_stop_active self.
Proof. reflexivity. Qed.

Lemma record_trade_pnl_frame now cm self account_index pair_id pnl :
  let self1 := if Dec.lt pnl 0 then add_loss self account_index pair_id pnl else self in
  daily_losses (record_trade_pnl now cm self account_index pair_id pnl)
    = daily_losses self1 /\
  pair_daily_losses (record_trade_pnl now cm self account_index pair_id pnl)
    = pair_daily_losses self1 /\
  emergency_stop_active (record_trade_pnl now cm self account_index pair_id pnl)
    = emergency_stop_active self.
Proof.
  cbv zeta. unfold record_trade_pnl.
  destruct (_check_loss_limits now cm _ account_index pair_id) as [self'|] eqn:E.
  - apply check_loss_limits_frame in E. destruct E as (-> & -> & ->).
    repeat split. now destruct (Dec.lt pnl 0).
  - repeat split. now destruct (Dec.lt pnl 0).
Qed.

Lemma total_after_record now cm self account_index pair_id pnl :
  let self' := record_trade_pnl now cm self account_index pair_id pnl in
  (pnl < 0 -> total_daily_loss self' == total_daily_loss self + Qabs pnl) /\
  (0 <= pnl -> total_daily_loss self' == total_daily_loss self).
Proof.
  cbv zeta.
  destruct (record_trade_pnl_frame now cm self account_index pair_id pnl) as (Hd & _ & _).
  unfold total_daily_loss. rewrite Hd. split; intros Hpnl.
  - apply DecFacts.lt_true in Hpnl. rewrite Hpnl.
    unfold add_loss; simpl. rewrite sum_insert. unfold account_daily_loss. ring.
  - apply DecFacts.lt_false in Hpnl. rewrite Hpnl. reflexivity.
Qed.

(** X1.  The figure the global gate compares with the global ceiling,
    [sum(self.daily_losses.values())], grows by exactly [abs(pnl)] when
    [record_trade_pnl] records a loss, whichever account the loss is
    booked on and whether or not the account had an entry, and stays as it
    is when it records a profit. *)
Theorem record_trade_pnl_total_loss now cm self account_index pair_id pnl :
  let self' := record_trade_pnl now cm self account_index pair_id pnl in
  (pnl < 0 -> total_daily_loss self' == total_daily_loss self + Qabs pnl) /\
  (0 <= pnl -> total_daily_loss self' == total_daily_loss self).
Proof. apply total_after_record. Qed.

(** Two losses, of 50 on account 1 and of 30 on account 2, add up to 80. *)
Lemma record_trade_pnl_total_loss_witness :
  total_daily_loss
    (record_trade_pnl 0 (Scenario.loaded 1 DistanceAuto)
       (record_trade_pnl 0 (Scenario.loaded 1 DistanceAuto) Scenario.no_losses
          1 "btc_hedge" (-50))
       2 "btc_hedge" (-30)) == 80.
Proof.
  destruct (record_trade_pnl_total_loss 0 (Scenario.loaded 1 DistanceAuto)
              (record_trade_pnl 0 (Scenario.loaded 1 DistanceAuto) Scenario.no_losses
                 1 "btc_hedge" (-50))
              2 "btc_hedge" (-30)) as [Hloss _].
  rewrite (Hloss ltac:(reflexivity)). vm_compute. reflexivity.
Defined.

(** X2.  A recorded loss that brings the total to the global ceiling trips
    the gate: the next [check_open_position_risk], for any pair and any
    amount, is refused with the global daily-loss reason and the action
    [emergency_stop], records one critical event and leaves the emergency
    stop switched on. *)
Theorem loss_breach_trips_emergency_stop
    now now' cm am self c global_max_loss account_index pair_id pnl pair_config base_amount :
  config cm = Some c ->
  global_max_daily_loss (risk_management c) = Some global_max_loss ->
  emergency_stop_active self = false ->
  pnl < 0 ->
  global_max_loss <= total_daily_loss self + Qabs pnl ->
  let recorded := record_trade_pnl now cm self account_index pair_id pnl in
  let r := check_open_position_risk now' cm am recorded pair_config base_amount in
  allowed r.1 = false /\
  (exists total, reason r.1 = Some (ReasonGlobalDailyLoss total global_max_loss)
                 /\ total == total_daily_loss self + Qabs pnl) /\
  action r.1 = Some "emergency_stop" /\
  emergency_stop_active r.2 = true /\
  length (risk_events r.2) = S (length (risk_events recorded)).
Proof.
  intros Hc Hg Hstop Hpnl Hbreach. cbv zeta.
  destruct (record_trade_pnl_frame now cm self account_index pair_id pnl) as (_ & _ & Hs).
  destruct (total_after_record now cm self account_index pair_id pnl) as [Ht _].
  specialize (Ht Hpnl).
  set (recorded := record_trade_pnl now cm self account_index pair_id pnl) in *.
  unfold check_open_position_risk, Config.get_risk_config.
  rewrite Hs, Hstop, Hc. simpl. rewrite Hg.
  assert (E : Dec.ge (total_daily_loss recorded) global_max_loss = true).
  { apply DecFacts.ge_true. rewrite Ht. exact Hbreach. }
  rewrite E. simpl. repeat split.
  - eexists. split; [reflexivity | exact Ht].
  - rewrite length_app. simpl. lia.
Qed.

(** With the default ceiling of 5000: a loss of 5000 on one account. *)
Lemma loss_breach_trips_emergency_stop_witness :
  let recorded :=
    record_trade_pnl 0 (Scenario.loaded 1 DistanceAuto) Scenario.no_losses
      1 "btc_hedge" (-5000) in
  let r := check_open_position_risk 1 (Scenario.loaded 1 DistanceAuto) Scenario.funded
             recorded (Scenario.pair 1 DistanceAuto) 10 in
  allowed r.1 = false /\ emergency_stop_active r.2 = true.
Proof.
  cbv zeta.
  destruct (loss_breach_trips_emergency_stop 0 1 (Scenario.loaded 1 DistanceAuto)
              Scenario.funded Scenario.no_losses _ 5000 1 "btc_hedge" (-5000)
              (Scenario.pair 1 DistanceAuto) 10
              ltac:(reflexivity) ltac:(reflexivity) ltac:(reflexivity)
              ltac:(reflexivity) ltac:(vm_compute; discriminate))
    as (Ha & _ & _ & Hs & _).
  split; assumption.
Defined.

Lemma perform_risk_checks_stop now cm am self :
  emergency_stop_active (_perform_risk_checks now cm am self) = emergency_stop_active self.
Proof.
  unfold _perform_risk_checks.
  destruct (Config.get_active_accounts cm) as [l|]; [|reflexivity].
  revert self. induction l as [|ac l IH]; intros self; simpl; [reflexivity|].
  rewrite IH. unfold check_account_balance.
  destruct (Accounts.get_account am _); [|reflexivity].
  destruct (Dec.lt _ _); reflexivity.
Qed.

Lemma check_account_balances_stop now am self pair_accounts :
  emergency_stop_active (check_account_balances now am self pair_accounts).2
    = emergency_stop_active self.
Proof.
  induction pair_accounts as [|ac rest IH]; simpl; [reflexivity|].
  destruct (Accounts.get_account am _); simpl; [|reflexivity].
  destruct (Dec.lt _ _); simpl; [reflexivity|].
  destruct (Dec.ge _ _); simpl; [reflexivity | exact IH].
Qed.

(** X3.  The emergency stop latches.  While it is on, every
    [check_open_position_risk] is refused with the emergency-stop reason
    and changes nothing; recording a trade, resetting the daily counters
    and the periodic balance check all leave it on.  Only
    [deactivate_emergency_stop] switches it off. *)
Theorem emergency_stop_latches self :
  emergency_stop_active self = true ->
  (forall now cm am pair_config base_amount,
     check_open_position_risk now cm am self pair_config base_amount
       = (deny ReasonEmergencyStop "critical" "wait", self)) /\
  (forall now cm account_index pair_id pnl,
     emergency_stop_active (record_trade_pnl now cm self account_index pair_id pnl) = true) /\
  emergency_stop_active (reset_daily_counters self) = true /\
  (forall now cm am, emergency_stop_active (_perform_risk_checks now cm am self) = true) /\
  emergency_stop_active (deactivate_emergency_stop self) = false.
Proof.
  intros H. repeat split.
  - intros. unfold check_open_position_risk. now rewrite H.
  - intros. destruct (record_trade_pnl_frame now cm self account_index pair_id pnl)
      as (_ & _ & ->). exact H.
  - exact H.
  - intros. now rewrite perform_risk_checks_stop.
Qed.

(** A manager whose stop is on, with no loss on its books. *)
Lemma emergency_stop_latches_witness :
  check_open_position_risk 0 (Scenario.loaded 1 DistanceAuto) Scenario.funded
    (reset_daily_counters (activate_emergency_stop Scenario.account_over_limit))
    (Scenario.pair 1 DistanceAuto) 10
  = (deny ReasonEmergencyStop "critical" "wait",
     reset_daily_counters (activate_emergency_stop Scenario.account_over_limit)).
Proof.
  destruct (emergency_stop_latches
              (reset_daily_counters (activate_emergency_stop Scenario.account_over_limit))
              ltac:(reflexivity)) as (Hcheck & _).
  apply Hcheck.
Defined.

End LedgerFacts.

(** ** More on the risk gate *)

Module GateFacts.

Import Risk.
Local Open Scope Q_scope.

(** What a risk event adds to the manager. *)
Lemma trigger_events now self service event_type value limit sev act ai pid :
  exists e,
    risk_events (_trigger_risk_event now self service event_type value limit sev act ai pid)
      = risk_events self ++ [e]
    /\ ev_type e = event_type /\ ev_action e = act /\ ev_severity e = sev
    /\ ev_account_index e = ai.
Proof.
  unfold _trigger_risk_event. eexists.
  split; [destruct (String.eqb act "emergency_stop"); reflexivity|].
  repeat split.
Qed.

Lemma check_account_balances_frame now am self pair_accounts :
  let r := check_account_balances now am self pair_accounts in
  daily_losses r.2 = daily_losses self /\
  pair_daily_losses r.2 = pair_daily_losses self /\
  exists events,
    risk_events r.2 = risk_events self ++ events /\
    (length events <= 1)%nat /\
    (allowed r.1 = true -> events = []).
Proof.
  cbv zeta. induction pair_accounts as [|ac rest IH]; simpl.
  - repeat split. exists []. rewrite app_nil_r. repeat split. simpl. lia.
  - destruct (Accounts.get_account am _) as [account|]; simpl.
    + destruct (Dec.lt _ _); simpl.
      * repeat split. eexists [_]. repeat split; [simpl; lia | discriminate].
      * destruct (Dec.ge _ _); simpl; [|exact IH].
        repeat split. exists []. rewrite app_nil_r.
        repeat split; [simpl; lia].
    + repeat split. exists []. rewrite app_nil_r. repeat split; [simpl; lia].
Qed.

(** X4.  [check_open_position_risk] only reads the loss dictionaries: both
    are the same after the check as before it.  It records at most one
    risk event, and none when it allows the open. *)
Theorem check_open_position_risk_frame now cm am self pair_config base_amount :
  let r := check_open_position_risk now cm am self pair_config base_amount in
  daily_losses r.2 = daily_losses self /\
  pair_daily_losses r.2 = pair_daily_losses self /\
  exists events,
    risk_events r.2 = risk_events self ++ events /\
    (length events <= 1)%nat /\
    (allowed r.1 = true -> events = []).
Proof.
  cbv zeta. unfold check_open_position_risk.
  assert (Hnone : forall res : RiskCheckResult,
            allowed res = false ->
            daily_losses (res, self).2 = daily_losses self /\
            pair_daily_losses (res, self).2 = pair_daily_losses self /\
            exists events,
              risk_events (res, self).2 = risk_events self ++ events /\
              (length events <= 1)%nat /\
              (allowed (res, self).1 = true -> events = [])).
  { intros res Hres. simpl. repeat split. exists []. rewrite app_nil_r.
    repeat split; simpl; lia. }
  destruct (emergency_stop_active self); [now apply Hnone|].
  destruct (Config.get_risk_config cm) as [gc|]; [|now apply Hnone].
  destruct (global_max_daily_loss gc) as [g|]; [|now apply Hnone].
  destruct (Dec.ge (total_daily_loss self) g).
  - simpl. repeat split. eexists [_]. repeat split; [simpl; lia | discriminate].
  - destruct (Dec.ge (pair_daily_loss self _) _); [now apply Hnone|].
    destruct (Dec.gt base_amount _); [now apply Hnone|].
    destruct (Config.get_pair_accounts cm pair_config) as [accs|]; [|now apply Hnone].
    apply check_account_balances_frame.
Qed.

(** An allowed check leaves the list of events as it was. *)
Lemma check_open_position_risk_frame_witness :
  risk_events
    (check_open_position_risk 0 (Scenario.loaded 1 DistanceAuto) Scenario.funded
       Scenario.no_losses (Scenario.pair 1 DistanceAuto) 1000).2
  = risk_events Scenario.no_losses.
Proof.
  destruct (check_open_position_risk_frame 0 (Scenario.loaded 1 DistanceAuto)
              Scenario.funded Scenario.no_losses (Scenario.pair 1 DistanceAuto) 1000)
    as (_ & _ & events & He & _ & Hnone).
  rewrite He, (Hnone ltac:(reflexivity)). reflexivity.
Defined.

(** X5.  The check is monotone in the requested size: when it allows an
    amount it gives the very same answer, and leaves the very same state,
    for every smaller amount. *)
Theorem check_open_position_risk_smaller_amount
    now cm am self pair_config base_amount smaller :
  smaller <= base_amount ->
  allowed (check_open_position_risk now cm am self pair_config base_amount).1 = true ->
  check_open_position_risk now cm am self pair_config smaller
    = check_open_position_risk now cm am self pair_config base_amount.
Proof.
  intros Hle. unfold check_open_position_risk.
  destruct (emergency_stop_active self); [reflexivity|].
  destruct (Config.get_risk_config cm) as [gc|]; [|reflexivity].
  destruct (global_max_daily_loss gc) as [g|]; [|reflexivity].
  destruct (Dec.ge (total_daily_loss self) g); [reflexivity|].
  destruct (Dec.ge (pair_daily_loss self _) _); [reflexivity|].
  destruct (Dec.gt base_amount _) eqn:E; [discriminate|].
  apply DecFacts.gt_false in E.
  assert (E' : Dec.gt smaller (rl_max_position_size (pc_risk_limits pair_config)) = false).
  { apply DecFacts.gt_false. lra. }
  rewrite E'. reflexivity.
Qed.

(** The funded pair is allowed 1000, and therefore 10. *)
Lemma check_open_position_risk_smaller_amount_witness :
  check_open_position_risk 0 (Scenario.loaded 1 DistanceAuto) Scenario.funded
    Scenario.no_losses (Scenario.pair 1 DistanceAuto) 10
  = check_open_position_risk 0 (Scenario.loaded 1 DistanceAuto) Scenario.funded
      Scenario.no_losses (Scenario.pair 1 DistanceAuto) 1000.
Proof.
  apply (check_open_position_risk_smaller_amount 0 (Scenario.loaded 1 DistanceAuto)
           Scenario.funded Scenario.no_losses (Scenario.pair 1 DistanceAuto) 1000 10).
  - vm_compute. discriminate.
  - vm_compute. reflexivity.
Defined.

Lemma unknown_addresses_resolve_to_nothing cm addresses :
  Forall (fun address => Config.get_account_by_address cm address = Some None) addresses ->
  Config.get_pair_accounts_from cm addresses = Some [].
Proof.
  induction 1 as [|address rest Hx _ IH]; simpl; [reflexivity|].
  rewrite Hx. simpl. rewrite IH. reflexivity.
Qed.

(** X6.  The per-account stage looks only at the accounts that
    [get_pair_accounts] resolves; an address of the pair that matches no
    configured account is passed over without a word.  So for a pair none
    of whose addresses is configured the check is decided by the first four
    gates alone: it allows the open as soon as the emergency stop is off,
    the two loss totals are under their ceilings and the size is within the
    limit, although no account has been looked at. *)
Theorem unconfigured_accounts_are_not_checked
    now cm am self c global_max_loss pair_config base_amount :
  config cm = Some c ->
  global_max_daily_loss (risk_management c) = Some global_max_loss ->
  Forall (fun address => Config.get_account_by_address cm address = Some None)
         (pc_account_addresses pair_config) ->
  let r := check_open_position_risk now cm am self pair_config base_amount in
  allowed r.1 =
    negb (emergency_stop_active self)
    && negb (Dec.ge (total_daily_loss self) global_max_loss)
    && negb (Dec.ge (pair_daily_loss self (pc_id pair_config))
               (rl_max_daily_loss (pc_risk_limits pair_config)))
    && negb (Dec.gt base_amount (rl_max_position_size (pc_risk_limits pair_config))).
Proof.
  intros Hc Hg Hunknown. cbv zeta.
  unfold check_open_position_risk, Config.get_risk_config, Config.get_pair_accounts.
  rewrite (unknown_addresses_resolve_to_nothing _ _ Hunknown), Hc. simpl. rewrite Hg.
  destruct (emergency_stop_active self); [reflexivity|].
  destruct (Dec.ge (total_daily_loss self) global_max_loss); [reflexivity|].
  destruct (Dec.ge (pair_daily_loss self _) _); [reflexivity|].
  destruct (Dec.gt base_amount _); reflexivity.
Qed.

(** A pair whose only address is configured nowhere, with account tables
    that are empty: the open is allowed. *)
Lemma unconfigured_accounts_are_not_checked_witness :
  let stray :=
    {| pc_id := "stray"; pc_name := "BTC-USD"; pc_market_index := 1;
       pc_is_enabled := true; pc_stop_take_distance := DistanceAuto;
       pc_account_addresses := ["0xdead"];
       pc_risk_limits := Scenario.limits; pc_leverage := 1 |} in
  allowed
    (check_open_position_risk 0 (Scenario.loaded 1 DistanceAuto) {| accounts := ∅ |}
       Scenario.no_losses stray 1000).1 = true.
Proof.
  cbv zeta.
  match goal with
  | |- allowed (check_open_position_risk _ _ _ _ ?stray _).1 = _ =>
      rewrite (unconfigured_accounts_are_not_checked 0 (Scenario.loaded 1 DistanceAuto)
                 {| accounts := ∅ |} Scenario.no_losses _ 5000 stray 1000
                 eq_refl eq_refl
                 (Forall_cons_2 _ "0xdead" [] eq_refl (Forall_nil_2 _)))
  end.
  vm_compute. reflexivity.
Defined.

(** X7.  The periodic balance check records one [balance_low] event, with
    the action [monitor], for every active configured account whose data
    is at hand and whose available balance is under its minimum; it
    touches neither the loss dictionaries nor the emergency stop. *)
Theorem perform_risk_checks_events now cm am self :
  let self' := _perform_risk_checks now cm am self in
  let low account_config :=
    match Accounts.get_account am (ac_index account_config) with
    | Some account =>
        Dec.lt (acc_available_balance account)
               (rl_min_balance (ac_risk_limits account_config))
    | None => false
    end in
  daily_losses self' = daily_losses self /\
  pair_daily_losses self' = pair_daily_losses self /\
  emergency_stop_active self' = emergency_stop_active self /\
  exists events,
    risk_events self' = risk_events self ++ events /\
    Forall (fun e => ev_type e = "balance_low" /\ ev_action e = "monitor"
                     /\ ev_service e = "risk_monitor") events /\
    length events =
      length (filter (fun account_config => low account_config = true)
                     (default [] (Config.get_active_accounts cm))).
Proof.
  cbv zeta. unfold _perform_risk_checks.
  destruct (Config.get_active_accounts cm) as [l|]; simpl.
  2:{ repeat split. exists []. rewrite app_nil_r. repeat split. constructor. }
  revert self. induction l as [|ac l IH]; intros self; simpl.
  { repeat split. exists []. rewrite app_nil_r. repeat split. constructor. }
  destruct (IH (check_account_balance now am self ac)) as (Hd & Hp & Hs & events & He & Hf & Hl).
  rewrite Hd, Hp, Hs, He. unfold check_account_balance.
  rewrite filter_cons.
  destruct (Accounts.get_account am (ac_index ac)) as [account|].
  - destruct (Dec.lt (acc_available_balance account) _) eqn:E.
    + rewrite decide_True by reflexivity.
      repeat split. eexists (_ :: events). simpl. rewrite <- app_assoc. simpl.
      split; [reflexivity|]. split; [|simpl; now rewrite Hl].
      constructor; [repeat split | exact Hf].
    + rewrite decide_False by discriminate.
      repeat split. exists events. repeat split; assumption.
  - rewrite decide_False by discriminate.
    repeat split. exists events. repeat split; assumption.
Qed.

End GateFacts.

(** ** Configuration look-ups and the account table *)

Module ConfigFacts.

Import Config.

Lemma lower_ascii_idempotent c : lower_ascii (lower_ascii c) = lower_ascii c.
Proof. destruct c as [[] [] [] [] [] [] [] []]; reflexivity. Qed.

Lemma lower_idempotent s : lower (lower s) = lower s.
Proof.
  induction s as [|c s IH]; simpl; [reflexivity|].
  now rewrite lower_ascii_idempotent, IH.
Qed.

Lemma get_account_by_address_found cm c address ac :
  config cm = Some c ->
  get_account_by_address cm address = Some (Some ac) ->
  ac ∈ cfg_accounts c /\ lower (ac_l1_address ac) = lower address.
Proof.
  intros Hc. unfold get_account_by_address, get_accounts. rewrite Hc. simpl.
  intros H. injection H as H. apply find_some in H. destruct H as [Hin Heq].
  split; [now apply list_elem_of_In|]. now apply String.eqb_eq.
Qed.

(** X8.  Accounts are looked up by address without regard to letter case:
    two spellings with the same lower-case form give the same answer, the
    lower-case form of an address finds what the address finds, and the
    account found is a configured one whose address has the lower-case
    form asked for. *)
Theorem address_lookup_ignores_case cm :
  (forall address address',
     lower address = lower address' ->
     get_account_by_address cm address = get_account_by_address cm address') /\
  (forall address,
     get_account_by_address cm (lower address) = get_account_by_address cm address) /\
  (forall c address ac,
     config cm = Some c ->
     get_account_by_address cm address = Some (Some ac) ->
     ac ∈ cfg_accounts c /\ lower (ac_l1_address ac) = lower address).
Proof.
  split; [|split].
  - intros address address' H. unfold get_account_by_address. now rewrite H.
  - intros address. unfold get_account_by_address. now rewrite lower_idempotent.
  - intros. eapply get_account_by_address_found; eassumption.
Qed.

(** The account configured as "0xaaa1" is found under "0xAAA1". *)
Lemma address_lookup_ignores_case_witness :
  get_account_by_address (Scenario.loaded 1 DistanceAuto) "0xAAA1"
  = Some (Some (Scenario.account_config 1 "0xaaa1")).
Proof.
  destruct (address_lookup_ignores_case (Scenario.loaded 1 DistanceAuto)) as (Hsame & _).
  rewrite (Hsame "0xAAA1" "0xaaa1" ltac:(reflexivity)). reflexivity.
Defined.

Lemma get_pair_accounts_from_spec cm c addresses :
  config cm = Some c ->
  exists l,
    get_pair_accounts_from cm addresses = Some l /\
    (length l <= length addresses)%nat /\
    Forall (fun ac =>
              ac ∈ cfg_accounts c /\
              exists address,
                address ∈ addresses /\ lower (ac_l1_address ac) = lower address)
           l.
Proof.
  intros Hc. induction addresses as [|address rest IH]; simpl.
  - exists []. split; [reflexivity|]. split; [simpl; lia | constructor].
  - destruct IH as (l & Hl & Hlen & Hall). rewrite Hl.
    destruct (get_account_by_address cm address) as [[ac|]|] eqn:E; simpl.
    + exists (ac :: l). split; [reflexivity|]. split; [simpl; lia|].
      constructor.
      * destruct (get_account_by_address_found _ _ _ _ Hc E) as [Hin Hlow].
        split; [exact Hin|]. exists address. split; [left | exact Hlow].
      * eapply Forall_impl; [exact Hall|].
        intros ac' (Hin & a & Ha & Hlow). split; [exact Hin|].
        exists a. split; [now right | exact Hlow].
    + exists l. split; [reflexivity|]. split; [simpl; lia|].
      eapply Forall_impl; [exact Hall|].
      intros ac' (Hin & a & Ha & Hlow). split; [exact Hin|].
      exists a. split; [now right | exact Hlow].
    + unfold get_account_by_address, get_accounts in E. rewrite Hc in E. discriminate.
Qed.

(** X9.  With the configuration loaded, [get_pair_accounts] never raises;
    it returns at most one account per address of the pair, and every
    account it returns is a configured account whose address is, up to
    letter case, one of the addresses of the pair. *)
Theorem pair_accounts_resolved cm c pair_config :
  config cm = Some c ->
  exists l,
    get_pair_accounts cm pair_config = Some l /\
    (length l <= length (pc_account_addresses pair_config))%nat /\
    Forall (fun ac =>
              ac ∈ cfg_accounts c /\
              exists address,
                address ∈ pc_account_addresses pair_config
                /\ lower (ac_l1_address ac) = lower address)
           l.
Proof. intros Hc. now apply get_pair_accounts_from_spec. Qed.

(** The two accounts of the configured pair. *)
Lemma pair_accounts_resolved_witness :
  exists l,
    get_pair_accounts (Scenario.loaded 1 DistanceAuto) (Scenario.pair 1 DistanceAuto)
      = Some l /\ (length l <= 2)%nat.
Proof.
  destruct (pair_accounts_resolved (Scenario.loaded 1 DistanceAuto) _
              (Scenario.pair 1 DistanceAuto) eq_refl) as (l & Hl & Hlen & _).
  exists l. split; [exact Hl | exact Hlen].
Defined.

Lemma concat_nil_inv {A} (ls : list (list A)) :
  concat ls = [] -> Forall (fun l => l = []) ls.
Proof.
  induction ls as [|l ls IH]; simpl; intros H; [constructor|].
  apply app_eq_nil in H. destruct H as [-> H]. constructor; auto.
Qed.

Lemma forall_active_no_inactive (l : list AccountConfig) :
  filter (λ acc, ac_is_active acc = false) l = [] ->
  Forall (fun ac => ac_is_active ac = true) l.
Proof.
  induction l as [|ac l IH]; [constructor|].
  rewrite filter_cons. destruct (decide (ac_is_active ac = false)) as [E|E].
  - discriminate.
  - intros H. constructor; [|now apply IH].
    destruct (ac_is_active ac); [reflexivity | congruence].
Qed.

(** The accounts of a pair come in the order of its addresses, one for
    each address that names a configured account. *)
Lemma get_pair_accounts_from_sublist cm addresses l :
  get_pair_accounts_from cm addresses = Some l ->
  sublist (map (fun ac => lower (ac_l1_address ac)) l) (map lower addresses).
Proof.
  revert l. induction addresses as [|address rest IH]; intros l; simpl.
  - intros [= <-]. constructor.
  - destruct (get_account_by_address cm address) as [found|] eqn:E; simpl;
      [|discriminate].
    destruct (get_pair_accounts_from cm rest) as [l'|]; simpl; [|discriminate].
    intros [= <-]. specialize (IH l' eq_refl).
    destruct found as [ac|].
    + destruct (config cm) as [c|] eqn:Hc.
      * destruct (get_account_by_address_found cm c address ac Hc E) as [_ Hlow].
        simpl. rewrite Hlow. now apply sublist_skip.
      * unfold get_account_by_address, get_accounts in E. rewrite Hc in E. discriminate.
    + now apply sublist_cons.
Qed.

(** X10.  A configuration that [validate_config] accepts has at least two
    active accounts, and each of its enabled pairs resolves to a list of
    at least two entries, every entry an active configured account.  The
    entries need not be different accounts: an account named twice by the
    pair counts twice.  They are different accounts when the addresses
    of the pair differ from one another, letter case set aside. *)
Theorem validate_config_sound cm :
  validate_config cm = true ->
  exists c,
    config cm = Some c /\
    (2 <= length (filter (λ acc, ac_is_active acc = true) (cfg_accounts c)))%nat /\
    forall pair_config,
      pair_config ∈ cfg_trading_pairs c ->
      pc_is_enabled pair_config = true ->
      exists l,
        get_pair_accounts cm pair_config = Some l /\
        (2 <= length l)%nat /\
        Forall (fun ac => ac_is_active ac = true) l /\
        Forall (fun ac => ac ∈ cfg_accounts c) l /\
        (NoDup (map lower (pc_account_addresses pair_config)) ->
           NoDup (map (fun ac => lower (ac_l1_address ac)) l) /\ NoDup l).
Proof.
  unfold validate_config, validation_errors.
  destruct (config cm) as [c|] eqn:Hc; simpl; [|discriminate].
  destruct (mapM (pair_errors cm) (cfg_trading_pairs c)) as [per_pair|] eqn:Hm;
    simpl; [|discriminate].
  intros H.
  assert (Hnil :
    (if bool_decide (length (filter (λ acc, ac_is_active acc = true) (cfg_accounts c)) < 2)%nat
     then [TooFewActiveAccounts] else []) ++ concat per_pair = []).
  { destruct (_ ++ _); [reflexivity | discriminate]. }
  clear H. apply app_eq_nil in Hnil. destruct Hnil as [Hactive Hpairs].
  exists c. split; [reflexivity|]. split.
  - case_bool_decide; [discriminate | lia].
  - intros pair_config Hin Henabled.
    apply concat_nil_inv in Hpairs.
    apply mapM_Some in Hm.
    apply list_elem_of_lookup in Hin. destruct Hin as [i Hi].
    destruct (Forall2_lookup_l _ _ _ _ _ Hm Hi) as (errors & Hj & Herr).
    assert (errors = []) as ->.
    { eapply Forall_lookup_1 in Hpairs; [exact Hpairs | exact Hj]. }
    unfold pair_errors in Herr. rewrite Henabled in Herr.
    destruct (get_pair_accounts cm pair_config) as [l|] eqn:Hl; simpl in Herr;
      [|discriminate].
    injection Herr as Herr. apply app_eq_nil in Herr. destruct Herr as [Hfew Hinactive].
    exists l. split; [reflexivity|]. split; [|split; [|split]].
    + case_bool_decide; [discriminate | lia].
    + apply forall_active_no_inactive.
      destruct (filter _ l); [reflexivity | discriminate].
    + destruct (get_pair_accounts_from_spec cm c (pc_account_addresses pair_config) Hc)
        as (l' & Hl' & _ & Hall).
      unfold get_pair_accounts in Hl. rewrite Hl in Hl'. injection Hl' as <-.
      eapply Forall_impl; [exact Hall|]. now intros ac [Hconfigured _].
    + intros Hdistinct.
      assert (Hlower : NoDup (map (fun ac => lower (ac_l1_address ac)) l)).
      { exact (sublist_NoDup _ _ Hdistinct (get_pair_accounts_from_sublist _ _ _ Hl)). }
      split; [exact Hlower|].
      exact (NoDup_fmap_1 (fun ac => lower (ac_l1_address ac)) l Hlower).
Qed.

(** The configuration of the examples passes, and its pair resolves to
    two different accounts. *)
Lemma validate_config_sound_witness :
  exists l,
    get_pair_accounts (Scenario.loaded 1 DistanceAuto) (Scenario.pair 1 DistanceAuto)
      = Some l /\ (2 <= length l)%nat /\ NoDup l.
Proof.
  destruct (validate_config_sound (Scenario.loaded 1 DistanceAuto) eq_refl)
    as (c & Hc & _ & Hpairs).
  injection Hc as <-.
  destruct (Hpairs (Scenario.pair 1 DistanceAuto) ltac:(left) eq_refl)
    as (l & Hl & Hlen & _ & _ & Hdistinct).
  exists l. split; [exact Hl|]. split; [exact Hlen|].
  apply Hdistinct. vm_compute.
  apply NoDup_cons. split; [|apply NoDup_singleton].
  intros H. apply list_elem_of_singleton in H. discriminate H.
Defined.

(** A pair that names account 1 under two spellings of its address
    passes the validation and resolves to account 1 twice. *)
Example one_account_under_two_spellings :
  validate_config Scenario.loaded_with_two_spellings = true /\
  get_pair_accounts Scenario.loaded_with_two_spellings Scenario.pair_of_two_spellings
  = Some [Scenario.account_config 1 "0xaaa1"; Scenario.account_config 1 "0xaaa1"].
Proof. split; vm_compute; reflexivity. Qed.

End ConfigFacts.

Module AccountFacts.

Import Accounts.
Local Open Scope Q_scope.

(** X11.  An account update from the feed never creates an account and
    never touches another one; on the account it names it leaves the
    positions, the index and the activity flag alone.  When both figures
    it carries are numbers they become the balance and the available
    balance; when the balance is a number and the available balance is
    not, the new balance is kept and the available balance stays as it
    was. *)
Theorem update_account_data_frame am account_index balance available_balance :
  let am' := update_account_data am account_index balance available_balance in
  (accounts am !! account_index = None -> am' = am) /\
  (forall i, i <> account_index -> accounts am' !! i = accounts am !! i) /\
  (forall account,
     accounts am !! account_index = Some account ->
     exists account',
       accounts am' !! account_index = Some account' /\
       acc_positions account' = acc_positions account /\
       acc_index account' = acc_index account /\
       acc_is_active account' = acc_is_active account /\
       (forall b v,
          balance = Some (FeedNumber b) -> available_balance = Some (FeedNumber v) ->
          acc_balance account' = b /\ acc_available_balance account' = v) /\
       (forall b s,
          balance = Some (FeedNumber b) -> available_balance = Some (FeedOther s) ->
          acc_balance account' = b
          /\ acc_available_balance account' = acc_available_balance account)).
Proof.
  cbv zeta. unfold update_account_data. split; [|split].
  - intros H. now rewrite H.
  - intros i Hi. destruct (accounts am !! account_index) as [account|]; [|reflexivity].
    destruct balance as [[b|s]|]; simpl; try reflexivity;
      now rewrite lookup_insert_ne.
  - intros account H. rewrite H.
    destruct balance as [[b|s]|]; simpl.
    + rewrite lookup_insert_eq. eexists. split; [reflexivity|].
      destruct available_balance as [[v|s]|]; simpl; repeat split;
        intros; simplify_eq; reflexivity.
    + exists account. repeat split; intros; simplify_eq; assumption.
    + rewrite lookup_insert_eq. eexists. split; [reflexivity|].
      destruct available_balance as [[v|s]|]; simpl; repeat split;
        intros; simplify_eq.
Qed.

(** Account 1 of the funded table gets a new balance of 1200; the
    available balance it is sent is not a number. *)
Lemma update_account_data_frame_witness :
  get_account_balance
    (update_account_data Scenario.funded 1 (Some (FeedNumber 1200))
       (Some (FeedOther "n/a"))) 1 = 1200 /\
  get_available_balance
    (update_account_data Scenario.funded 1 (Some (FeedNumber 1200))
       (Some (FeedOther "n/a"))) 1 = 1000.
Proof.
  destruct (update_account_data_frame Scenario.funded 1 (Some (FeedNumber 1200))
              (Some (FeedOther "n/a"))) as (_ & _ & Hknown).
  destruct (Hknown (Scenario.account 1 1000 1000) eq_refl)
    as (account' & Ha & _ & _ & _ & _ & Hpartial).
  destruct (Hpartial 1200 "n/a" eq_refl eq_refl) as [Hb Hv].
  unfold get_account_balance, get_available_balance, get_account.
  rewrite Ha, Hb, Hv. split; reflexivity.
Defined.

End AccountFacts.

(** ** The trackers over a series of checks *)

Module TrackerFacts.

Import Engine Series.

Lemma handle_sl_tp_missing_known self current_time pair_config status tracker :
  sl_tp_missing_tracker self !! pc_id pair_config = Some tracker ->
  last_fingerprint tracker = _create_sl_tp_missing_fingerprint status ->
  let r := _handle_sl_tp_missing self current_time pair_config status in
  r.1 = bool_decide (3 <= consecutive_count tracker + 1)%Z /\
  exists tracker',
    sl_tp_missing_tracker r.2 !! pc_id pair_config = Some tracker' /\
    consecutive_count tracker' = (consecutive_count tracker + 1)%Z /\
    last_fingerprint tracker' = last_fingerprint tracker /\
    status_history tracker' = status_history tracker.
Proof.
  intros Hrecord Hsame. cbv zeta. unfold _handle_sl_tp_missing.
  rewrite Hrecord. unfold strike. rewrite Hsame, String.eqb_refl. simpl.
  split; [reflexivity|]. eexists. rewrite lookup_insert_eq.
  split; [reflexivity|]. repeat split.
Qed.

Lemma sl_tp_series_from_record self pair_config status times tracker :
  sl_tp_missing_tracker self !! pc_id pair_config = Some tracker ->
  last_fingerprint tracker = _create_sl_tp_missing_fingerprint status ->
  (sl_tp_missing_series self pair_config (map (fun t => (t, status)) times)).1
  = imap (fun i _ => bool_decide (3 <= consecutive_count tracker + Z.of_nat i + 1)%Z) times.
Proof.
  revert self tracker. induction times as [|t times IH]; intros self tracker Hrecord Hsame;
    [reflexivity|].
  simpl.
  destruct (handle_sl_tp_missing_known self t pair_config status tracker Hrecord Hsame)
    as (Hanswer & tracker' & Hrecord' & Hcount & Hfp & _).
  destruct (_handle_sl_tp_missing self t pair_config status) as [answer self'].
  simpl in Hanswer, Hrecord'.
  specialize (IH self' tracker' Hrecord' (eq_trans Hfp Hsame)).
  destruct (sl_tp_missing_series self' pair_config _) as [answers self''].
  simpl in *. subst answer answers. f_equal.
  - f_equal. apply bool_decide_ext. lia.
  - apply imap_ext. intros i x _. simpl. apply bool_decide_ext. lia.
Qed.

(** X12.  When the checks of a pair keep seeing the same status, starting
    from a pair that has no record, [_handle_sl_tp_missing] answers [false]
    to the first two and [true] to the third and to every one after it: a
    check that fires does not clear the record, and the times of the checks
    play no part. *)
Theorem unchanged_status_fires_from_third_check self pair_config status times :
  sl_tp_missing_tracker self !! pc_id pair_config = None ->
  (sl_tp_missing_series self pair_config (map (fun t => (t, status)) times)).1
  = imap (fun i _ => bool_decide (2 <= i)%nat) times.
Proof.
  intros Hfresh. destruct times as [|t times]; [reflexivity|].
  simpl. unfold _handle_sl_tp_missing at 1. rewrite Hfresh.
  set (self' := set_sl_tp_missing_tracker self _).
  pose proof (sl_tp_series_from_record self' pair_config status times
                (first_strike t (_create_sl_tp_missing_fingerprint status))
                (lookup_insert_eq _ _ _) eq_refl) as Hrest.
  destruct (sl_tp_missing_series self' pair_config _) as [answers self''].
  simpl in *. subst answers. f_equal.
  apply imap_ext. intros i x _. simpl. apply bool_decide_ext. lia.
Qed.

(** Five checks at one-second intervals, account 1 holding a position
    each time. *)
Lemma unchanged_status_fires_from_third_check_witness :
  (sl_tp_missing_series
     {| position_issues_tracker := ∅; sl_tp_missing_tracker := ∅;
        position_inconsistency_tracker := None |}
     (Scenario.pair 1 DistanceAuto)
     (map (fun t => (t, Scenario.one_sided)) [0; 1; 2; 3; 4]%Z)).1
  = [false; false; true; true; true].
Proof.
  rewrite (unchanged_status_fires_from_third_check
             {| position_issues_tracker := ∅; sl_tp_missing_tracker := ∅;
                position_inconsistency_tracker := None |}
             (Scenario.pair 1 DistanceAuto)
             Scenario.one_sided [0; 1; 2; 3; 4]%Z (lookup_empty _)).
  reflexivity.
Defined.

Lemma last_ten_length (history : list string) :
  (10 < length history)%nat -> length (last_ten history) = 10%nat.
Proof. intros H. unfold last_ten. rewrite length_drop. lia. Qed.

Lemma strike_history_bounded tracker current_time fingerprint :
  (length (status_history tracker) <= 10)%nat ->
  (length (status_history (strike tracker current_time fingerprint).2) <= 10)%nat.
Proof.
  intros H. unfold strike.
  destruct (String.eqb (last_fingerprint tracker) fingerprint); simpl; [exact H|].
  case_bool_decide as Hlong.
  - rewrite last_ten_length by exact Hlong. lia.
  - lia.
Qed.

(** X13.  The status history of a fingerprint tracker never holds more
    than ten entries: if that is so for every record before a call of
    [_handle_sl_tp_missing], it is so for every record after it. *)
Theorem status_history_stays_bounded self current_time pair_config status :
  map_Forall (fun _ tracker => (length (status_history tracker) <= 10)%nat)
             (sl_tp_missing_tracker self) ->
  map_Forall (fun _ tracker => (length (status_history tracker) <= 10)%nat)
             (sl_tp_missing_tracker
                (_handle_sl_tp_missing self current_time pair_config status).2).
Proof.
  intros H. unfold _handle_sl_tp_missing.
  destruct (sl_tp_missing_tracker self !! pc_id pair_config) as [tracker|] eqn:E.
  - pose proof (strike_history_bounded tracker current_time
                  (_create_sl_tp_missing_fingerprint status) (H _ _ E)) as Hb.
    destruct (strike tracker current_time _) as [result tracker']. simpl in *.
    apply map_Forall_insert_2; assumption.
  - simpl. apply map_Forall_insert_2; [simpl; lia | exact H].
Qed.

(** A record whose history is full, and a status it has not seen. *)
Lemma status_history_stays_bounded_witness :
  let full :=
    {| first_detected := 0; last_checked := 0; consecutive_count := 1;
       last_fingerprint := "a";
       status_history := ["a"; "b"; "c"; "d"; "e"; "f"; "g"; "h"; "i"; "j"] |} in
  let self :=
    {| position_issues_tracker := ∅;
       sl_tp_missing_tracker := <["btc_hedge" := full]> ∅;
       position_inconsistency_tracker := None |} in
  map_Forall (fun _ tracker => (length (status_history tracker) <= 10)%nat)
    (sl_tp_missing_tracker
       (_handle_sl_tp_missing self 5 (Scenario.pair 1 DistanceAuto) Scenario.one_sided).2).
Proof.
  cbv zeta. apply status_history_stays_bounded.
  apply map_Forall_insert_2; [simpl; lia | apply map_Forall_empty].
Defined.

Lemma handle_position_issues_known self current_time pair_config status
    exchange_positions size_imbalance tracker :
  position_issues_tracker self !! pc_id pair_config = Some tracker ->
  let r := _handle_position_issues self current_time pair_config status
             exchange_positions size_imbalance in
  r.1 = bool_decide (3 <= count tracker + 1)%Z
        && bool_decide (seconds 30 <= current_time - issues_first_detected tracker)%Z /\
  (r.1 = true -> position_issues_tracker r.2 !! pc_id pair_config = None) /\
  (r.1 = false ->
     exists tracker',
       position_issues_tracker r.2 !! pc_id pair_config = Some tracker' /\
       count tracker' = (count tracker + 1)%Z /\
       issues_first_detected tracker' = issues_first_detected tracker).
Proof.
  intros Hrecord. cbv zeta. unfold _handle_position_issues.
  rewrite Hrecord. change (seconds 30) with min_detection_interval.
  cbn [default from_option id count issues_first_detected].
  destruct (bool_decide (3 <= count tracker + 1)%Z
            && bool_decide (min_detection_interval
                            <= current_time - issues_first_detected tracker)%Z);
    cbn [fst snd position_issues_tracker set_position_issues_tracker].
  - split; [reflexivity|]. split; [|discriminate].
    intros _. apply lookup_delete_eq.
  - split; [reflexivity|]. split; [discriminate|].
    intros _. eexists. rewrite lookup_insert_eq. split; [reflexivity|]. split; reflexivity.
Qed.

Lemma issues_series_from_record self pair_config status exchange_positions
    size_imbalance times tracker n t :
  position_issues_tracker self !! pc_id pair_config = Some tracker ->
  times !! n = Some t ->
  let answers :=
    (position_issues_series self pair_config status exchange_positions
       size_imbalance times).1 in
  (forall i, (i < n)%nat -> answers !! i = Some false) ->
  answers !! n =
    Some (bool_decide (3 <= count tracker + Z.of_nat n + 1)%Z
          && bool_decide (seconds 30 <= t - issues_first_detected tracker)%Z).
Proof.
  revert self tracker n.
  induction times as [|t0 times IH]; intros self tracker n Hrecord Ht; [discriminate|].
  cbv zeta. simpl.
  destruct (handle_position_issues_known self t0 pair_config status exchange_positions
              size_imbalance tracker Hrecord) as (Hanswer & _ & Hquiet).
  destruct (_handle_position_issues self t0 pair_config status exchange_positions
              size_imbalance) as [answer self'].
  simpl in Hanswer, Hquiet.
  specialize (IH self').
  destruct (position_issues_series self' pair_config status exchange_positions
              size_imbalance times) as [answers self''].
  simpl in *. intros Hbefore.
  destruct n as [|n]; simpl in *.
  - injection Ht as <-. rewrite Hanswer. f_equal. f_equal. apply bool_decide_ext. lia.
  - assert (answer = false) as Hfalse.
    { specialize (Hbefore 0%nat ltac:(lia)). simpl in Hbefore. congruence. }
    destruct (Hquiet Hfalse) as (tracker' & Hrecord' & Hcount & Hfirst).
    rewrite (IH tracker' n Hrecord' Ht).
    + rewrite Hcount, Hfirst. f_equal. f_equal. apply bool_decide_ext. lia.
    + intros i Hi. apply (Hbefore (S i)). lia.
Qed.

(** X14.  [_handle_position_issues] over a series of checks of a pair that
    starts without a record: as long as no earlier check has fired, the
    check number [n + 1], made at time [t], fires exactly when it is at
    least the third and at least 30 seconds have passed since the first
    check.  A check that fires removes the record, so the count starts
    again. *)
Theorem position_issues_fire_rule self pair_config status exchange_positions
    size_imbalance first_time times n t :
  position_issues_tracker self !! pc_id pair_config = None ->
  (first_time :: times) !! n = Some t ->
  let answers :=
    (position_issues_series self pair_config status exchange_positions
       size_imbalance (first_time :: times)).1 in
  (forall i, (i < n)%nat -> answers !! i = Some false) ->
  answers !! n =
    Some (bool_decide (3 <= n + 1)%nat && bool_decide (seconds 30 <= t - first_time)%Z)
  /\ (forall engine current_time,
        (_handle_position_issues engine current_time pair_config status
           exchange_positions size_imbalance).1 = true ->
        position_issues_tracker
          (_handle_position_issues engine current_time pair_config status
             exchange_positions size_imbalance).2 !! pc_id pair_config = None).
Proof.
  intros Hfresh Ht. cbv zeta. intros Hbefore. split.
  - revert Hbefore. simpl.
    assert (Hfirst :
      _handle_position_issues self first_time pair_config status exchange_positions
        size_imbalance
      = (false,
         set_position_issues_tracker self
           (<[pc_id pair_config :=
                {| count := 0 + 1; issues_first_detected := first_time;
                   last_detected := first_time;
                   issues_history :=
                     [] ++ [(first_time,
                             (if _check_position_inconsistency status
                              then ["position_inconsistency"] else [])
                             ++ (if negb (bool_decide (exchange_positions = []))
                                    && size_imbalance
                                 then ["size_imbalance"] else []))];
                   positions_snapshot := exchange_positions |}]>
              (position_issues_tracker self)))).
    { unfold _handle_position_issues. rewrite Hfresh. reflexivity. }
    rewrite Hfirst.
    set (self' := set_position_issues_tracker self _).
    destruct n as [|n]; simpl in *.
    + intros _. destruct (position_issues_series self' _ _ _ _ _). reflexivity.
    + intros Hbefore.
      pose proof (issues_series_from_record self' pair_config status exchange_positions
                    size_imbalance times _ n t (lookup_insert_eq _ _ _) Ht) as Hrec.
      cbv zeta in Hrec.
      destruct (position_issues_series self' pair_config status exchange_positions
                  size_imbalance times) as [answers self''].
      simpl in *. rewrite Hrec.
      * do 2 f_equal. apply bool_decide_ext. lia.
      * intros i Hi. apply (Hbefore (S i)). lia.
  - intros engine current_time Hfire.
    unfold _handle_position_issues in *.
    destruct (bool_decide _ && bool_decide _); simpl in *; [|discriminate].
    apply lookup_delete_eq.
Qed.

(** Checks at 0, 10, 20 and 40 seconds: the third comes too early, the
    fourth fires. *)
Lemma position_issues_fire_rule_witness :
  (position_issues_series
     {| position_issues_tracker := ∅; sl_tp_missing_tracker := ∅;
        position_inconsistency_tracker := None |}
     (Scenario.pair 1 DistanceAuto) Scenario.one_sided [] false
     [seconds 0; seconds 10; seconds 20; seconds 40]).1 !! 3%nat = Some true.
Proof.
  destruct (position_issues_fire_rule
              {| position_issues_tracker := ∅; sl_tp_missing_tracker := ∅;
                 position_inconsistency_tracker := None |}
              (Scenario.pair 1 DistanceAuto) Scenario.one_sided [] false
              (seconds 0) [seconds 10; seconds 20; seconds 40] 3 (seconds 40)
              (lookup_empty _) eq_refl) as [Hfire _].
  - intros i Hi.
    destruct i as [|[|[|i]]]; [vm_compute; reflexivity .. | lia].
  - rewrite Hfire. vm_compute. reflexivity.
Defined.

Lemma filter_all_length {A} (P : A -> Prop) `{!forall x, Decision (P x)} (l : list A) :
  length (filter P l) = length l <-> Forall P l.
Proof.
  induction l as [|x l IH]; simpl.
  - split; [constructor | reflexivity].
  - rewrite filter_cons. destruct (decide (P x)) as [Hx|Hx]; simpl.
    + rewrite Forall_cons. split.
      * intros Hlen. split; [exact Hx|]. apply IH. lia.
      * intros [_ Hall]. apply IH in Hall. lia.
    + split.
      * intros Hlen. pose proof (length_filter P l). lia.
      * intros Hall. apply Forall_cons in Hall. tauto.
Qed.

Lemma position_inconsistency_mixed (status : gmap Z AccountPositionStatus) :
  _check_position_inconsistency status = true <->
  (exists account s, status !! account = Some s /\ has_position s = true) /\
  (exists account s, status !! account = Some s /\ has_position s = false).
Proof.
  unfold _check_position_inconsistency.
  set (statuses := (map_to_list status).*2).
  assert (Hin : forall s, s ∈ statuses <-> exists account, status !! account = Some s).
  { intros s. subst statuses. rewrite list_elem_of_fmap. split.
    - intros ([account s'] & -> & H). exists account. now apply elem_of_map_to_list.
    - intros [account H]. exists (account, s). split; [reflexivity|].
      now apply elem_of_map_to_list. }
  clearbody statuses.
  split.
  - intros H.
    case_bool_decide as Hempty; [discriminate|].
    destruct (bool_decide (length (filter _ statuses) = length statuses)) eqn:Hall;
      [discriminate|].
    destruct (bool_decide (length (filter (fun s => has_position s = false) statuses)
                           = length statuses)) eqn:Hnone; [discriminate|].
    apply bool_decide_eq_false in Hall, Hnone.
    rewrite filter_all_length in Hall, Hnone.
    apply not_Forall_Exists in Hall; [|apply _].
    apply not_Forall_Exists in Hnone; [|apply _].
    apply Exists_exists in Hall, Hnone.
    destruct Hall as (s1 & Hs1 & Hno), Hnone as (s2 & Hs2 & Hyes).
    apply Hin in Hs1, Hs2. destruct Hs1 as [a1 Ha1], Hs2 as [a2 Ha2].
    split.
    + exists a2, s2. split; [exact Ha2|]. simpl in Hyes.
      destruct (has_position s2); [reflexivity | now destruct Hyes].
    + exists a1, s1. split; [exact Ha1|]. simpl in Hno.
      destruct (has_position s1); [now destruct Hno | reflexivity].
  - intros [(a1 & s1 & Ha1 & Hyes) (a2 & s2 & Ha2 & Hno)].
    assert (Hs1 : s1 ∈ statuses) by (apply Hin; eauto).
    assert (Hs2 : s2 ∈ statuses) by (apply Hin; eauto).
    case_bool_decide as Hempty; [subst; inversion Hs1|].
    rewrite (bool_decide_eq_false_2 (length (filter _ statuses) = length statuses)).
    2:{ rewrite filter_all_length. intros Hall.
        rewrite Forall_forall in Hall. specialize (Hall _ Hs2). simpl in Hall. congruence. }
    rewrite (bool_decide_eq_false_2
               (length (filter (fun s => has_position s = false) statuses)
                = length statuses)).
    2:{ rewrite filter_all_length. intros Hall.
        rewrite Forall_forall in Hall. specialize (Hall _ Hs1). simpl in Hall. congruence. }
    reflexivity.
Qed.

(** X15.  [_check_position_inconsistency] answers [true] exactly when the
    status shows at least one account with a position and at least one
    account without; an empty status, and a status in which all accounts
    agree, are consistent. *)
Theorem position_inconsistency_iff_mixed (status : gmap Z AccountPositionStatus) :
  _check_position_inconsistency status = true <->
  (exists account s, status !! account = Some s /\ has_position s = true) /\
  (exists account s, status !! account = Some s /\ has_position s = false).
Proof. apply position_inconsistency_mixed. Qed.

(** Account 1 holds a position and account 2 does not. *)
Lemma position_inconsistency_iff_mixed_witness :
  _check_position_inconsistency Scenario.one_sided = true.
Proof.
  apply position_inconsistency_iff_mixed. split.
  - exists 1%Z, {| has_position := true; positions_count := 1 |}.
    split; reflexivity.
  - exists 2%Z, {| has_position := false; positions_count := 0 |}.
    split; reflexivity.
Defined.

End TrackerFacts.

(** ** The overlap check *)

Module OverlapFacts.

Import Engine Overlap.

Lemma handle_position_issues_keeps_attribute self current_time pair_config status
    exchange_positions size_imbalance :
  position_inconsistency_tracker
    (_handle_position_issues self current_time pair_config status exchange_positions
       size_imbalance).2
  = position_inconsistency_tracker self.
Proof.
  unfold _handle_position_issues. destruct (bool_decide _ && bool_decide _); reflexivity.
Qed.

Lemma cleanup_stale_keeps_trackers self now refs :
  trackers (_cleanup_stale_local_positions self now refs) = trackers self.
Proof.
  revert self. induction refs as [|ref refs IH]; intros self; simpl; [reflexivity|].
  rewrite IH. destruct (eng_objects self !! ref); reflexivity.
Qed.

(** What the survey finds when the venue shows no position. *)
Lemma survey_of_flat_venue view pair_accounts s0 :
  (forall account, view_positions view account = []) ->
  exchange_positions_detail s0 = [] ->
  map_Forall (fun _ st => has_position st = false) (account_position_status s0) ->
  exchange_positions_detail (foldl (survey_account view) s0 pair_accounts) = [] /\
  map_Forall (fun _ st => has_position st = false)
             (account_position_status (foldl (survey_account view) s0 pair_accounts)).
Proof.
  intros Hflat. revert s0.
  induction pair_accounts as [|account rest IH]; intros s0 Hpos Hstatus; simpl.
  - split; assumption.
  - apply IH.
    + unfold survey_account. simpl. rewrite Hflat, Hpos. reflexivity.
    + unfold survey_account. simpl. rewrite Hflat.
      apply map_Forall_insert_2; [reflexivity | exact Hstatus].
Qed.

Lemma no_inconsistency_without_positions (status : gmap Z AccountPositionStatus) :
  map_Forall (fun _ st => has_position st = false) status ->
  _check_position_inconsistency status = false.
Proof.
  intros Hnone.
  destruct (_check_position_inconsistency status) eqn:E; [|reflexivity].
  apply TrackerFacts.position_inconsistency_mixed in E.
  destruct E as [(account & st & Hst & Hyes) _].
  specialize (Hnone _ _ Hst). simpl in Hnone. congruence.
Qed.

(** X16.  The engine that [__init__] builds has no attribute
    [position_inconsistency_tracker], and [_check_position_overlap] reads
    that attribute on the path that finds nothing in the way of a new open.
    So, for such an engine: the check never answers [False] (free to open)
    except when position issues were detected and
    [_handle_position_issues] fired; when the venue shows no position on
    any account the check answers [True] (blocked), whatever else it shows;
    no clean-up call is ever made; and the attribute is still missing
    afterwards. *)
Theorem overlap_check_blocks_without_tracker self cm view pair_config :
  position_inconsistency_tracker (trackers self) = None ->
  let out := _check_position_overlap self cm view pair_config in
  (ov_result out = false ->
     exists pair_accounts,
       Config.get_pair_accounts cm pair_config = Some pair_accounts /\
       let s := survey view pair_accounts in
       _check_position_issues view (account_position_status s)
         (exchange_positions_detail s) = true /\
       (_handle_position_issues (trackers self) (view_now view) pair_config
          (account_position_status s) (map snapshot_of (exchange_positions_detail s))
          (_check_hedge_position_size_balance view (exchange_positions_detail s))).1
       = true) /\
  ((forall account, view_positions view account = []) -> ov_result out = true) /\
  ov_calls out = [] /\
  position_inconsistency_tracker (trackers (ov_state out)) = None.
Proof.
  intros Hmissing. cbv zeta. unfold _check_position_overlap.
  destruct (Config.get_pair_accounts cm pair_config) as [pair_accounts|] eqn:Haccounts.
  2:{ simpl. repeat split; try assumption; discriminate. }
  set (s := survey view pair_accounts).
  unfold _check_sl_tp_orders_missing.
  destruct (_check_position_issues view (account_position_status s)
              (exchange_positions_detail s)) eqn:Hissues.
  - pose proof (handle_position_issues_keeps_attribute (trackers self) (view_now view)
                  pair_config (account_position_status s)
                  (map snapshot_of (exchange_positions_detail s))
                  (_check_hedge_position_size_balance view (exchange_positions_detail s)))
      as Hkeep.
    destruct (_handle_position_issues (trackers self) (view_now view) pair_config _ _ _)
      as [should_fix t] eqn:Hhandle.
    simpl in Hkeep. rewrite Hmissing in Hkeep.
    destruct should_fix; simpl.
    + split; [|split; [|split]].
      * intros _. exists pair_accounts. split; [reflexivity|]. cbv zeta.
        fold s. rewrite Hissues, Hhandle. split; reflexivity.
      * intros Hflat.
        destruct (survey_of_flat_venue view pair_accounts
                    {| has_exchange_blocking := false; exchange_positions_detail := [];
                       exchange_orders_detail := []; account_position_status := ∅ |}
                    Hflat eq_refl (map_Forall_empty _)) as [Hpos Hstatus].
        fold (survey view pair_accounts) in Hpos, Hstatus. fold s in Hpos, Hstatus.
        unfold _check_position_issues in Hissues.
        rewrite (no_inconsistency_without_positions _ Hstatus), Hpos in Hissues.
        discriminate.
      * reflexivity.
      * exact Hkeep.
    + match goal with
      | |- context [if ?c then _cleanup_stale_local_positions ?a ?n ?l else ?b] =>
          set (self2 := if c then _cleanup_stale_local_positions a n l else b);
          assert (Htr : position_inconsistency_tracker (trackers self2) = None)
            by (subst self2; destruct c; [rewrite cleanup_stale_keeps_trackers|];
                exact Hkeep);
          clearbody self2
      end.
      destruct (has_exchange_blocking s); simpl.
      * repeat split; try assumption; discriminate.
      * rewrite Htr. simpl. repeat split; try assumption; discriminate.
  - simpl.
    match goal with
    | |- context [if ?c then _cleanup_stale_local_positions ?a ?n ?l else ?b] =>
        set (self2 := if c then _cleanup_stale_local_positions a n l else b);
        assert (Htr : position_inconsistency_tracker (trackers self2) = None)
          by (subst self2; destruct c; [rewrite cleanup_stale_keeps_trackers|];
              exact Hmissing);
        clearbody self2
    end.
    destruct (has_exchange_blocking s); simpl.
    + repeat split; try assumption; discriminate.
    + rewrite Htr. simpl. repeat split; try assumption; discriminate.
Qed.

(** An engine as [__init__] leaves it, the accounts of the configured pair
    showing neither a position nor an order: the check blocks the open. *)
Lemma overlap_check_blocks_without_tracker_witness :
  let fresh :=
    {| trackers := {| position_issues_tracker := ∅; sl_tp_missing_tracker := ∅;
                      position_inconsistency_tracker := None |};
       eng_objects := ∅; eng_active_positions := ∅ |} in
  let quiet :=
    {| view_now := 0; view_positions := fun _ => []; view_pending_orders := fun _ => [];
       view_size_imbalance := fun _ => false |} in
  ov_result (_check_position_overlap fresh (Scenario.loaded 1 DistanceAuto) quiet
               (Scenario.pair 1 DistanceAuto)) = true.
Proof.
  cbv zeta.
  match goal with
  | |- ov_result (_check_position_overlap ?fresh ?cm ?quiet ?pair_config) = true =>
      destruct (overlap_check_blocks_without_tracker fresh cm quiet pair_config eq_refl)
        as (_ & Hflat & _)
  end.
  apply Hflat. intros account. reflexivity.
Defined.

(** The same venue seen by an engine that does have the attribute: the
    open is free. *)
Example overlap_check_with_tracker :
  let equipped :=
    {| trackers := {| position_issues_tracker := ∅; sl_tp_missing_tracker := ∅;
                      position_inconsistency_tracker := Some ∅ |};
       eng_objects := ∅; eng_active_positions := ∅ |} in
  let quiet :=
    {| view_now := 0; view_positions := fun _ => []; view_pending_orders := fun _ => [];
       view_size_imbalance := fun _ => false |} in
  ov_result (_check_position_overlap equipped (Scenario.loaded 1 DistanceAuto) quiet
               (Scenario.pair 1 DistanceAuto)) = false.
Proof. vm_compute. reflexivity. Qed.

End OverlapFacts.

(** ** The order manager *)

Module OrderFacts.

Import Strategy Orders.
Local Open Scope Q_scope.

(** *** Rate limiter *)

Lemma api_call_interval_value : _api_call_interval = 2000000%Z.
Proof. reflexivity. Qed.

(** A call that is let through comes at least the interval after the
    time the table holds. *)
Lemma api_calls_after_last table api_key times last j tj :
  table !! api_key = Some last ->
  api_calls table api_key times !! j = Some true ->
  times !! j = Some tj ->
  (last + _api_call_interval <= tj)%Z.
Proof.
  revert table last j.
  induction times as [|now rest IH]; intros table last j Hlast Hj Htj; [discriminate|].
  cbn [api_calls] in Hj. unfold _can_make_api_call in Hj. rewrite Hlast in Hj.
  cbv zeta in Hj. case_bool_decide as Hgap.
  - destruct j as [|j]; cbn in Hj, Htj.
    + injection Htj as <-. lia.
    + pose proof (IH _ now j (lookup_insert_eq table api_key now) Hj Htj) as Hrec.
      rewrite api_call_interval_value in *. lia.
  - destruct j as [|j]; cbn in Hj, Htj; [discriminate|].
    exact (IH _ last j Hlast Hj Htj).
Qed.

Lemma api_calls_spaced table api_key times i j ti tj :
  (i < j)%nat ->
  api_calls table api_key times !! i = Some true -> times !! i = Some ti ->
  api_calls table api_key times !! j = Some true -> times !! j = Some tj ->
  (ti + _api_call_interval <= tj)%Z.
Proof.
  revert table i j.
  induction times as [|now rest IH]; intros table i j Hij Hi Hti Hj Htj; [discriminate|].
  destruct j as [|j]; [lia|].
  cbn [api_calls] in Hi, Hj.
  destruct (_can_make_api_call table now api_key false) as [allowed table'] eqn:Hcall.
  destruct i as [|i]; cbn in Hi, Hti, Hj, Htj.
  - injection Hi as ->. injection Hti as <-.
    assert (Hheld : table' !! api_key = Some now).
    { unfold _can_make_api_call in Hcall.
      destruct (table !! api_key) as [last|]; cbv zeta in Hcall.
      - case_bool_decide; [injection Hcall as <-; apply lookup_insert_eq | discriminate].
      - injection Hcall as <-. apply lookup_insert_eq. }
    exact (api_calls_after_last _ _ _ _ _ _ Hheld Hj Htj).
  - apply (IH table' i j); [lia | assumption..].
Qed.

(** X17.  The rate limiter keeps the calls it lets through for one key at
    least two seconds apart, whatever the times of the calls in between.
    A key it has not seen is let through at once, a refused call leaves the
    table as it was, and the flag [force_first_call] changes nothing. *)
Theorem api_calls_two_seconds_apart table api_key :
  (forall times i j ti tj,
     (i < j)%nat ->
     api_calls table api_key times !! i = Some true -> times !! i = Some ti ->
     api_calls table api_key times !! j = Some true -> times !! j = Some tj ->
     (ti + Engine.seconds 2 <= tj)%Z) /\
  (forall now,
     table !! api_key = None -> (_can_make_api_call table now api_key false).1 = true) /\
  (forall now,
     (_can_make_api_call table now api_key false).1 = false ->
     (_can_make_api_call table now api_key false).2 = table) /\
  (forall now force_first_call,
     _can_make_api_call table now api_key force_first_call
     = _can_make_api_call table now api_key false).
Proof.
  split; [|split; [|split]].
  - intros. eapply api_calls_spaced; eassumption.
  - intros now H. unfold _can_make_api_call. now rewrite H.
  - intros now. unfold _can_make_api_call.
    destruct (table !! api_key); cbv zeta; [|discriminate].
    case_bool_decide; [discriminate | reflexivity].
  - intros now force. unfold _can_make_api_call.
    destruct (table !! api_key); [reflexivity|]. now destruct force.
Qed.

(** Calls at 0 s, 1 s, 2.5 s and 3 s on a fresh table: the first and the
    third are let through, and they are 2.5 s apart. *)
Lemma api_calls_two_seconds_apart_witness :
  api_calls ∅ "market_data_1" [0; 1000000; 2500000; 3000000]%Z
    = [true; false; true; false]
  /\ (0 + Engine.seconds 2 <= 2500000)%Z.
Proof.
  split; [reflexivity|].
  destruct (api_calls_two_seconds_apart ∅ "market_data_1") as (Hapart & _).
  exact (Hapart [0; 1000000; 2500000; 3000000]%Z 0%nat 2%nat 0%Z 2500000%Z
           ltac:(lia) eq_refl eq_refl eq_refl eq_refl).
Defined.

(** *** Price validation *)

Lemma abs_ratio_le a c k :
  0 < c -> (Qabs a / c <= k <-> - (k * c) <= a /\ a <= k * c).
Proof.
  intros Hc. rewrite <- Qabs_Qle_condition. split; intros H.
  - assert (E : Qabs a == Qabs a / c * c) by (field; lra).
    rewrite E. apply Qmult_le_compat_r; lra.
  - apply Qle_shift_div_r; assumption.
Qed.

(** X18.  With a positive market price [c] at hand, [_validate_order_price]
    accepts exactly the prices of a band that depends on the side: from
    0.9 c to 1.05 c for a buy, from 0.95 c to 1.1 c for any other side.
    The side is compared without regard to letter case.  Without market
    data every price is accepted, and with a market price of zero none. *)
Theorem validate_order_price_band market_data price side :
  let c := md_price market_data in
  (0 < c ->
   (_validate_order_price (Some market_data) price side = true <->
    if String.eqb (Config.lower side) "buy"
    then 0.9 * c <= price /\ price <= 1.05 * c
    else 0.95 * c <= price /\ price <= 1.1 * c)) /\
  (c == 0 -> _validate_order_price (Some market_data) price side = false) /\
  _validate_order_price None price side = true.
Proof.
  cbv zeta. split; [|split].
  - intros Hc. unfold _validate_order_price.
    rewrite DecFacts.div_Some by lra.
    pose proof (abs_ratio_le (price - md_price market_data) (md_price market_data)
                  max_price_deviation Hc) as Hband.
    unfold max_price_deviation in *.
    destruct (Dec.gt _ 0.10) eqn:Hdev.
    + apply DecFacts.gt_true in Hdev.
      split; [discriminate|]. intros H. exfalso.
      assert (Hin : Qabs (price - md_price market_data) / md_price market_data <= 0.10).
      { apply Hband. destruct (String.eqb _ "buy"); lra. }
      lra.
    + apply DecFacts.gt_false in Hdev. apply Hband in Hdev.
      destruct (String.eqb _ "buy").
      * destruct (Dec.gt price _) eqn:Hside; simpl.
        -- apply DecFacts.gt_true in Hside. split; [discriminate | lra].
        -- apply DecFacts.gt_false in Hside. split; [lra | reflexivity].
      * destruct (Dec.lt price _) eqn:Hside; simpl.
        -- apply DecFacts.lt_true in Hside. split; [discriminate | lra].
        -- apply DecFacts.lt_false in Hside. split; [lra | reflexivity].
  - intros Hc. unfold _validate_order_price, Dec.div.
    assert (E : Dec.eq (md_price market_data) 0 = true) by now apply DecFacts.eq_true.
    now rewrite E.
  - reflexivity.
Qed.

(** At a market price of 100 a buy at 92 passes and a sell at 92 does
    not. *)
Lemma validate_order_price_band_witness :
  let quote :=
    {| md_market_index := 1; md_price := 100; md_bid_price := None;
       md_ask_price := None; md_timestamp := 0 |} in
  _validate_order_price (Some quote) 92 "BUY" = true /\
  _validate_order_price (Some quote) 92 "sell" = false.
Proof.
  cbv zeta.
  match goal with
  | |- _validate_order_price (Some ?quote) _ _ = _ /\ _ =>
      destruct (validate_order_price_band quote 92 "BUY") as (Hbuy & _)
  end.
  split; [|reflexivity].
  apply (Hbuy ltac:(reflexivity)). cbn. split; discriminate.
Defined.

(** *** Market precision *)

Lemma table_precision_coherent market_index :
  precision_coherent (_get_precision_by_market_index market_index).
Proof.
  unfold _get_precision_by_market_index.
  repeat (destruct (_ =? _)%Z; [repeat split; (reflexivity || (simpl; lia))|]).
  repeat split; (reflexivity || (simpl; lia)).
Qed.

Lemma inferred_precision_coherent pair_name pair_id :
  precision_coherent (_infer_precision_from_pair_name pair_name pair_id).
Proof.
  unfold _infer_precision_from_pair_name. cbv zeta.
  repeat (match goal with
          | |- precision_coherent (if ?c then _ else _) => destruct c
          end;
          [repeat split; (reflexivity || (simpl; lia))|]).
  repeat split; (reflexivity || (simpl; lia)).
Qed.

Lemma btc_precision_coherent : precision_coherent btc_precision.
Proof. repeat split; (reflexivity || (simpl; lia)). Qed.

Lemma precision_stored cm (cache : gmap Z Precision) market_index p :
  map_Forall (fun _ => precision_coherent) cache ->
  precision_coherent p ->
  precision_coherent p /\
  map_Forall (fun _ => precision_coherent) (<[market_index := p]> cache) /\
  (forall m, m <> market_index -> <[market_index := p]> cache !! m = cache !! m) /\
  (<[market_index := p]> cache !! market_index = Some p
   \/ (Config.get_trading_pairs cm = None /\ <[market_index := p]> cache = cache
       /\ p = btc_precision)) /\
  (<[market_index := p]> cache !! market_index = Some p ->
   forall cm' src',
     _get_market_precision cm' src' (<[market_index := p]> cache) market_index
     = (p, <[market_index := p]> cache)).
Proof.
  intros Hcache Hp. split; [exact Hp|]. split; [|split; [|split]].
  - now apply map_Forall_insert_2.
  - intros m Hm. now apply lookup_insert_ne.
  - left. apply lookup_insert_eq.
  - intros _ cm' src'. unfold _get_market_precision. cbv zeta.
    now rewrite lookup_insert_eq.
Qed.

(** The steps of [_get_market_precision] after the venue gave nothing. *)
Ltac precision_fallback Hcache Hhit :=
  destruct (negb (bool_decide (_get_precision_by_market_index _ = default_precision)));
  [ intros [= <- <-]; apply precision_stored;
    [exact Hcache | apply table_precision_coherent]
  | destruct (Config.get_trading_pairs _) as [trading_pairs|] eqn:Hpairs;
    [ destruct (List.find _ trading_pairs) as [tp|]; intros [= <- <-];
      rewrite <- Hpairs; apply precision_stored;
      [ exact Hcache | apply inferred_precision_coherent
      | exact Hcache | apply btc_precision_coherent ]
    | intros [= <- <-];
      split; [apply btc_precision_coherent|];
      split; [exact Hcache|];
      split; [reflexivity|];
      split; [right; repeat split|];
      rewrite Hhit; discriminate ] ].

(** X19.  Whichever way [_get_market_precision] finds the precision of a
    market (the cache, the venue, the table by market index, the name of a
    configured pair or the last default), the multipliers it returns are
    the powers of ten of the decimal counts it returns, as long as the
    cache held such entries and the venue answers with counts that are not
    negative.  The call touches no other entry of the cache; it stores its
    answer under the market, except when the configuration cannot be read,
    in which case it answers with the BTC precision and stores nothing;
    and once the answer is stored, every later call returns it without
    asking anyone. *)
Theorem market_precision_coherent cm src cache market_index :
  map_Forall (fun _ => precision_coherent) cache ->
  (forall pd sd,
     order_book_details src market_index = Returned (Some (pd, sd)) ->
     (0 <= pd)%Z /\ (0 <= sd)%Z) ->
  let p := (_get_market_precision cm src cache market_index).1 in
  let cache' := (_get_market_precision cm src cache market_index).2 in
  precision_coherent p /\
  map_Forall (fun _ => precision_coherent) cache' /\
  (forall m, m <> market_index -> cache' !! m = cache !! m) /\
  (cache' !! market_index = Some p
   \/ (Config.get_trading_pairs cm = None /\ cache' = cache /\ p = btc_precision)) /\
  (cache' !! market_index = Some p ->
   forall cm' src', _get_market_precision cm' src' cache' market_index = (p, cache')).
Proof.
  intros Hcache Hvenue. cbv zeta.
  destruct (_get_market_precision cm src cache market_index) as [p cache'] eqn:Hcall.
  cbn [fst snd]. unfold _get_market_precision in Hcall. cbv zeta in Hcall. revert Hcall.
  destruct (cache !! market_index) as [cached|] eqn:Hhit.
  { intros [= <- <-]. split; [exact (Hcache _ _ Hhit)|]. split; [exact Hcache|].
    split; [reflexivity|]. split; [now left|].
    intros _ cm' src'. unfold _get_market_precision. cbv zeta. now rewrite Hhit. }
  destruct (has_order_api src).
  - destruct (order_book_details src market_index) as [|[[pd sd]|]] eqn:Hanswer.
    + precision_fallback Hcache Hhit.
    + intros [= <- <-]. apply precision_stored; [exact Hcache|].
      destruct (Hvenue pd sd eq_refl) as [Hpd Hsd]. repeat split; assumption.
    + precision_fallback Hcache Hhit.
  - precision_fallback Hcache Hhit.
Qed.

(** A market the venue says nothing about, and that neither the table nor
    the configuration knows: the answer is the BTC precision, from then on
    from the cache. *)
Lemma market_precision_coherent_witness :
  let silent := {| has_order_api := false; order_book_details := fun _ => Raised |} in
  (_get_market_precision (Scenario.loaded 1 DistanceAuto) silent ∅ 77).1 = btc_precision
  /\ precision_coherent
       (_get_market_precision (Scenario.loaded 1 DistanceAuto) silent ∅ 77).1.
Proof.
  cbv zeta. split; [reflexivity|].
  match goal with
  | |- precision_coherent (_get_market_precision ?cm ?silent _ _).1 =>
      destruct (market_precision_coherent cm silent ∅ 77 (map_Forall_empty _)
                  ltac:(intros pd sd H; discriminate H)) as (Hp & _)
  end.
  exact Hp.
Defined.

(** *** Market orders *)

Lemma or_else_positive x fallback : 0 < x -> or_else (Some x) fallback = x.
Proof.
  intros Hx. unfold or_else, Dec.truthy.
  assert (E : Dec.eq x 0 = false) by (apply DecFacts.eq_false; lra).
  now rewrite E.
Qed.

(** What [create_market_order] returns. *)
Lemma create_market_order_shape env p account_index market_index side amount
    market_data order :
  mo_market_data env market_index = Some market_data ->
  create_market_order env p account_index market_index side amount None = Some order ->
  has_signer_clients env = true /\
  (oi_status order = ORDER_PENDING \/ oi_status order = ORDER_FAILED) /\
  oi_filled_price order = None /\
  oi_price order = Some (max_price market_data side None) /\
  oi_market_order order = false.
Proof.
  intros Hdata. unfold create_market_order. rewrite Hdata.
  destruct (has_signer_clients env); cbn [negb]; [|discriminate].
  destruct (negb (bool_decide (account_index ∈ signer_clients env))); [discriminate|].
  cbv zeta. intros [= <-]. split; [reflexivity|].
  split; [cbn; destruct (mo_sdk_ok _ _ _ _ _ _); auto|].
  repeat split.
Qed.

(** The order a leg task of the strategy returns when its market order
    goes to [create_market_order]: the returned order, marked as a market
    order. *)
Lemma precise_hedge_order_shape menv p env account_index market_index side amount
    market_data order :
  mo_market_data menv market_index = Some market_data ->
  open_has_signer_clients env = has_signer_clients menv ->
  (forall account side,
     open_create_market_order env account market_index side amount
     = Returned (create_market_order menv p account market_index side amount None)) ->
  (_create_precise_hedge_order env account_index market_index side amount).1
  = Returned (Some order) ->
  (oi_status order = ORDER_PENDING \/ oi_status order = ORDER_FAILED) /\
  oi_filled_price order = None /\
  oi_price order = Some (max_price market_data side None) /\
  oi_market_order order = true.
Proof.
  intros Hdata Hsigner Hcalls. unfold _create_precise_hedge_order.
  rewrite Hsigner, Hcalls.
  destruct (has_signer_clients menv); cbn [negb fst]; [|discriminate].
  destruct (create_market_order menv p account_index market_index side amount None)
    as [sent|] eqn:Hsent; [|discriminate].
  destruct (create_market_order_shape menv p account_index market_index side amount
              market_data sent Hdata Hsent) as (_ & Hstatus & Hfilled & Hprice & _).
  intros [= <-]. cbn [oi_status oi_filled_price oi_price oi_market_order].
  repeat split; assumption.
Qed.

(** The entry price read off a leg order, before and after the order is
    taken as filled. *)
Lemma entry_price_of_leg_order trigger_price order price :
  oi_filled_price order = None ->
  oi_price order = Some price ->
  0 < price ->
  actual_entry_price trigger_price order = price /\
  actual_entry_price trigger_price (assume_filled order) = price /\
  (oi_status order = ORDER_FAILED -> oi_market_order order = true ->
     oi_status (assume_filled order) = ORDER_FILLED /\
     oi_filled_price (assume_filled order) = Some price) /\
  (oi_status order <> ORDER_FAILED -> assume_filled order = order).
Proof.
  intros Hfilled Hprice Hpos.
  assert (Htruthy : Dec.truthy price = true).
  { unfold Dec.truthy. apply negb_true_iff, DecFacts.eq_false. lra. }
  assert (Hentry : actual_entry_price trigger_price order = price).
  { unfold actual_entry_price. now rewrite Hfilled, Hprice, Htruthy. }
  split; [exact Hentry|]. split; [|split].
  - unfold assume_filled.
    destruct (bool_decide (oi_status order = ORDER_FAILED) && oi_market_order order);
      [|exact Hentry].
    unfold actual_entry_price. cbn [oi_filled_price oi_price].
    now rewrite Hprice, Htruthy.
  - intros Hfailed Hmarket. unfold assume_filled.
    rewrite (bool_decide_eq_true_2 _ Hfailed), Hmarket. cbn [andb oi_status oi_filled_price].
    split; [reflexivity | exact Hprice].
  - intros Hok. unfold assume_filled.
    now rewrite (bool_decide_eq_false_2 _ Hok).
Qed.

(** X20.  Take the two leg orders of an open, a buy and a sell, as the
    strategy's [_create_precise_hedge_order] gets them from the order
    manager's [create_market_order] at a quote with 0 < bid <= ask.  Each is
    marked as a market order, is PENDING or FAILED, never FILLED, and
    carries no fill price; its price is the slippage bound of the order,
    0.5% above the ask for the buy and 0.5% below the bid for the sell.
    A FAILED one is taken as FILLED by the strategy, with the bound as its
    fill price.  So the entry price the strategy reads off either order
    ([filled_price or price or trigger_price]), before and after that
    step, is the bound and not a price of execution, and the entry prices
    of the two legs differ by more than 1% of the lower one. *)
Theorem market_order_price_is_slippage_bound
    menv p env market_index market_data bid ask buy_account sell_account amount
    trigger_price buy sell :
  mo_market_data menv market_index = Some market_data ->
  md_bid_price market_data = Some bid ->
  md_ask_price market_data = Some ask ->
  0 < bid -> bid <= ask ->
  open_has_signer_clients env = has_signer_clients menv ->
  (forall account side,
     open_create_market_order env account market_index side amount
     = Returned (create_market_order menv p account market_index side amount None)) ->
  (_create_precise_hedge_order env buy_account market_index "buy" amount).1
  = Returned (Some buy) ->
  (_create_precise_hedge_order env sell_account market_index "sell" amount).1
  = Returned (Some sell) ->
  oi_market_order buy = true /\ oi_market_order sell = true /\
  oi_status buy <> ORDER_FILLED /\ oi_status sell <> ORDER_FILLED /\
  oi_filled_price buy = None /\ oi_filled_price sell = None /\
  oi_price buy = Some (ask * (1 + 0.005)) /\
  oi_price sell = Some (bid * (1 - 0.005)) /\
  (oi_status buy = ORDER_FAILED ->
     oi_status (assume_filled buy) = ORDER_FILLED /\
     oi_filled_price (assume_filled buy) = Some (ask * (1 + 0.005))) /\
  (oi_status sell = ORDER_FAILED ->
     oi_status (assume_filled sell) = ORDER_FILLED /\
     oi_filled_price (assume_filled sell) = Some (bid * (1 - 0.005))) /\
  (forall order, order = buy \/ order = assume_filled buy ->
     actual_entry_price trigger_price order = ask * (1 + 0.005)) /\
  (forall order, order = sell \/ order = assume_filled sell ->
     actual_entry_price trigger_price order = bid * (1 - 0.005)) /\
  0.01 < price_diff (map (actual_entry_price trigger_price)
                       [assume_filled buy; assume_filled sell]).
Proof.
  intros Hdata Hbid Hask Hpos Hspread Hsigner Hcalls Hbuy Hsell.
  destruct (precise_hedge_order_shape menv p env buy_account market_index "buy" amount
              market_data buy Hdata Hsigner Hcalls Hbuy)
    as (Hbuy_status & Hbuy_filled & Hbuy_price & Hbuy_market).
  destruct (precise_hedge_order_shape menv p env sell_account market_index "sell" amount
              market_data sell Hdata Hsigner Hcalls Hsell)
    as (Hsell_status & Hsell_filled & Hsell_price & Hsell_market).
  assert (Hbuy_bound : max_price market_data "buy" None = ask * (1 + 0.005)).
  { unfold max_price. cbn [String.eqb Ascii.eqb Bool.eqb]. rewrite Hask.
    rewrite or_else_positive by lra. reflexivity. }
  assert (Hsell_bound : max_price market_data "sell" None = bid * (1 - 0.005)).
  { unfold max_price. cbn [String.eqb Ascii.eqb Bool.eqb]. rewrite Hbid.
    rewrite or_else_positive by lra. reflexivity. }
  rewrite Hbuy_bound in Hbuy_price. rewrite Hsell_bound in Hsell_price.
  destruct (entry_price_of_leg_order trigger_price buy _ Hbuy_filled Hbuy_price
              ltac:(lra)) as (Hbuy_entry & Hbuy_entry' & Hbuy_failed & _).
  destruct (entry_price_of_leg_order trigger_price sell _ Hsell_filled Hsell_price
              ltac:(lra)) as (Hsell_entry & Hsell_entry' & Hsell_failed & _).
  split; [exact Hbuy_market|]. split; [exact Hsell_market|].
  split; [destruct Hbuy_status as [-> | ->]; discriminate|].
  split; [destruct Hsell_status as [-> | ->]; discriminate|].
  split; [exact Hbuy_filled|]. split; [exact Hsell_filled|].
  split; [exact Hbuy_price|]. split; [exact Hsell_price|].
  split; [intros Hfailed; now apply Hbuy_failed|].
  split; [intros Hfailed; now apply Hsell_failed|].
  split; [intros order [-> | ->]; assumption|].
  split; [intros order [-> | ->]; assumption|].
  cbn [map]. rewrite Hbuy_entry', Hsell_entry'.
  unfold price_diff, Dec.max_list, Dec.min_list. cbn [foldl length].
  assert (Hmax : Dec.max (ask * (1 + 0.005)) (bid * (1 - 0.005)) = ask * (1 + 0.005)).
  { unfold Dec.max.
    assert (E : Dec.lt (ask * (1 + 0.005)) (bid * (1 - 0.005)) = false)
      by (apply DecFacts.lt_false; lra).
    now rewrite E. }
  assert (Hmin : Dec.min (ask * (1 + 0.005)) (bid * (1 - 0.005)) = bid * (1 - 0.005)).
  { unfold Dec.min.
    assert (E : Dec.lt (bid * (1 - 0.005)) (ask * (1 + 0.005)) = true)
      by (apply DecFacts.lt_true; lra).
    now rewrite E. }
  rewrite Hmax, Hmin.
  assert (Hgt : Dec.gt (bid * (1 - 0.005)) 0 = true) by (apply DecFacts.gt_true; lra).
  rewrite Hgt. rewrite bool_decide_true by (simpl; lia). cbn [andb].
  apply Qlt_shift_div_l; lra.
Qed.

(** A quote of 100 / 100.1 and an SDK that refuses both orders: the buy
    order comes back FAILED at 100.6005 and the sell order FAILED at 99.5;
    the strategy takes both as FILLED at those prices. *)
Lemma market_order_price_is_slippage_bound_witness :
  let env := Scenario.open_env_through (Scenario.order_manager false) in
  exists buy sell,
    (_create_precise_hedge_order env 1 1 "buy" 1).1 = Returned (Some buy) /\
    (_create_precise_hedge_order env 2 1 "sell" 1).1 = Returned (Some sell) /\
    oi_status buy = ORDER_FAILED /\ oi_status sell = ORDER_FAILED /\
    oi_status (assume_filled buy) = ORDER_FILLED /\
    oi_filled_price (assume_filled buy) = Some (100.1 * (1 + 0.005)) /\
    oi_status (assume_filled sell) = ORDER_FILLED /\
    oi_filled_price (assume_filled sell) = Some (100 * (1 - 0.005)) /\
    actual_entry_price 100 (assume_filled buy) = 100.1 * (1 + 0.005) /\
    actual_entry_price 100 (assume_filled sell) = 100 * (1 - 0.005).
Proof.
  cbv zeta.
  set (env := Scenario.open_env_through (Scenario.order_manager false)).
  destruct (_create_precise_hedge_order env 1 1 "buy" 1).1 as [|[buy|]] eqn:Hbuy;
    try (vm_compute in Hbuy; discriminate Hbuy).
  destruct (_create_precise_hedge_order env 2 1 "sell" 1).1 as [|[sell|]] eqn:Hsell;
    try (vm_compute in Hsell; discriminate Hsell).
  assert (Hbuy_status : oi_status buy = ORDER_FAILED).
  { vm_compute in Hbuy. injection Hbuy as <-. reflexivity. }
  assert (Hsell_status : oi_status sell = ORDER_FAILED).
  { vm_compute in Hsell. injection Hsell as <-. reflexivity. }
  destruct (market_order_price_is_slippage_bound (Scenario.order_manager false)
              btc_precision env 1 Scenario.quote 100 100.1 1 2 1 100 buy sell
              eq_refl eq_refl eq_refl ltac:(reflexivity) ltac:(discriminate)
              eq_refl ltac:(intros; reflexivity) Hbuy Hsell)
    as (_ & _ & _ & _ & _ & _ & _ & _ & Hbuy_failed & Hsell_failed & Hb & Hs & _).
  destruct (Hbuy_failed Hbuy_status) as [Hbuy_filled Hbuy_price].
  destruct (Hsell_failed Hsell_status) as [Hsell_filled Hsell_price].
  exists buy, sell. split; [reflexivity|]. split; [reflexivity|].
  split; [exact Hbuy_status|]. split; [exact Hsell_status|].
  split; [exact Hbuy_filled|]. split; [exact Hbuy_price|].
  split; [exact Hsell_filled|]. split; [exact Hsell_price|].
  split; [apply Hb; now right | apply Hs; now right].
Defined.

End OrderFacts.

(** ** More on the dual-leg open *)

Module HedgeFacts.

Import Strategy.
Local Open Scope Q_scope.

(** *** Reference price *)

Lemma price_from_sources_band market_data orderbook p :
  0 < md_price market_data ->
  price_from_sources market_data orderbook = Some p ->
  Qabs (p - md_price market_data) <= price_buffer * md_price market_data.
Proof.
  intros Hm. unfold price_from_sources, price_buffer.
  assert (Hsame : Qabs (md_price market_data - md_price market_data)
                  <= 0.02 * md_price market_data).
  { apply Qabs_Qle_condition. lra. }
  destruct orderbook as [book|]; [|intros [= <-]; exact Hsame].
  destruct (ob_bids book) as [|bid bids]; [intros [= <-]; exact Hsame|].
  destruct (ob_asks book) as [|ask asks]; [intros [= <-]; exact Hsame|].
  destruct (bid !! "price") as [bid_price|]; [|discriminate]. cbn [mbind option_bind].
  destruct (ask !! "price") as [ask_price|]; [|discriminate]. cbn [mbind option_bind].
  destruct (spread_percent _ _ _) as [spread|]; [|discriminate]. cbn [mbind option_bind].
  destruct (Dec.gt spread max_spread_for_entry); [discriminate|].
  rewrite !DecFacts.div_Some by lra. cbn [mbind option_bind].
  destruct (Dec.gt (Qabs (bid_price - _) / _) 0.02) eqn:Hb;
    [intros [= <-]; exact Hsame|].
  destruct (Dec.gt (Qabs (ask_price - _) / _) 0.02) eqn:Ha;
    [intros [= <-]; exact Hsame|].
  cbn [orb]. intros [= <-].
  apply DecFacts.gt_false in Hb, Ha.
  apply OrderFacts.abs_ratio_le in Hb; [|exact Hm].
  apply OrderFacts.abs_ratio_le in Ha; [|exact Hm].
  destruct Hb as [Hb1 Hb2], Ha as [Ha1 Ha2].
  apply Qabs_Qle_condition.
  assert (Emid : (bid_price + ask_price) / 2 == 0.5 * bid_price + 0.5 * ask_price)
    by field.
  rewrite Emid.
  split; lra.
Qed.

(** X21.  The reference price that [_get_unified_execution_price] returns
    is never more than 2% away from the market price it was computed from
    (the websocket data, the cached data or the data requested through the
    order manager), as long as that market price is positive: a book whose
    best bid or ask is further away is set aside for the market price
    itself. *)
Theorem unified_price_near_market src p :
  _get_unified_execution_price src = Some p ->
  exists market_data,
    (ws_market_data src = Some market_data
     \/ cached_market_data src = Some market_data
     \/ api_market_data src = Some market_data) /\
    (0 < md_price market_data ->
     Qabs (p - md_price market_data) <= 0.02 * md_price market_data).
Proof.
  unfold _get_unified_execution_price, select_source. cbv zeta.
  assert (Hsame : forall m : Q, 0 < m -> Qabs (m - m) <= 0.02 * m).
  { intros m Hm. apply Qabs_Qle_condition. lra. }
  destruct (has_websocket_manager src).
  - destruct (ws_market_data src) as [md|] eqn:Hws.
    + destruct (ws_orderbook src) as [book|].
      * intros H. exists md. split; [now left|].
        intros Hm. exact (price_from_sources_band _ _ _ Hm H).
      * intros [= <-]. exists md. split; [now left | apply Hsame].
    + destruct (cached_orderbook src) as [book|].
      * destruct (cached_market_data src) as [md|] eqn:Hcached.
        -- intros H. exists md. split; [right; now left|].
           intros Hm. exact (price_from_sources_band _ _ _ Hm H).
        -- destruct (api_market_data src) as [md|] eqn:Hapi; [|discriminate].
           intros H. exists md. split; [right; now right|].
           intros Hm. exact (price_from_sources_band _ _ _ Hm H).
      * destruct (api_market_data src) as [md|] eqn:Hapi; [|discriminate].
        intros H. exists md. split; [right; now right|].
        intros Hm. exact (price_from_sources_band _ _ _ Hm H).
  - destruct (cached_orderbook src) as [book|].
    + destruct (cached_market_data src) as [md|] eqn:Hcached.
      * intros H. exists md. split; [right; now left|].
        intros Hm. exact (price_from_sources_band _ _ _ Hm H).
      * destruct (api_market_data src) as [md|] eqn:Hapi; [|discriminate].
        intros H. exists md. split; [right; now right|].
        intros Hm. exact (price_from_sources_band _ _ _ Hm H).
    + destruct (api_market_data src) as [md|] eqn:Hapi; [|discriminate].
      intros H. exists md. split; [right; now right|].
      intros Hm. exact (price_from_sources_band _ _ _ Hm H).
Qed.

(** The market at 100 with the book at 99.9 / 100.1: the reference price
    is within 2 of 100. *)
Lemma unified_price_near_market_witness :
  exists p,
    _get_unified_execution_price (Scenario.websocket 100 99.9 100.1) = Some p /\
    Qabs (p - 100) <= 0.02 * 100.
Proof.
  destruct (_get_unified_execution_price (Scenario.websocket 100 99.9 100.1))
    as [p|] eqn:Hp; [|vm_compute in Hp; discriminate Hp].
  exists p. split; [reflexivity|].
  destruct (unified_price_near_market _ p Hp) as (md & Hmd & Hband).
  assert (Hprice : md_price md = 100).
  { destruct Hmd as [H | [H | H]]; vm_compute in H;
      first [discriminate H | now injection H as <-]. }
  rewrite Hprice in Hband. apply Hband. reflexivity.
Defined.

(** *** Consistency of the two legs *)

Lemma has_side_two side s1 s2 :
  has_side side [s1; s2] = true -> s1 = side \/ s2 = side.
Proof.
  unfold has_side. cbn [existsb]. rewrite orb_false_r.
  intros H. apply orb_true_iff in H as [H|H]; apply String.eqb_eq in H; auto.
Qed.

(** X22.  What [_validate_hedge_consistency] accepts is a hedge: exactly
    two orders, one a buy and the other a sell, on one market, each for
    the expected amount to within 0.001, and each carrying a price.  The
    prices of two market orders are not compared with anything (their
    mean must only be other than zero); the prices of other orders are
    within 0.01 of the expected price. *)
Theorem hedge_consistency_sound orders expected_amount expected_price :
  _validate_hedge_consistency orders expected_amount expected_price = true ->
  exists o1 o2 p1 p2,
    orders = [o1; o2] /\
    ((oi_side o1 = "buy" /\ oi_side o2 = "sell")
     \/ (oi_side o1 = "sell" /\ oi_side o2 = "buy")) /\
    oi_market_index o1 = oi_market_index o2 /\
    Qabs (oi_amount o1 - expected_amount) < 0.001 /\
    Qabs (oi_amount o2 - expected_amount) < 0.001 /\
    oi_price o1 = Some p1 /\ oi_price o2 = Some p2 /\
    (if oi_market_order o1 && oi_market_order o2
     then ~ p1 + p2 == 0
     else Qabs (p1 - expected_price) < 0.01 /\ Qabs (p2 - expected_price) < 0.01).
Proof.
  unfold _validate_hedge_consistency.
  case_bool_decide as Hlen; cbn [negb]; [|discriminate].
  destruct orders as [|o1 [|o2 [|o3 rest]]]; try discriminate Hlen. clear Hlen.
  cbn [forallb map length].
  destruct (Dec.lt (Qabs (oi_amount o1 - expected_amount)) 0.001) eqn:Ha1;
    cbn [andb negb]; [|discriminate].
  destruct (Dec.lt (Qabs (oi_amount o2 - expected_amount)) 0.001) eqn:Ha2;
    cbn [andb negb]; [|discriminate].
  apply DecFacts.lt_true in Ha1, Ha2.
  destruct (mapM oi_price [o1; o2]) as [prices|] eqn:Hprices.
  2:{ destruct (oi_market_order o1 && (oi_market_order o2 && true)); discriminate. }
  cbn in Hprices.
  destruct (oi_price o1) as [p1|] eqn:Hp1; [|discriminate Hprices].
  destruct (oi_price o2) as [p2|] eqn:Hp2; [|discriminate Hprices].
  cbn in Hprices. injection Hprices as <-.
  intros H. exists o1, o2, p1, p2. split; [reflexivity|].
  assert (Hrest :
    (has_side "buy" [oi_side o1; oi_side o2] && has_side "sell" [oi_side o1; oi_side o2]
     && bool_decide (length (remove_dups [oi_side o1; oi_side o2]) = 2%nat)) = true /\
    bool_decide (length (remove_dups [oi_market_index o1; oi_market_index o2]) = 1%nat)
      = true /\
    (if oi_market_order o1 && oi_market_order o2
     then ~ p1 + p2 == 0
     else Qabs (p1 - expected_price) < 0.01 /\ Qabs (p2 - expected_price) < 0.01)).
  { rewrite andb_true_r in H.
    destruct (oi_market_order o1 && oi_market_order o2).
    - destruct (Dec.eq _ 0) eqn:Havg; cbn [negb] in H; [discriminate|].
      destruct (has_side "buy" _ && has_side "sell" _ && _); cbn [negb] in H;
        [|discriminate].
      split; [reflexivity|]. split; [exact H|].
      apply DecFacts.eq_false in Havg. intros Hzero. apply Havg.
      unfold Dec.sum. cbn [foldl length].
      assert (Esum : 0 + p1 + p2 == p1 + p2) by ring.
      rewrite Esum, Hzero. reflexivity.
    - cbn [forallb] in H.
      destruct (Dec.lt (Qabs (p1 - expected_price)) 0.01) eqn:H1; cbn [andb negb] in H;
        [|discriminate].
      destruct (Dec.lt (Qabs (p2 - expected_price)) 0.01) eqn:H2; cbn [andb negb] in H;
        [|discriminate].
      destruct (has_side "buy" _ && has_side "sell" _ && _); cbn [negb] in H;
        [|discriminate].
      split; [reflexivity|]. split; [exact H|].
      split; now apply DecFacts.lt_true. }
  destruct Hrest as (Hsides & Hmarket & Hprices).
  apply andb_true_iff in Hsides as [Hsides _].
  apply andb_true_iff in Hsides as [Hbuy Hsell].
  apply has_side_two in Hbuy, Hsell.
  split.
  { destruct Hbuy as [Hb|Hb], Hsell as [Hs|Hs]; try (rewrite Hb in Hs; discriminate);
      auto. }
  split.
  { apply bool_decide_eq_true in Hmarket. cbn in Hmarket.
    destruct (decide_rel elem_of (oi_market_index o1) [oi_market_index o2]) as [Hin|Hnin];
      [|discriminate Hmarket].
    apply list_elem_of_singleton in Hin. exact Hin. }
  repeat split; assumption.
Qed.

(** Two market orders for one unit, as the order manager prices them
    around a quote of 100 / 100.1. *)
Lemma hedge_consistency_sound_witness :
  let order (account_index : Z) (side : string) (price : Q) :=
    {| oi_id := "market_" +:+ pretty account_index;
       oi_account_index := account_index; oi_market_index := 1;
       oi_order_type := "market"; oi_side := side; oi_amount := 1;
       oi_price := Some price; oi_status := ORDER_PENDING; oi_filled_amount := 0;
       oi_filled_price := None; oi_market_order := true |} in
  exists o1 o2,
    [order 1%Z "buy" 100.6005; order 2%Z "sell" 99.5] = [o1; o2] /\
    oi_market_index o1 = oi_market_index o2.
Proof.
  cbv zeta.
  match goal with
  | |- exists o1 o2, ?orders = _ /\ _ =>
      destruct (hedge_consistency_sound orders 1 100 ltac:(vm_compute; reflexivity))
        as (o1 & o2 & p1 & p2 & Ho & _ & Hm & _)
  end.
  exists o1, o2. split; assumption.
Defined.

(** *** A leg that fails *)

Lemma classify_results_failed results accounts i :
  forallb is_success results = false ->
  (classify_results results accounts i).2 <> [].
Proof.
  revert i. induction results as [|result rest IH]; intros i; cbn [forallb classify_results];
    [discriminate|].
  specialize (IH (S i)).
  destruct (classify_results rest accounts (S i)) as [successful failed].
  destruct result as [|[order|]]; cbn [is_success andb snd]; try discriminate.
  exact IH.
Qed.

Lemma classify_results_successful results accounts i o :
  o ∈ (classify_results results accounts i).1 ->
  exists order, Returned (Some order) ∈ results /\ o = assume_filled order.
Proof.
  revert i. induction results as [|result rest IH]; intros i; cbn [classify_results].
  - intros H. inversion H.
  - specialize (IH (S i)).
    destruct (classify_results rest accounts (S i)) as [successful failed].
    destruct result as [|[order|]]; cbn [fst] in *.
    + intros H. destruct (IH H) as (order & Hin & ->). exists order. split; [now right | reflexivity].
    + intros H. apply elem_of_cons in H as [->|H].
      * exists order. split; [now left | reflexivity].
      * destruct (IH H) as (order' & Hin & ->). exists order'.
        split; [now right | reflexivity].
    + intros H. destruct (IH H) as (order & Hin & ->). exists order. split; [now right | reflexivity].
Qed.

Lemma assume_filled_id order : oi_id (assume_filled order) = oi_id order.
Proof. unfold assume_filled. now destruct (bool_decide _ && _). Qed.

(** The strategy cancels with [cancel_order(order.id)], a call the order
    manager cannot bind: none of them comes to a signer client. *)
Lemma signer_cancellations_none signer_clients sdk_ok effects :
  Orders.signer_cancellations signer_clients sdk_ok effects = [].
Proof.
  unfold Orders.signer_cancellations.
  induction effects as [|e effects IH]; [reflexivity|].
  cbn [map concat]. rewrite IH. now destruct e.
Qed.

Lemma rotation_keeps_positions self accounts pair_id :
  active_positions (_get_rotated_direction_assignments self accounts pair_id).2
    = active_positions self /\
  objects (_get_rotated_direction_assignments self accounts pair_id).2 = objects self.
Proof.
  unfold _get_rotated_direction_assignments.
  destruct (bool_decide (length accounts < 2)%nat); split; reflexivity.
Qed.

Lemma classify_results_count results accounts i :
  length (classify_results results accounts i).1
  = length (filter (fun r => is_success r = true) results).
Proof.
  revert i. induction results as [|result rest IH]; intros i; cbn [classify_results];
    [reflexivity|].
  specialize (IH (S i)).
  destruct (classify_results rest accounts (S i)) as [successful failed].
  rewrite filter_cons.
  destruct result as [|[order|]]; cbn [is_success fst length] in *.
  - rewrite decide_False by discriminate. exact IH.
  - rewrite decide_True by reflexivity. cbn [length]. now rewrite IH.
  - rewrite decide_False by discriminate. exact IH.
Qed.

Lemma filter_misses_one {A} (f : A -> bool) (l : list A) :
  forallb f l = false -> (length (filter (fun x => f x = true) l) < length l)%nat.
Proof.
  induction l as [|x l IH]; cbn [forallb]; [discriminate|].
  rewrite filter_cons. destruct (f x) eqn:E; cbn [andb].
  - intros H. rewrite decide_True by reflexivity. cbn [length]. specialize (IH H). lia.
  - intros _. rewrite decide_False by discriminate.
    pose proof (length_filter (fun x => f x = true) l). cbn [length]. lia.
Qed.

(** The keys of an ordered dictionary under assignment. *)
Lemma odict_set_existing {A} (d : ODict.t A) k v :
  k ∈ d.*1 -> (ODict.set d k v).*1 = d.*1.
Proof.
  induction d as [|[k' v'] d IH]; cbn [ODict.set fmap list_fmap fst].
  - intros H. inversion H.
  - intros H. destruct (Z.eqb k' k) eqn:E; cbn [fmap list_fmap fst].
    + apply Z.eqb_eq in E. now subst.
    + f_equal. apply IH. apply elem_of_cons in H as [->|H]; [|exact H].
      rewrite Z.eqb_refl in E. discriminate.
Qed.

Lemma odict_set_fresh {A} (d : ODict.t A) k v :
  k ∉ d.*1 -> ODict.set d k v = d ++ [(k, v)].
Proof.
  induction d as [|[k' v'] d IH]; cbn [ODict.set fmap list_fmap fst]; intros H;
    [reflexivity|].
  destruct (Z.eqb k' k) eqn:E.
  - apply Z.eqb_eq in E. subst. exfalso. apply H. left.
  - cbn [app]. f_equal. apply IH. intros Hin. apply H. now right.
Qed.

Lemma odict_set_keys {A} (d : ODict.t A) k v :
  (length (ODict.set d k v) <= S (length d))%nat /\
  (forall k', k' ∈ d.*1 \/ k' = k -> k' ∈ (ODict.set d k v).*1).
Proof.
  destruct (decide (k ∈ d.*1)) as [Hin|Hnin].
  - pose proof (odict_set_existing d k v Hin) as Hkeys.
    split.
    + rewrite <- (length_fmap fst (ODict.set d k v)), <- (length_fmap fst d).
      rewrite Hkeys. lia.
    + intros k' [H| ->]; rewrite Hkeys; assumption.
  - rewrite odict_set_fresh by exact Hnin. split.
    + rewrite length_app. cbn [length]. lia.
    + intros k' H. rewrite fmap_app. apply elem_of_app.
      destruct H as [H | ->]; [now left | right; left].
Qed.

Lemma foldl_set_keys {A} (v : Z -> A) (l : list Z) (d : ODict.t A) :
  (length (foldl (fun d a => ODict.set d a (v a)) d l) <= length d + length l)%nat /\
  (forall k, k ∈ d.*1 \/ k ∈ l -> k ∈ (foldl (fun d a => ODict.set d a (v a)) d l).*1).
Proof.
  revert d. induction l as [|a l IH]; intros d; cbn [foldl length].
  - split; [lia|]. intros k [H|H]; [exact H | inversion H].
  - destruct (IH (ODict.set d a (v a))) as [Hlen Hkeys].
    destruct (odict_set_keys d a (v a)) as [Hlen' Hkeys'].
    split; [lia|].
    intros k [H|H]; apply Hkeys.
    + left. apply Hkeys'. now left.
    + apply elem_of_cons in H as [->|H]; [left; apply Hkeys'; now right | now right].
Qed.

Lemma foldl_pairs_existing {A} (g : nat -> A) (l : list (nat * Z)) (d : ODict.t A) :
  (forall p, p ∈ l -> p.2 ∈ d.*1) ->
  (foldl (fun d '(i, account) => ODict.set d account (g i)) d l).*1 = d.*1.
Proof.
  revert d. induction l as [|[i a] l IH]; intros d Hall; cbn [foldl]; [reflexivity|].
  assert (Ha : a ∈ d.*1) by (apply (Hall (i, a)); left).
  rewrite IH.
  - now apply odict_set_existing.
  - intros p Hp. rewrite odict_set_existing by exact Ha. apply Hall. now right.
Qed.

Lemma imap_pairs_second {A} (h : nat -> nat) (l : list A) p :
  p ∈ imap (fun i x => (h i, x)) l -> p.2 ∈ l.
Proof.
  revert h. induction l as [|x l IH]; intros h; cbn [imap].
  - intros H. inversion H.
  - intros H. apply elem_of_cons in H as [->|H]; [left|].
    right. exact (IH (h ∘ S) H).
Qed.

(** The rotation assigns a direction to no more keys than it is given
    accounts. *)
Lemma rotation_length self accounts pair_id :
  (2 <= length accounts)%nat ->
  (length (_get_rotated_direction_assignments self accounts pair_id).1
   <= length accounts)%nat.
Proof.
  intros Hlen. unfold _get_rotated_direction_assignments. cbv zeta.
  destruct (bool_decide (length accounts < 2)%nat) eqn:E;
    [apply bool_decide_eq_true in E; lia|].
  cbn [fst].
  match goal with
  | |- context [foldl ?f [] accounts] =>
      destruct (foldl_set_keys
                  (rotate (default [] (default ∅ (_direction_cache self)
                                         !! ("direction_history_" +:+ pair_id))))
                  accounts []) as [Hrot Hkeys];
      set (rotated := foldl f [] accounts) in *
  end.
  cbn [length] in Hrot.
  destruct (negb (has_side "buy" (sides_of rotated))
            || negb (has_side "sell" (sides_of rotated))); [|exact Hrot].
  destruct accounts as [|first [|second others]]; try (cbn in Hlen; lia).
  assert (Hfirst : first ∈ rotated.*1) by (apply Hkeys; right; left).
  assert (Hsecond : second ∈ rotated.*1) by (apply Hkeys; right; right; left).
  assert (Hboth : forall (b s : string * string),
            (ODict.set (ODict.set rotated first b) second s).*1 = rotated.*1).
  { intros b s. rewrite odict_set_existing; rewrite odict_set_existing; auto. }
  rewrite <- (length_fmap fst).
  rewrite (foldl_pairs_existing
             (fun i => if Nat.even (i + 2) then ("buy", "long") else ("sell", "short"))).
  - rewrite Hboth, length_fmap. exact Hrot.
  - intros p Hp. apply (imap_pairs_second (fun i => i)) in Hp.
    rewrite Hboth. apply Hkeys. right. right. now right.
Qed.

(** The orders the leg tasks send: one market order per direction
    assignment when the order manager has signer clients, none when it
    has not. *)
Lemma leg_tasks_effects env pair_config assignments amount :
  concat (leg_tasks env pair_config assignments amount).*2
  = if open_has_signer_clients env
    then map (fun '(account_index, (side, role)) =>
                SubmitMarketOrder account_index (pc_market_index pair_config) side amount)
             (ODict.items assignments)
    else [].
Proof.
  unfold leg_tasks, ODict.items, _create_precise_hedge_order.
  induction assignments as [|[account_index [side role]] rest IH]; csimpl.
  - now destruct (open_has_signer_clients env).
  - rewrite IH. now destruct (open_has_signer_clients env).
Qed.

(** Without signer clients every leg task raises. *)
Lemma leg_results_without_signer env pair_config assignments amount result :
  open_has_signer_clients env = false ->
  result ∈ _execute_synchronized_orders (open_gather_timeout env)
             (leg_tasks env pair_config assignments amount).*1 ->
  result = Raised.
Proof.
  intros Hsigner. unfold _execute_synchronized_orders.
  destruct (open_gather_timeout env); intros Hin.
  - apply list_elem_of_In, in_map_iff in Hin as (? & <- & _). reflexivity.
  - apply list_elem_of_fmap in Hin as ([answer effects] & -> & Hin).
    unfold leg_tasks in Hin. apply list_elem_of_In, in_map_iff in Hin
      as ([account_index [side role]] & Htask & _).
    unfold _create_precise_hedge_order in Htask. rewrite Hsigner in Htask.
    now injection Htask as <- _.
Qed.

(** X23.  When a leg of the open does not come back with an order (its
    task raised, returned nothing, or the join timed out), the open ends
    with a FAILED position that holds no leg and is not registered among
    the active positions.  If the order manager has signer clients, one
    leg order per direction assignment had been sent all the same; if it
    has none, every leg task raises before it sends anything and the open
    makes no call at all.  What follows the leg orders are only
    cancellations, and there are some only when exactly two orders came
    back: orders that do not pass for a hedge are dropped from the list
    of orders to cancel.  With two accounts, therefore, the order that did
    come back is not cancelled.  And a cancellation that is made is made
    with [cancel_order(order.id)], a call that the order manager cannot
    bind: none comes to a signer client. *)
Theorem failed_leg_fails_the_open
    self env pair_config accounts trigger_price market_data amount :
  (2 <= length accounts)%nat ->
  open_market_data env = Some market_data ->
  amount_per_account (open_sizing env pair_config accounts) (md_price market_data)
    = Some amount ->
  let assignments :=
    (_get_rotated_direction_assignments self accounts (pc_id pair_config)).1 in
  let tasks := leg_tasks env pair_config assignments amount in
  let results := _execute_synchronized_orders (open_gather_timeout env) tasks.*1 in
  forallb is_success results = false ->
  let out := execute_hedge_open self env pair_config accounts trigger_price in
  exists hp cancels,
    returned_position out = Some hp /\
    hp_status hp = FAILED /\
    hp_positions hp = [] /\
    active_positions (out_strategy out) = active_positions self /\
    out_effects out = concat tasks.*2 ++ cancels /\
    (open_has_signer_clients env = true ->
       concat tasks.*2
       = map (fun '(account_index, (side, role)) =>
                SubmitMarketOrder account_index (pc_market_index pair_config) side amount)
             (ODict.items assignments)) /\
    (open_has_signer_clients env = false -> out_effects out = []) /\
    Forall (fun e => exists order,
                       Returned (Some order) ∈ results /\ e = CancelOrder (oi_id order))
           cancels /\
    (cancels <> [] ->
     length (filter (fun r => is_success r = true) results) = 2%nat) /\
    (length accounts = 2%nat -> cancels = []) /\
    forall signer_clients sdk_ok,
      Orders.signer_cancellations signer_clients sdk_ok (out_effects out) = [].
Proof.
  intros Hlen Hmd Hamount. cbv zeta. intros Hfailed.
  unfold execute_hedge_open.
  destruct (bool_decide (length accounts < 2)%nat) eqn:E;
    [apply bool_decide_eq_true in E; lia|].
  rewrite Hmd, Hamount.
  pose proof (rotation_keeps_positions self accounts (pc_id pair_config)) as [Hactive _].
  pose proof (rotation_length self accounts (pc_id pair_config) Hlen) as Hassigned.
  destruct (_get_rotated_direction_assignments self accounts (pc_id pair_config))
    as [assignments self'].
  cbn [fst snd] in *.
  unfold settle_open.
  pose proof (classify_results_failed _ accounts 0%nat Hfailed) as Hne.
  pose proof (classify_results_successful
                (_execute_synchronized_orders (open_gather_timeout env)
                   (leg_tasks env pair_config assignments amount).*1) accounts 0%nat)
    as Hsucc.
  pose proof (classify_results_count
                (_execute_synchronized_orders (open_gather_timeout env)
                   (leg_tasks env pair_config assignments amount).*1) accounts 0%nat)
    as Hcount.
  pose proof (filter_misses_one is_success _ Hfailed) as Hmiss.
  assert (Hresults :
    length (_execute_synchronized_orders (open_gather_timeout env)
              (leg_tasks env pair_config assignments amount).*1) = length assignments).
  { unfold _execute_synchronized_orders, leg_tasks, ODict.items.
    destruct (open_gather_timeout env);
      repeat (rewrite length_map || rewrite length_fmap); reflexivity. }
  destruct (classify_results _ accounts 0) as [successful failed].
  cbn [fst snd] in *.
  rewrite (bool_decide_false (failed = [])) by exact Hne. cbn [negb orb].
  match goal with
  | |- context [alloc ?s ?h] =>
      pose proof (OpenFacts.alloc_lookup s h) as Hl;
      assert (Ha : active_positions (alloc s h).2 = active_positions s) by reflexivity;
      destruct (alloc s h) as [ref self'']
  end.
  cbn [fst snd] in *.
  assert (Htwo :
    (if negb (bool_decide (successful = []))
        && negb (_validate_hedge_consistency successful amount
                   (unified_price_or_current (open_price_sources env)
                      (md_price market_data)))
     then [] else successful) <> [] ->
    length successful = 2%nat).
  { destruct (bool_decide (successful = [])) eqn:Hnil; cbn [negb andb].
    - apply bool_decide_eq_true in Hnil. subst successful. congruence.
    - destruct (_validate_hedge_consistency successful _ _) eqn:Hvalid; cbn [negb];
        [|congruence].
      intros _. exact (OpenFacts.validate_two_orders _ _ _ Hvalid). }
  eexists _, _. unfold returned_position. cbn [out_result out_strategy out_effects].
  split; [cbn [mbind option_bind]; exact Hl|].
  split; [reflexivity|]. split; [reflexivity|].
  split; [now rewrite Ha|].
  split; [reflexivity|].
  split; [intros Hsigner; now rewrite leg_tasks_effects, Hsigner|].
  split.
  { intros Hsigner. rewrite leg_tasks_effects, Hsigner. cbn [app].
    assert (Hnone : successful = []).
    { destruct successful as [|o rest]; [reflexivity|].
      destruct (Hsucc o ltac:(left)) as (order & Hres & _).
      apply (leg_results_without_signer _ _ _ _ _ Hsigner) in Hres. discriminate Hres. }
    rewrite Hnone. now destruct (_ && _). }
  split; [|split; [|split; [|intros; apply signer_cancellations_none]]].
  - apply Forall_forall. intros e He.
    apply list_elem_of_fmap in He as (o & -> & Ho).
    assert (Hin : o ∈ successful).
    { destruct (negb (bool_decide (successful = [])) && _); [inversion Ho | exact Ho]. }
    destruct (Hsucc o Hin) as (order & Hres & ->).
    exists order. split; [exact Hres | now rewrite assume_filled_id].
  - intros Hsome. rewrite <- Hcount. apply Htwo.
    intros Hnil. apply Hsome. now rewrite Hnil.
  - intros Haccounts.
    match goal with
    | |- map _ ?kept = [] => destruct kept as [|o kept'] eqn:Hkept; [reflexivity|]
    end.
    exfalso. assert (Hlen2 : length successful = 2%nat) by (apply Htwo; congruence).
    lia.
Qed.

(** The order manager returns an order for account 1 and nothing for
    account 2: the open ends FAILED, both leg orders are out, and nothing
    else has been done about them. *)
Lemma failed_leg_fails_the_open_witness :
  let one_leg (account_index market_index : Z) (side : string) (amount : Q) :=
    if (account_index =? 1)%Z
    then Scenario.accepts 100.6 99.5 account_index market_index side amount
    else Returned None in
  let env :=
    {| open_now := 1700000000000000;
       open_cleanup_orders_success := true;
       open_cleanup_positions_success := true;
       open_account_manager := Scenario.funded;
       open_market_data := Some (Scenario.market 100);
       open_price_sources := Scenario.websocket 100 99.9 100.1;
       open_has_signer_clients := true;
       open_create_market_order := one_leg;
       open_gather_timeout := false;
       open_orders_filled := true;
       open_refreshed_accounts := Some Scenario.funded |} in
  let out := execute_hedge_open (Scenario.idle (Scenario.loaded 1 DistanceAuto)) env
               (Scenario.pair 1 DistanceAuto) [1%Z; 2%Z] 100 in
  hp_status <$> returned_position out = Some FAILED /\
  out_effects out
    = [SubmitMarketOrder 1 1 "buy" (700 / 100); SubmitMarketOrder 2 1 "sell" (700 / 100)] /\
  Orders.signer_cancellations {[ 1%Z; 2%Z ]} (fun _ _ _ => true) (out_effects out) = [].
Proof.
  cbv zeta.
  match goal with
  | |- hp_status <$> returned_position (execute_hedge_open ?self ?env ?pc ?accs ?tp) = _
       /\ _ =>
      destruct (amount_per_account (open_sizing env pc accs) 100) as [amount|] eqn:Hamount;
        [|vm_compute in Hamount; discriminate Hamount];
      destruct (failed_leg_fails_the_open self env pc accs tp (Scenario.market 100) amount
                  ltac:(simpl; lia) eq_refl Hamount
                  ltac:(vm_compute in Hamount; injection Hamount as <-;
                        vm_compute; reflexivity))
        as (hp & cancels & _ & _ & _ & _ & _ & _ & _ & _ & _ & _ & Hnone)
  end.
  split; [vm_compute; reflexivity|].
  split; [vm_compute; reflexivity | apply Hnone].
Defined.

(** Without signer clients the open of the same two accounts sends
    nothing and ends FAILED. *)
Example open_without_signer_clients :
  let env :=
    {| open_now := 1700000000000000;
       open_cleanup_orders_success := true;
       open_cleanup_positions_success := true;
       open_account_manager := Scenario.funded;
       open_market_data := Some (Scenario.market 100);
       open_price_sources := Scenario.websocket 100 99.9 100.1;
       open_has_signer_clients := false;
       open_create_market_order := Scenario.accepts 100.6 99.5;
       open_gather_timeout := false;
       open_orders_filled := true;
       open_refreshed_accounts := Some Scenario.funded |} in
  let out := execute_hedge_open (Scenario.idle (Scenario.loaded 1 DistanceAuto)) env
               (Scenario.pair 1 DistanceAuto) [1%Z; 2%Z] 100 in
  hp_status <$> returned_position out = Some FAILED /\ out_effects out = [].
Proof. split; vm_compute; reflexivity. Qed.

(** *** Rotation of the directions *)

Lemma foldl_set_fresh {A} (v : Z -> A) (l : list Z) (d : ODict.t A) :
  NoDup l -> (forall a, a ∈ l -> a ∉ d.*1) ->
  foldl (fun d a => ODict.set d a (v a)) d l = d ++ map (fun a => (a, v a)) l.
Proof.
  revert d. induction l as [|a l IH]; intros d Hnd Hfresh; cbn [foldl map].
  - now rewrite app_nil_r.
  - apply NoDup_cons in Hnd as [Hna Hnd].
    rewrite odict_set_fresh by (apply Hfresh; left).
    rewrite IH; [now rewrite <- app_assoc | exact Hnd |].
    intros a' Ha'. rewrite fmap_app. intros Hin.
    apply elem_of_app in Hin as [Hin|Hin].
    + exact (Hfresh a' ltac:(now right) Hin).
    + apply list_elem_of_singleton in Hin. cbn in Hin. subst. contradiction.
Qed.

Lemma get_of_map {A} (v : Z -> A) (l : list Z) k :
  ODict.get (map (fun a => (a, v a)) l) k = if decide (k ∈ l) then Some (v k) else None.
Proof.
  induction l as [|a l IH]; cbn [map ODict.get].
  - destruct (decide (k ∈ [])) as [H|]; [inversion H | reflexivity].
  - destruct (Z.eqb a k) eqn:E.
    + apply Z.eqb_eq in E. subst. rewrite decide_True by left. reflexivity.
    + rewrite IH. destruct (decide (k ∈ l)) as [Hin|Hnin].
      * rewrite decide_True by now right. reflexivity.
      * rewrite decide_False; [reflexivity|].
        intros H. apply elem_of_cons in H as [->|H]; [|contradiction].
        rewrite Z.eqb_refl in E. discriminate.
Qed.

Lemma foldl_pairs_get {A} (g : nat -> A) (l : list (nat * Z)) (d : ODict.t A) k :
  (k ∉ l.*2 ->
   ODict.get (foldl (fun d '(i, account) => ODict.set d account (g i)) d l) k
   = ODict.get d k) /\
  (k ∈ l.*2 ->
   exists i, ODict.get (foldl (fun d '(i, account) => ODict.set d account (g i)) d l) k
             = Some (g i)).
Proof.
  revert d. induction l as [|[i a] l IH]; intros d; cbn [foldl fmap list_fmap snd].
  - split; [reflexivity|]. intros H. inversion H.
  - destruct (IH (ODict.set d a (g i))) as [Hout Hin].
    destruct (decide (k ∈ l.*2)) as [Hk|Hk].
    + split; [|intros _; exact (Hin Hk)].
      intros Hn. exfalso. apply Hn. now right.
    + split.
      * intros Hn. rewrite (Hout Hk).
        apply SizingFacts.odict_get_set_ne. intros ->. apply Hn. left.
      * intros H. apply elem_of_cons in H as [->|H]; [|contradiction].
        exists i. rewrite (Hout Hk). apply SizingFacts.odict_get_set_eq.
Qed.

Lemma imap_pairs_seconds {A} (h : nat -> nat) (l : list A) :
  (imap (fun i x => (h i, x)) l).*2 = l.
Proof.
  revert h. induction l as [|x l IH]; intros h; cbn [imap fmap list_fmap snd];
    [reflexivity|].
  f_equal. exact (IH (h ∘ S)).
Qed.

Lemma has_side_get (d : ODict.t (string * string)) k side role :
  ODict.get d k = Some (side, role) -> has_side side (sides_of d) = true.
Proof.
  unfold has_side, sides_of, ODict.values.
  induction d as [|[k' [side' role']] d IH]; cbn [ODict.get fmap list_fmap existsb fst snd];
    [discriminate|].
  destruct (Z.eqb k' k).
  - intros [= -> ->]. now rewrite String.eqb_refl.
  - intros H. rewrite (IH H). apply orb_true_r.
Qed.

Lemma has_side_of_map (v : Z -> string * string) (l : list Z) side :
  has_side side (sides_of (map (fun a => (a, v a)) l)) = true ->
  exists a, a ∈ l /\ (v a).1 = side.
Proof.
  unfold has_side, sides_of, ODict.values.
  induction l as [|a l IH]; cbn [map fmap list_fmap existsb fst snd]; [discriminate|].
  intros H. apply orb_true_iff in H as [H|H].
  - apply String.eqb_eq in H. exists a. split; [left | now symmetry].
  - destruct (IH H) as (a' & Ha' & Hv). exists a'. split; [now right | exact Hv].
Qed.

Lemma rotate_values last a :
  rotate last a = ("sell", "short") \/ rotate last a = ("buy", "long").
Proof. unfold rotate. destruct (String.eqb _ "buy"); auto. Qed.

Lemma two_accounts_distinct : NoDup [1%Z; 2%Z].
Proof.
  apply NoDup_cons. split; [|apply NoDup_singleton].
  intros H. apply list_elem_of_singleton in H. discriminate H.
Qed.

(** What the rotation returns for accounts that are all different. *)
Lemma rotation_spec self accounts pair_id :
  NoDup accounts -> (2 <= length accounts)%nat ->
  let r := _get_rotated_direction_assignments self accounts pair_id in
  let last :=
    default [] (default ∅ (_direction_cache self) !! ("direction_history_" +:+ pair_id)) in
  let rotated := map (fun a => (a, rotate last a)) accounts in
  (forall a, a ∈ accounts ->
     ODict.get r.1 a = Some ("buy", "long") \/ ODict.get r.1 a = Some ("sell", "short")) /\
  (forall a, a ∉ accounts -> ODict.get r.1 a = None) /\
  (exists a, a ∈ accounts /\ ODict.get r.1 a = Some ("buy", "long")) /\
  (exists a, a ∈ accounts /\ ODict.get r.1 a = Some ("sell", "short")) /\
  _direction_cache r.2
    = Some (<["direction_history_" +:+ pair_id := r.1]> (default ∅ (_direction_cache self))) /\
  (has_side "buy" (sides_of rotated) = true ->
   has_side "sell" (sides_of rotated) = true -> r.1 = rotated).
Proof.
  intros Hnd Hlen. cbv zeta. unfold _get_rotated_direction_assignments. cbv zeta.
  destruct (bool_decide (length accounts < 2)%nat) eqn:E;
    [apply bool_decide_eq_true in E; lia|].
  cbn [fst snd].
  rewrite (foldl_set_fresh
             (rotate (default [] (default ∅ (_direction_cache self)
                                    !! ("direction_history_" +:+ pair_id))))
             accounts [] Hnd)
    by (intros a _ H; inversion H).
  cbn [app].
  set (last := default [] (default ∅ (_direction_cache self)
                             !! ("direction_history_" +:+ pair_id))).
  set (rotated := map (fun a => (a, rotate last a)) accounts).
  assert (Hget : forall a, ODict.get rotated a
                           = if decide (a ∈ accounts) then Some (rotate last a) else None)
    by (intros a; apply get_of_map).
  destruct (has_side "buy" (sides_of rotated)) eqn:Hbuy;
    destruct (has_side "sell" (sides_of rotated)) eqn:Hsell; cbn [negb orb].
  1:{ split; [|split; [|split; [|split; [|split]]]]; try reflexivity.
      - intros a Ha. rewrite Hget, decide_True by exact Ha.
        destruct (rotate_values last a) as [-> | ->]; auto.
      - intros a Ha. now rewrite Hget, decide_False.
      - apply has_side_of_map in Hbuy as (a & Ha & Hv). exists a. split; [exact Ha|].
        rewrite Hget, decide_True by exact Ha.
        destruct (rotate_values last a) as [H | H]; rewrite H in *; [discriminate Hv|].
        reflexivity.
      - apply has_side_of_map in Hsell as (a & Ha & Hv). exists a. split; [exact Ha|].
        rewrite Hget, decide_True by exact Ha.
        destruct (rotate_values last a) as [H | H]; rewrite H in *; [|discriminate Hv].
        reflexivity. }
  all: destruct accounts as [|first [|second others]]; try (cbn in Hlen; lia).
  all: apply NoDup_cons in Hnd as [Hfirst Hnd]; apply NoDup_cons in Hnd as [Hsecond Hnd].
  all: assert (Hne : first <> second) by (intros ->; apply Hfirst; left).
  all: assert (Hfirst' : first ∉ others) by (intros H; apply Hfirst; now right).
  all: destruct (foldl_pairs_get
                   (fun i => if Nat.even (i + 2) then ("buy", "long") else ("sell", "short"))
                   (imap (fun i account => (i, account)) others)
                   (ODict.set (ODict.set rotated first ("buy", "long")) second
                      ("sell", "short")) first) as [Hf _];
       rewrite (imap_pairs_seconds (fun i => i)) in Hf; specialize (Hf Hfirst');
       rewrite SizingFacts.odict_get_set_ne in Hf by (intros H; now apply Hne);
       rewrite SizingFacts.odict_get_set_eq in Hf.
  all: destruct (foldl_pairs_get
                   (fun i => if Nat.even (i + 2) then ("buy", "long") else ("sell", "short"))
                   (imap (fun i account => (i, account)) others)
                   (ODict.set (ODict.set rotated first ("buy", "long")) second
                      ("sell", "short")) second) as [Hs _];
       rewrite (imap_pairs_seconds (fun i => i)) in Hs; specialize (Hs Hsecond);
       rewrite SizingFacts.odict_get_set_eq in Hs.
  all: (split; [|split; [|split; [|split; [|split]]]];
        [ intros a Ha;
          destruct (foldl_pairs_get
                      (fun i => if Nat.even (i + 2) then ("buy", "long")
                                else ("sell", "short"))
                      (imap (fun i account => (i, account)) others)
                      (ODict.set (ODict.set rotated first ("buy", "long")) second
                         ("sell", "short")) a) as [_ Hin];
          rewrite (imap_pairs_seconds (fun i => i)) in Hin;
          apply elem_of_cons in Ha as [-> | Ha]; [now left|];
          apply elem_of_cons in Ha as [-> | Ha]; [now right|];
          destruct (Hin Ha) as [i Hi]; rewrite Hi;
          destruct (Nat.even (i + 2)); auto
        | intros a Ha;
          destruct (foldl_pairs_get
                      (fun i => if Nat.even (i + 2) then ("buy", "long")
                                else ("sell", "short"))
                      (imap (fun i account => (i, account)) others)
                      (ODict.set (ODict.set rotated first ("buy", "long")) second
                         ("sell", "short")) a) as [Hout _];
          rewrite (imap_pairs_seconds (fun i => i)) in Hout;
          rewrite Hout by (intros H; apply Ha; right; now right);
          rewrite !SizingFacts.odict_get_set_ne
            by (intros ->; apply Ha; first [left | right; left]);
          now rewrite Hget, decide_False
        | exists first; split; [left | exact Hf]
        | exists second; split; [right; left | exact Hs]
        | reflexivity
        | intros; discriminate ]).
Qed.

(** X24.  For at least two accounts, all different, the rotation gives
    every account one of the two directions and no other key any, and at
    least one account buys and at least one sells; the assignment is kept
    in the direction cache under the key of the pair.  (An account listed
    twice can leave the hedge with one direction only.) *)
Theorem rotated_assignments_cover_both_sides self accounts pair_id :
  NoDup accounts -> (2 <= length accounts)%nat ->
  let r := _get_rotated_direction_assignments self accounts pair_id in
  (forall a, a ∈ accounts ->
     ODict.get r.1 a = Some ("buy", "long") \/ ODict.get r.1 a = Some ("sell", "short")) /\
  (forall a, a ∉ accounts -> ODict.get r.1 a = None) /\
  has_side "buy" (sides_of r.1) = true /\
  has_side "sell" (sides_of r.1) = true /\
  _direction_cache r.2
    = Some (<["direction_history_" +:+ pair_id := r.1]> (default ∅ (_direction_cache self))).
Proof.
  intros Hnd Hlen. cbv zeta.
  destruct (rotation_spec self accounts pair_id Hnd Hlen)
    as (Hall & Hnone & (b & _ & Hb) & (s & _ & Hs) & Hcache & _).
  split; [exact Hall|]. split; [exact Hnone|].
  split; [exact (has_side_get _ _ _ _ Hb)|].
  split; [exact (has_side_get _ _ _ _ Hs) | exact Hcache].
Qed.

(** The first open of the pair: account 1 buys and account 2 sells. *)
Lemma rotated_assignments_cover_both_sides_witness :
  (_get_rotated_direction_assignments (Scenario.idle (Scenario.loaded 1 DistanceAuto))
     [1%Z; 2%Z] "btc_hedge").1 = [(1%Z, ("buy", "long")); (2%Z, ("sell", "short"))]
  /\ has_side "sell"
       (sides_of (_get_rotated_direction_assignments
                    (Scenario.idle (Scenario.loaded 1 DistanceAuto))
                    [1%Z; 2%Z] "btc_hedge").1) = true.
Proof.
  split; [reflexivity|].
  destruct (rotated_assignments_cover_both_sides
              (Scenario.idle (Scenario.loaded 1 DistanceAuto)) [1%Z; 2%Z] "btc_hedge"
              two_accounts_distinct ltac:(simpl; lia))
    as (_ & _ & _ & Hsell & _).
  exact Hsell.
Defined.

(** An account listed twice: the hedge is left with the one direction. *)
Example rotation_of_a_repeated_account :
  (_get_rotated_direction_assignments (Scenario.idle (Scenario.loaded 1 DistanceAuto))
     [1%Z; 1%Z] "btc_hedge").1 = [(1%Z, ("sell", "short"))].
Proof. reflexivity. Qed.

(** X25.  Two opens of a pair in a row, for the same accounts (at least
    two, all different), swap the direction of every account: who bought
    in the first sells in the second, and who sold buys. *)
Theorem consecutive_rotations_swap_sides self accounts pair_id :
  NoDup accounts -> (2 <= length accounts)%nat ->
  let first := _get_rotated_direction_assignments self accounts pair_id in
  let second := _get_rotated_direction_assignments first.2 accounts pair_id in
  forall a,
    a ∈ accounts ->
    (ODict.get first.1 a = Some ("buy", "long")
     /\ ODict.get second.1 a = Some ("sell", "short"))
    \/ (ODict.get first.1 a = Some ("sell", "short")
        /\ ODict.get second.1 a = Some ("buy", "long")).
Proof.
  intros Hnd Hlen. cbv zeta.
  destruct (rotation_spec self accounts pair_id Hnd Hlen)
    as (Hall & _ & (b & Hb_in & Hb) & (s & Hs_in & Hs) & Hcache & _).
  destruct (rotation_spec
              (_get_rotated_direction_assignments self accounts pair_id).2
              accounts pair_id Hnd Hlen)
    as (_ & _ & _ & _ & _ & Hplain).
  rewrite Hcache in Hplain. cbn [from_option id] in Hplain.
  rewrite lookup_insert_eq in Hplain. cbn [from_option id] in Hplain.
  set (first := (_get_rotated_direction_assignments self accounts pair_id).1) in *.
  assert (Hflip : forall a side role,
            ODict.get first a = Some (side, role) ->
            rotate first a
            = if String.eqb side "buy" then ("sell", "short") else ("buy", "long")).
  { intros a side role H. unfold rotate. now rewrite H. }
  assert (Hget : forall a, a ∈ accounts ->
            ODict.get (map (fun a => (a, rotate first a)) accounts) a
            = Some (rotate first a)).
  { intros a Ha. now rewrite get_of_map, decide_True. }
  rewrite Hplain.
  - intros a Ha. rewrite (Hget a Ha).
    destruct (Hall a Ha) as [H|H]; rewrite (Hflip _ _ _ H); [left | right];
      (split; [exact H | reflexivity]).
  - apply (has_side_get _ s _ "long"). rewrite (Hget s Hs_in), (Hflip _ _ _ Hs).
    reflexivity.
  - apply (has_side_get _ b _ "short"). rewrite (Hget b Hb_in), (Hflip _ _ _ Hb).
    reflexivity.
Qed.

(** The second open of the pair: account 1 sells and account 2 buys. *)
Lemma consecutive_rotations_swap_sides_witness :
  let first :=
    _get_rotated_direction_assignments (Scenario.idle (Scenario.loaded 1 DistanceAuto))
      [1%Z; 2%Z] "btc_hedge" in
  ODict.get first.1 1 = Some ("buy", "long") /\
  ODict.get (_get_rotated_direction_assignments first.2 [1%Z; 2%Z] "btc_hedge").1 1
    = Some ("sell", "short").
Proof.
  cbv zeta.
  destruct (consecutive_rotations_swap_sides
              (Scenario.idle (Scenario.loaded 1 DistanceAuto)) [1%Z; 2%Z] "btc_hedge"
              two_accounts_distinct ltac:(simpl; lia) 1%Z ltac:(left))
    as [H | [H _]]; [exact H|].
  vm_compute in H. discriminate H.
Defined.

End HedgeFacts.

(** ** Monitoring, exit and close of an open hedge *)

Module ExitFacts.

Import Strategy.
Local Open Scope Q_scope.

(** *** Verification of a close *)

Lemma verification_loop_false env has_factory positions :
  verification_loop env has_factory positions 0 max_retries = false ->
  has_factory = true /\
  exists position size,
    position ∈ positions /\ check_leg env 2 position = LegStillOpen size.
Proof.
  unfold max_retries. cbn [verification_loop].
  destruct (verification_attempt env has_factory positions 0) as [a0 c0].
  destruct (verification_attempt env has_factory positions 1) as [a1 c1].
  destruct (verification_attempt env has_factory positions 2) as [a2 c2] eqn:Hlast.
  destruct (a0 && c0); [discriminate|].
  destruct (a1 && c1); [discriminate|].
  destruct (a2 && c2); [discriminate|].
  intros ->. unfold verification_attempt in Hlast.
  destruct positions as [|first others]; [discriminate Hlast|].
  destruct has_factory; cbn [negb] in Hlast; [|discriminate Hlast].
  split; [reflexivity|].
  injection Hlast as _ Hopen. apply negb_false_iff in Hopen.
  change (existsb is_still_open (map (check_leg env 2) (first :: others)) = true)
    in Hopen.
  apply existsb_exists in Hopen as (c & Hc & Hstill).
  apply in_map_iff in Hc as (position & <- & Hin).
  destruct (check_leg env 2 position) as [size| |] eqn:Hleg; try discriminate Hstill.
  exists position, size. split; [now apply list_elem_of_In | exact Hleg].
Qed.

(** X26.  [_validate_position_closed_with_backend] answers [False] only
    when the strategy has a client factory and the third round of account
    queries shows a leg of the hedge still open beyond the dust threshold.
    A query that fails never counts against the close: without a client
    factory, or when every account query raises, the close is confirmed.
    A confirmed hedge is no longer among the active positions. *)
Theorem close_validation_fails_only_on_open_leg self env hedge_position_id :
  let r := _validate_position_closed_with_backend self env hedge_position_id in
  (r.1 = false ->
   has_client_factory self = true /\
   exists hp position size,
     active_position self hedge_position_id = Some hp /\
     position ∈ hp_positions hp /\
     check_leg env 2 position = LegStillOpen size /\
     dust_threshold < size) /\
  (r.1 = true -> active_position r.2 hedge_position_id = None) /\
  (has_client_factory self = false -> r.1 = true) /\
  ((forall retry account_index, close_account_api env retry account_index = Raised) ->
   r.1 = true).
Proof.
  cbv zeta.
  assert (Hfalse :
    (_validate_position_closed_with_backend self env hedge_position_id).1 = false ->
    has_client_factory self = true /\
    exists hp position size,
      active_position self hedge_position_id = Some hp /\
      position ∈ hp_positions hp /\
      check_leg env 2 position = LegStillOpen size /\
      dust_threshold < size).
  { unfold _validate_position_closed_with_backend, active_position.
    destruct (active_positions self !! hedge_position_id) as [registered|];
      [|discriminate].
    cbn [mbind option_bind].
    destruct (objects self !! registered) as [hp|]; [|discriminate].
    destruct (verification_loop env (has_client_factory self) (hp_positions hp) 0
                max_retries) eqn:Hloop; [discriminate|].
    intros _. apply verification_loop_false in Hloop as (Hfactory & position & size & Hin & Hleg).
    split; [exact Hfactory|]. exists hp, position, size.
    split; [reflexivity|]. split; [exact Hin|]. split; [exact Hleg|].
    unfold check_leg in Hleg.
    destruct (close_account_api env 2 (pos_account_index position)) as [|api];
      [discriminate Hleg|].
    destruct (List.find _ api) as [market_position|]; [|discriminate Hleg].
    destruct (Dec.gt (Qabs market_position.2) dust_threshold) eqn:Hdust;
      [|discriminate Hleg].
    injection Hleg as <-. now apply DecFacts.gt_true in Hdust. }
  split; [exact Hfalse|]. split; [|split].
  - unfold _validate_position_closed_with_backend, active_position.
    destruct (active_positions self !! hedge_position_id) as [registered|] eqn:Hreg.
    + destruct (objects self !! registered) as [hp|] eqn:Hobj.
      * destruct (verification_loop _ _ _ _ _); cbn [negb fst snd]; [|discriminate].
        intros _. cbn [active_positions set_active_positions].
        now rewrite lookup_delete_eq.
      * intros _. cbn [snd]. rewrite Hreg. cbn [mbind option_bind]. exact Hobj.
    + intros _. cbn [snd]. now rewrite Hreg.
  - intros Hnone.
    destruct (_validate_position_closed_with_backend self env hedge_position_id).1
      eqn:E; [reflexivity|].
    destruct (Hfalse eq_refl) as [Hsome _]. congruence.
  - intros Hraise.
    destruct (_validate_position_closed_with_backend self env hedge_position_id).1
      eqn:E; [reflexivity|].
    destruct (Hfalse eq_refl) as (_ & hp & position & size & _ & _ & Hleg & _).
    unfold check_leg in Hleg. rewrite Hraise in Hleg. discriminate Hleg.
Qed.

(** The registered hedge and a venue whose account queries all fail: the
    close is confirmed. *)
Lemma close_validation_fails_only_on_open_leg_witness :
  let unreachable :=
    {| close_now := 1700000600000000;
       close_price_sources := Scenario.websocket 100 99.9 100.1;
       close_create_limit_order := Scenario.accepts_limit;
       close_gather_timeout := false;
       close_account_api := fun _ _ => Raised |} in
  (_validate_position_closed_with_backend Scenario.holding unreachable
     "hedge_btc_hedge_1700000000").1 = true.
Proof.
  cbv zeta.
  match goal with
  | |- (_validate_position_closed_with_backend ?self ?env ?id).1 = true =>
      destruct (close_validation_fails_only_on_open_leg self env id) as (_ & _ & _ & Hraise)
  end.
  apply Hraise. intros retry account_index. reflexivity.
Defined.

(** *** Result and status of a close *)

Lemma validation_keeps_object self env hedge_position_id ref hp :
  objects self !! ref = Some hp ->
  exists hp',
    objects (_validate_position_closed_with_backend self env hedge_position_id).2 !! ref
      = Some hp' /\
    hp_positions hp' = hp_positions hp /\ hp_status hp' = hp_status hp.
Proof.
  intros Hobj. unfold _validate_position_closed_with_backend.
  destruct (active_positions self !! hedge_position_id) as [registered|];
    [|exists hp; auto].
  destruct (objects self !! registered) as [registered_hp|] eqn:Hreg; [|exists hp; auto].
  destruct (verification_loop _ _ _ _ _); cbn [negb snd].
  - exists hp. auto.
  - unfold update_object. cbn [objects set_objects].
    destruct (decide (registered = ref)) as [->|Hne].
    + rewrite lookup_alter_eq, Hobj. cbn [fmap option_fmap option_map].
      eexists. split; [reflexivity|]. split; reflexivity.
    + rewrite lookup_alter_ne by exact Hne. exists hp. auto.
Qed.

(** X27.  What a close leaves behind.  A close that gives up before it has
    sent an order (the hedge has no leg, the market index of its first leg
    is 0, or there is no reference price) returns [False] and leaves the
    hedge in status CLOSING; a close most of whose orders failed returns
    [False] and puts the hedge back to ACTIVE; a close that returns [True]
    leaves it CLOSED or PENDING_CLOSE.  The legs recorded on the hedge are
    never touched.  A hedge left in CLOSING is out of the reach of the
    monitor and of the exit check: [monitor_hedge_position] returns it as
    it is, and [should_close_position] answers [False] for it. *)
Theorem close_result_and_status self env ref hp :
  objects self !! ref = Some hp ->
  let out := execute_hedge_close self env ref in
  exists hp',
    objects (close_strategy out) !! ref = Some hp' /\
    hp_positions hp' = hp_positions hp /\
    ((close_result out = false /\ close_effects out = [] /\ hp_status hp' = CLOSING)
     \/ (close_result out = false /\ close_effects out <> [] /\ hp_status hp' = ACTIVE)
     \/ (close_result out = true
         /\ (hp_status hp' = CLOSED \/ hp_status hp' = PENDING_CLOSE))) /\
    (hp_positions hp = []
     \/ _get_unified_execution_price (close_price_sources env) = None ->
     close_result out = false /\ close_effects out = [] /\ hp_status hp' = CLOSING) /\
    (hp_status hp' = CLOSING ->
     forall now get_market_data leverage_config_data pair_config,
       monitor_hedge_position now get_market_data leverage_config_data hp' = hp' /\
       should_close_position hp' pair_config = false).
Proof.
  intros Hobj. cbv zeta.
  assert (Hfrozen : forall hp' : HedgePosition,
            hp_status hp' = CLOSING ->
            forall now get_market_data leverage_config_data pair_config,
              monitor_hedge_position now get_market_data leverage_config_data hp' = hp' /\
              should_close_position hp' pair_config = false).
  { intros hp' Hs now gmd lc pc.
    unfold monitor_hedge_position, should_close_position. rewrite Hs.
    rewrite bool_decide_false by discriminate. split; reflexivity. }
  assert (Hgiven_up :
    exists hp',
      objects (update_object self ref
                 (fun hp => set_updated_at (set_status hp CLOSING) (close_now env)))
        !! ref = Some hp' /\
      hp_positions hp' = hp_positions hp /\ hp_status hp' = CLOSING).
  { unfold update_object. cbn [objects set_objects].
    rewrite lookup_alter_eq, Hobj. cbn [fmap option_fmap option_map].
    eexists. split; [reflexivity|]. split; reflexivity. }
  unfold execute_hedge_close. rewrite Hobj.
  destruct (hp_positions hp) as [|first others] eqn:Hpos.
  { destruct Hgiven_up as (hp' & Hl & Hp & Hs). exists hp'.
    cbn [close_strategy close_result close_effects].
    split; [exact Hl|]. split; [exact Hp|]. split; [left; auto|].
    split; [auto | intros _; now apply Hfrozen]. }
  destruct (Z.eqb (pos_market_index first) 0).
  { destruct Hgiven_up as (hp' & Hl & Hp & Hs). exists hp'.
    cbn [close_strategy close_result close_effects].
    split; [exact Hl|]. split; [exact Hp|]. split; [left; auto|].
    split; [auto | intros _; now apply Hfrozen]. }
  destruct (_get_unified_execution_price (close_price_sources env)) as [price|].
  2:{ destruct Hgiven_up as (hp' & Hl & Hp & Hs). exists hp'.
      cbn [close_strategy close_result close_effects].
      split; [exact Hl|]. split; [exact Hp|]. split; [left; auto|].
      split; [auto | intros _; now apply Hfrozen]. }
  destruct (negb (Dec.truthy price)).
  { destruct Hgiven_up as (hp' & Hl & Hp & Hs). exists hp'.
    cbn [close_strategy close_result close_effects].
    split; [exact Hl|]. split; [exact Hp|]. split; [left; auto|].
    split; [auto | intros _; now apply Hfrozen]. }
  cbv zeta.
  destruct Hgiven_up as (hp1 & Hl1 & Hp1 & Hs1).
  destruct (bool_decide (failed_closes _ < successful_closes _)%nat).
  - destruct (validation_keeps_object _ env (hp_id hp) ref hp1 Hl1)
      as (hp2 & Hl2 & Hp2 & Hs2).
    destruct (_validate_position_closed_with_backend _ env (hp_id hp))
      as [close_validation self2].
    cbn [snd] in Hl2. cbn [close_strategy close_result close_effects].
    unfold update_object. cbn [objects set_objects].
    rewrite lookup_alter_eq, Hl2. cbn [fmap option_fmap option_map].
    eexists. split; [reflexivity|].
    split; [destruct close_validation; cbn; congruence|].
    split; [right; right; split; [reflexivity|]; destruct close_validation; auto|].
    split; [intros [H|H]; discriminate H|].
    intros Hs. destruct close_validation; discriminate Hs.
  - cbn [close_strategy close_result close_effects].
    unfold update_object at 1. cbn [objects set_objects].
    rewrite lookup_alter_eq, Hl1. cbn [fmap option_fmap option_map].
    eexists. split; [reflexivity|].
    split; [cbn; congruence|].
    split.
    + right; left. split; [reflexivity|]. split; [|reflexivity].
      rewrite CloseFacts.close_tasks_effects. discriminate.
    + split; [intros [H|H]; discriminate H|]. intros Hs. discriminate Hs.
Qed.

(** With no price source at hand the registered hedge is left in
    CLOSING. *)
Lemma close_result_and_status_witness :
  let blind :=
    {| close_now := 1700000600000000;
       close_price_sources :=
         {| has_websocket_manager := false; ws_market_data := None;
            ws_orderbook := None; cached_orderbook := None;
            cached_market_data := None; api_market_data := None;
            api_orderbook := None |};
       close_create_limit_order := Scenario.accepts_limit;
       close_gather_timeout := false;
       close_account_api := fun _ _ => Returned [] |} in
  let out := execute_hedge_close Scenario.holding blind 0 in
  close_result out = false /\
  hp_status <$> objects (close_strategy out) !! 0%nat = Some CLOSING.
Proof.
  cbv zeta.
  match goal with
  | |- close_result (execute_hedge_close ?self ?env ?ref) = false /\ _ =>
      destruct (close_result_and_status self env ref Scenario.open_hedge eq_refl)
        as (hp' & Hl & _ & _ & Hblind & _)
  end.
  destruct (Hblind ltac:(right; reflexivity)) as (Hres & _ & Hs).
  split; [exact Hres|]. rewrite Hl. cbn [fmap option_fmap option_map]. now rewrite Hs.
Defined.

(** *** Monitoring *)

(** X28.  For an active hedge of one long and one short leg of the same
    size, both priced by the same quote, the total PnL that
    [monitor_hedge_position] records does not depend on the quote: it is
    the difference of the two entry prices times the size.  Both legs get
    the quoted price as their current price. *)
Theorem balanced_hedge_pnl_ignores_price
    now get_market_data leverage_config_data hp long short market_data :
  hp_status hp = ACTIVE ->
  hp_positions hp = [long; short] ->
  pos_side long = "long" ->
  pos_side short <> "long" ->
  pos_size long == pos_size short ->
  get_market_data (pos_market_index long) = Some market_data ->
  get_market_data (pos_market_index short) = Some market_data ->
  let hp' := monitor_hedge_position now get_market_data leverage_config_data hp in
  hp_total_pnl hp' == (pos_entry_price short - pos_entry_price long) * pos_size long /\
  hp_positions hp'
    = [set_current_price long (md_price market_data);
       set_current_price short (md_price market_data)] /\
  hp_status hp' = ACTIVE /\
  hp_updated_at hp' = now.
Proof.
  intros Hactive Hpos Hlong Hshort Hsize Hq1 Hq2. cbv zeta.
  unfold monitor_hedge_position. rewrite Hactive, Hpos.
  rewrite bool_decide_true by reflexivity. cbn [negb foldl].
  unfold monitor_leg. rewrite Hq1. cbv zeta.
  cbn [mon_positions mon_total_pnl mon_emergency pos_market_index set_current_price app].
  rewrite Hq2. cbv zeta.
  cbn [mon_positions mon_total_pnl mon_emergency app hp_total_pnl hp_positions
       hp_status hp_updated_at set_updated_at set_total_pnl set_metadata set_positions].
  split; [|repeat split; exact Hactive].
  unfold unrealized_pnl. cbn [pos_side pos_entry_price pos_size set_current_price].
  rewrite Hlong. cbn [String.eqb Ascii.eqb Bool.eqb].
  apply String.eqb_neq in Hshort. rewrite Hshort.
  rewrite Hsize. ring.
Qed.

(** The hedge of the examples, opened at 100 on both sides: at a quote of
    120 the total is 0. *)
Lemma balanced_hedge_pnl_ignores_price_witness :
  hp_total_pnl
    (monitor_hedge_position 1700000300000000 (fun _ => Some (Scenario.market 120)) None
       Scenario.open_hedge) == 0.
Proof.
  destruct (balanced_hedge_pnl_ignores_price 1700000300000000
              (fun _ => Some (Scenario.market 120)) None Scenario.open_hedge
              (Scenario.leg 1 "long" 1) (Scenario.leg 2 "short" 1) (Scenario.market 120)
              eq_refl eq_refl eq_refl ltac:(discriminate) ltac:(reflexivity)
              eq_refl eq_refl) as (Htotal & _).
  rewrite Htotal. reflexivity.
Defined.

(** *** Exit decision *)

Lemma max_stop_loss_percent_range metadata limit :
  max_stop_loss_percent metadata = Some limit -> 0 < limit /\ limit <= 0.5.
Proof.
  unfold max_stop_loss_percent.
  destruct (metadata !! "target_leverage") as [v|]; [destruct v|]; try discriminate.
  all: try (intros [= <-]; split; [reflexivity | discriminate]).
  all: match goal with
       | |- Some (if (1 <? ?l)%Z then _ else _) = _ -> _ =>
           destruct (1 <? l)%Z eqn:E; intros [= <-];
           [|split; [reflexivity | discriminate]]
       | |- (if Dec.gt ?l 1 then None else _) = _ -> _ =>
           destruct (Dec.gt l 1); [discriminate|];
           intros [= <-]; split; [reflexivity | discriminate]
       end.
  apply Z.ltb_lt in E.
  assert (Hl : 2 <= inject_Z n).
  { change 2 with (inject_Z 2). rewrite <- Zle_Qle. lia. }
  split.
  - apply Qlt_shift_div_l; lra.
  - apply Qle_shift_div_r; lra.
Qed.

(** X29.  [should_close_position] answers [True] only for an ACTIVE hedge
    whose legs carry consistent current prices, and then only for one of
    two reasons: the emergency flag set by the monitor, or a current price
    of the first leg that has moved away from the entry price by more than
    the stop limit.  The limit is at most one half (a tenth divided by the
    leverage for a leveraged hedge).  The total PnL of the hedge is only
    logged and the pair configuration is not read: neither changes the
    answer. *)
Theorem exit_rule hp pair_config :
  (should_close_position hp pair_config = true ->
   hp_status hp = ACTIVE /\
   _verify_position_price_consistency hp = true /\
   exists entry position rest current,
     exit_entry_price (hp_metadata hp) = Some entry /\ 0 < entry /\
     hp_positions hp = position :: rest /\
     pos_current_price position = Some current /\ 0 < current /\
     (meta_truthy (hp_metadata hp) "emergency_close_required" = true
      \/ exists limit,
           max_stop_loss_percent (hp_metadata hp) = Some limit /\
           limit < Qabs (current - entry) / entry)) /\
  (forall limit,
     max_stop_loss_percent (hp_metadata hp) = Some limit -> 0 < limit /\ limit <= 0.5) /\
  (forall total_pnl pair_config',
     should_close_position (set_total_pnl hp total_pnl) pair_config'
     = should_close_position hp pair_config).
Proof.
  split; [|split; [apply max_stop_loss_percent_range | intros; reflexivity]].
  unfold should_close_position.
  case_bool_decide as Hactive; cbn [negb]; [|discriminate].
  destruct (_verify_position_price_consistency hp) eqn:Hconsistent; cbn [negb];
    [|discriminate].
  cbv zeta.
  destruct (meta_decimal (hp_metadata hp) "total_margin_used") as [margin|];
    [|discriminate].
  destruct (Dec.le margin 0); [discriminate|].
  destruct (exit_entry_price (hp_metadata hp)) as [entry|]; [|discriminate].
  destruct (Dec.le entry 0) eqn:Hentry; [discriminate|].
  apply DecFacts.le_false in Hentry.
  destruct (hp_positions hp) as [|position rest]; [discriminate|].
  destruct (pos_current_price position) as [current|] eqn:Hprice; [|discriminate].
  destruct (negb (Dec.truthy current)); cbn [orb]; [discriminate|].
  destruct (Dec.le current 0) eqn:Hcurrent; [discriminate|].
  apply DecFacts.le_false in Hcurrent.
  intros H. split; [exact Hactive|]. split; [reflexivity|].
  exists entry, position, rest, current.
  repeat (split; [assumption || reflexivity|]).
  destruct (meta_truthy (hp_metadata hp) "emergency_close_required"); [now left|].
  right. destruct (max_stop_loss_percent (hp_metadata hp)) as [limit|]; [|discriminate].
  exists limit. split; [reflexivity|]. now apply DecFacts.gt_true.
Qed.

(** An unleveraged hedge opened at 100 whose legs are priced at 160: the
    move of 60% is past the limit of one half. *)
Lemma exit_rule_witness :
  let priced (position : Position) := set_current_price position 160 in
  let hp :=
    set_metadata
      (set_positions Scenario.open_hedge
         [priced (Scenario.leg 1 "long" 1); priced (Scenario.leg 2 "short" 1)])
      (<["total_margin_used" := MetaNum 200]> (<["avg_entry_price" := MetaNum 100]> ∅)) in
  should_close_position hp (Scenario.pair 1 DistanceAuto) = true /\
  hp_status hp = ACTIVE.
Proof.
  cbv zeta.
  match goal with
  | |- should_close_position ?hp ?pc = true /\ _ =>
      assert (Hclose : should_close_position hp pc = true) by (vm_compute; reflexivity);
      destruct (exit_rule hp pc) as (Hsound & _);
      destruct (Hsound Hclose) as (Hactive & _)
  end.
  split; [exact Hclose | exact Hactive].
Defined.

End ExitFacts.
